(** * install_appimage.py: a model of the installer and its properties

    The script moves an AppImage into [~/Applications], marks it executable,
    extracts an icon from the package and writes a [.desktop] launcher.

    The development follows the script top to bottom:
    - [PyStr]: the [str] methods the script calls ([lower], [replace],
      [title]) and [pathlib]'s [name], [stem], [suffix] and [str(path)];
    - [Vfs]: the file system the script acts on, a finite map from paths to
      files, directories and symbolic links, with the calls of [os],
      [pathlib] and [shutil] the script makes;
    - [Installer]: [install_appimage] itself, line by line;
    - the properties of the script.

    Conventions of the model.  A path is the list of its components below
    the root.  An entry is found under the path as it is spelled; a symbolic
    link is followed when it is the entry a call names, a chain of links as
    far as the kernel follows one.  Text is a string of bytes, [lower] and
    [title] act on the ASCII letters.  Permission bits are kept with each
    entry but never refuse an access; what can fail is what the shape of
    the tree makes fail ([ENOENT], [EEXIST], [ENOTDIR], [EISDIR],
    [ENOTEMPTY], [EINVAL]), an [os.rename] the environment refuses (another
    device, a read-only mount), and the package run with
    [--appimage-extract], which is a parameter of the model: it exits with
    a status and writes below its working directory. *)

From Stdlib Require Import ZArith Ascii String List Bool Lia.
From Stdlib Require OrderedTypeEx.
From stdpp Require Import base option list strings gmap fin_maps.

(* ===================================================================== *)
(** * Python strings and pathlib's pure part *)
(* ===================================================================== *)

Module PyStr.

Definition is_upper (c : ascii) : bool :=
  let n := N_of_ascii c in (65 <=? n)%N && (n <=? 90)%N.

Definition is_lower (c : ascii) : bool :=
  let n := N_of_ascii c in (97 <=? n)%N && (n <=? 122)%N.

(** [c.isupper() or c.islower()]: the cased characters. *)
Definition is_cased (c : ascii) : bool := is_upper c || is_lower c.

Definition lower_char (c : ascii) : ascii :=
  if is_upper c then ascii_of_N (N_of_ascii c + 32) else c.

Definition upper_char (c : ascii) : ascii :=
  if is_lower c then ascii_of_N (N_of_ascii c - 32) else c.

(** [s.lower()] *)
Fixpoint lower (s : string) : string :=
  match s with
  | EmptyString => EmptyString
  | String c r => String (lower_char c) (lower r)
  end.

(** [s.replace(a, b)] for one-character [a] and [b]. *)
Fixpoint replace (a b : ascii) (s : string) : string :=
  match s with
  | EmptyString => EmptyString
  | String c r => String (if Ascii.eqb c a then b else c) (replace a b r)
  end.

(** [s.title()]: a character that follows a cased character is lowered,
    any other is put in title case; [previous_is_cased] starts false. *)
Fixpoint title_from (previous_is_cased : bool) (s : string) : string :=
  match s with
  | EmptyString => EmptyString
  | String c r =>
      String (if previous_is_cased then lower_char c else upper_char c)
             (title_from (is_cased c) r)
  end.

Definition title (s : string) : string := title_from false s.

(** [s.rfind(c)], [-1] when [c] does not occur. *)
Fixpoint rfind_from (c : ascii) (i : Z) (s : string) : Z :=
  match s with
  | EmptyString => (-1)%Z
  | String d r =>
      let j := rfind_from c (i + 1) r in
      if (0 <=? j)%Z then j else if Ascii.eqb d c then i else (-1)%Z
  end.

Definition rfind (c : ascii) (s : string) : Z := rfind_from c 0 s.

Definition len (s : string) : Z := Z.of_nat (String.length s).

(** [s[i:]] and [s[:i]] for [0 <= i]. *)
Definition slice_from (i : Z) (s : string) : string :=
  String.substring (Z.to_nat i) (String.length s - Z.to_nat i) s.

Definition slice_to (i : Z) (s : string) : string :=
  String.substring 0 (Z.to_nat i) s.

(** [PurePath.suffix] of a final component [name]:
    [i = name.rfind('.')]; [name[i:]] if [0 < i < len(name) - 1] else ['']. *)
Definition suffix_of (name : string) : string :=
  let i := rfind "." name in
  if (0 <? i)%Z && (i <? len name - 1)%Z then slice_from i name else "".

(** [PurePath.stem]: [name[:i]] under the same test, else [name]. *)
Definition stem_of (name : string) : string :=
  let i := rfind "." name in
  if (0 <? i)%Z && (i <? len name - 1)%Z then slice_to i name else name.

End PyStr.

(* ===================================================================== *)
(** * Paths *)
(* ===================================================================== *)

(** An absolute path, as the list of its components below ["/"]. *)
Abbreviation path := (list string).

Module PyPath.

(** [p.name]: the final component, [''] for the root. *)
Definition name (p : path) : string := List.last p "".

(** [p.parent]; the root is its own parent. *)
Definition parent (p : path) : path := List.removelast p.

(** [p.stem] and [p.suffix] *)
Definition stem (p : path) : string := PyStr.stem_of (name p).
Definition suffix (p : path) : string := PyStr.suffix_of (name p).

(** [p / seg] for a one-component [seg]; joining [''] gives [p] back. *)
Definition join (p : path) (seg : string) : path :=
  if String.eqb seg "" then p else p ++ [seg].

(** [str(p)] *)
Definition str (p : path) : string := "/" +:+ String.concat "/" p.

End PyPath.

Infix "//" := PyPath.join (at level 40, left associativity).

(* ===================================================================== *)
(** * Exceptions, output, and the monad of the script *)
(* ===================================================================== *)

(** The exceptions the calls of the script raise.  All of them derive from
    [Exception]; [SameFileError] derives from [shutil.Error], and all but
    [CalledProcessError] from [OSError]. *)
Inductive exn : Type :=
| ShutilError
| SameFileError
| FileNotFoundError
| FileExistsError
| IsADirectoryError
| NotADirectoryError
| PermissionError
| OSError
| CalledProcessError (returncode : Z).

(** [isinstance(e, shutil.Error)] *)
Definition is_shutil_Error (e : exn) : bool :=
  match e with ShutilError | SameFileError => true | _ => false end.

(** [isinstance(e, OSError)]; [shutil.Error] is an [OSError] too. *)
Definition is_OSError (e : exn) : bool :=
  match e with CalledProcessError _ => false | _ => true end.

(** The lines the script prints, one constructor per [print] call. *)
Inductive message : Type :=
| MsgFileNotFound (p : path)       (* Error: File not found: {p} *)
| MsgOverwriting (p : path)        (* Warning: {p} already exists. Overwriting... *)
| MsgMoved (p : path)              (* Moved AppImage to {p} *)
| MsgErrorMoving (e : exn)         (* Error moving file: {e} *)
| MsgMadeExecutable                (* Made AppImage executable. *)
| MsgExtracting                    (* Extracting AppImage icon... *)
| MsgIconInstalled (p : path)      (* Icon installed to {p} *)
| MsgNoIcon                        (* Could not find icon in AppImage. ... *)
| MsgErrorExtracting (e : exn)     (* Error extracting icon: {e} *)
| MsgDesktopCreated (p : path)     (* Desktop entry created at {p} *)
| MsgComplete.                     (* Installation Complete! ... *)

(** An entry of the file system. [mode] holds the permission bits. *)
Inductive node : Type :=
| File (mode : Z) (data : string)
| Dir (mode : Z)
| Link (target : path).

Abbreviation tree := (gmap path node).

(** What the script can see and change: the file system and its output. *)
Record world : Type := World { fs : tree; out : list message }.

Inductive result (A : Type) : Type :=
| Ok (a : A)
| Raise (e : exn).
Arguments Ok {A} a.
Arguments Raise {A} e.

Definition M (A : Type) : Type := world → result A * world.

#[global] Instance M_ret : MRet M := λ A a w, (Ok a, w).
#[global] Instance M_bind : MBind M := λ A B f m w,
  match m w with
  | (Ok a, w') => f a w'
  | (Raise e, w') => (Raise e, w')
  end.

Definition raise {A} (e : exn) : M A := λ w, (Raise e, w).
Definition get_fs : M tree := λ w, (Ok (fs w), w).
Definition put_fs (t : tree) : M unit := λ w, (Ok tt, World t (out w)).
Definition print (m : message) : M unit :=
  λ w, (Ok tt, World (fs w) (out w ++ [m])).

(** [try: body / except <handles> as e: handler e]: an exception the
    clause does not name goes on. *)
Definition try_except {A} (body : M A) (handles : exn → bool)
    (handler : exn → M A) : M A := λ w,
  match body w with
  | (Raise e, w') => if handles e then handler e w' else (Raise e, w')
  | r => r
  end.

(** [try: body / finally: cleanup]: [cleanup] runs on every way out of
    [body]; an exception of [cleanup] replaces the outcome of [body]. *)
Definition try_finally {A} (body : M A) (cleanup : M unit) : M A := λ w,
  match body w with
  | (r, w') =>
      match cleanup w' with
      | (Ok _, w'') => (r, w'')
      | (Raise e, w'') => (Raise e, w'')
      end
  end.

(** [except Exception] *)
Definition any_Exception (e : exn) : bool := true.

(* ===================================================================== *)
(** * The environment of a run *)
(* ===================================================================== *)

(** What running the package with [--appimage-extract] does: it cannot be
    executed at all, or it exits with [returncode] having written [written],
    entries named relative to its working directory. *)
Inductive proc_result : Type :=
| ExecFormatError
| Exited (returncode : Z) (written : list (path * node)).

Record Env : Type := {
  (** [Path.home()] *)
  home : path;
  (** the process's file mode creation mask *)
  umask : Z;
  (** [os.rename src dst] is refused for a reason that is not in the tree:
      another device, a read-only mount *)
  rename_refused : path → path → bool;
  (** the package at [exe], run in [cwd] on the file system [t] *)
  appimage_extract : tree → path → path → proc_result
}.

(* ===================================================================== *)
(** * The file system and the library calls *)
(* ===================================================================== *)

Module Vfs.

Import PyPath.

Definition S_IFDIR : Z := 16384.   (* 0o040000 *)
Definition S_IFREG : Z := 32768.   (* 0o100000 *)
Definition S_IFLNK : Z := 40960.   (* 0o120000 *)

(** The entry a path names, links not followed ([os.lstat]).  The root
    is always there. *)
Definition entry (t : tree) (p : path) : option node :=
  match p with
  | [] => Some (Dir 493)             (* 0o755 *)
  | _ => t !! p
  end.

(** The kernel follows at most this many links before it gives up with
    [ELOOP]. *)
Definition MAXSYMLINKS : nat := 40.

(** Follow the links an entry stands for, [fuel] of them at most. *)
Fixpoint chase (fuel : nat) (t : tree) (p : path) : path :=
  match fuel with
  | O => p
  | S fuel' =>
      match entry t p with
      | Some (Link q) => chase fuel' t q
      | _ => p
      end
  end.

(** [os.path.realpath(p)], [Path(p).resolve()]: where the links lead,
    be there an entry or not. *)
Definition realpath (t : tree) (p : path) : path := chase MAXSYMLINKS t p.
#[global] Arguments realpath : simpl never.

(** [os.stat(p)]: the entry behind the links; [None] when there is none
    ([ENOENT]) or the links loop ([ELOOP]). *)
Definition stat (t : tree) (p : path) : option node :=
  match entry t (realpath t p) with
  | Some (Link _) => None
  | o => o
  end.

(** [Path.exists], [os.path.exists]: follows links. *)
Definition exists_ (t : tree) (p : path) : bool :=
  match stat t p with Some _ => true | None => false end.

(** [Path.is_dir], [os.path.isdir]: follows links. *)
Definition is_dir (t : tree) (p : path) : bool :=
  match stat t p with Some (Dir _) => true | _ => false end.

(** [os.path.islink] *)
Definition islink (t : tree) (p : path) : bool :=
  match entry t p with Some (Link _) => true | _ => false end.

(** [os.path.samefile] when both paths can be [stat]ed. *)
Definition same_entry (t : tree) (p q : path) : bool :=
  bool_decide (realpath t p = realpath t q).

(** [shutil._samefile]: false when a [stat] fails. *)
Definition shutil_samefile (t : tree) (p q : path) : bool :=
  exists_ t p && exists_ t q && same_entry t p q.

(** [st_mode] of an entry: file type and permission bits. *)
Definition st_mode (n : node) : Z :=
  match n with
  | File m _ => Z.lor S_IFREG m
  | Dir m => Z.lor S_IFDIR m
  | Link _ => Z.lor S_IFLNK 511
  end.

(** [stat.S_IMODE] *)
Definition S_IMODE (m : Z) : Z := Z.land m 4095.   (* 0o7777 *)

Definition set_mode (m : Z) (n : node) : node :=
  match n with
  | File _ d => File (S_IMODE m) d
  | Dir _ => Dir (S_IMODE m)
  | Link q => Link q
  end.

(** The entries at or below [p], and the others. *)
Definition subtree (t : tree) (p : path) : tree :=
  filter (λ kv, p `prefix_of` kv.1) t.

Definition without (t : tree) (p : path) : tree :=
  filter (λ kv, ¬ p `prefix_of` kv.1) t.

(** [k], at or below [src], named below [dst] instead. *)
Definition rebase (src dst k : path) : path := dst ++ drop (length src) k.

(** The entries of [sub], which lie at or below [src], put at or below
    [dst] in [t]. *)
Definition graft (t sub : tree) (src dst : path) : tree :=
  map_fold (λ k v acc, <[rebase src dst k := v]> acc) t sub.

(** [os.scandir(p)]: the names in directory [p]. *)
Definition scandir (t : tree) (p : path) : list string :=
  omap (λ kv : path * node,
          if bool_decide (kv.1 ≠ [] ∧ parent kv.1 = p)
          then Some (name kv.1) else None)
       (map_to_list t).

Definition has_children (t : tree) (p : path) : bool :=
  match scandir t p with [] => false | _ => true end.

(** Entries written below [cwd] by their relative names, in order; the
    empty name, which is [cwd] itself, is not one a process writes. *)
Definition write_all (cwd : path) (written : list (path * node))
    (t : tree) : tree :=
  foldl (λ acc kv, match kv.1 with
                   | [] => acc
                   | _ => <[cwd ++ kv.1 := kv.2]> acc
                   end) t written.

Section Calls.

Context (E : Env).

Definition new_dir_mode : Z := Z.ldiff 511 (umask E).    (* 0o777 & ~umask *)
Definition new_file_mode : Z := Z.ldiff 438 (umask E).   (* 0o666 & ~umask *)

(** [os.stat(p)] *)
Definition os_stat (p : path) : M node :=
  t ← get_fs;
  match stat t p with
  | Some n => mret n
  | None => if islink t (realpath t p) then raise OSError
            else raise FileNotFoundError
  end.

(** [Path.samefile(other)]: [os.stat] of both, then compare. *)
Definition Path_samefile (p q : path) : M bool :=
  _ ← os_stat p;
  _ ← os_stat q;
  t ← get_fs;
  mret (same_entry t p q).

(** [os.mkdir(p)] *)
Definition os_mkdir (p : path) : M unit :=
  t ← get_fs;
  match entry t p with
  | Some _ => raise FileExistsError
  | None =>
      match stat t (parent p) with
      | Some (Dir _) => put_fs (<[p := Dir new_dir_mode]> t)
      | Some _ => raise NotADirectoryError
      | None => raise FileNotFoundError
      end
  end.

(** [Path.mkdir(parents=False, exist_ok=exist_ok)]:
<<
    try: os.mkdir(self, mode)
    except FileNotFoundError: raise          # not parents
    except OSError:
        if not exist_ok or not self.is_dir(): raise
>> *)
Definition Path_mkdir (exist_ok : bool) (p : path) : M unit :=
  try_except (os_mkdir p) is_OSError (λ e,
    match e with
    | FileNotFoundError => raise e
    | _ => t ← get_fs;
           if negb exist_ok || negb (is_dir t p) then raise e
           else mret tt
    end).

(** [Path.mkdir(parents=True, exist_ok=exist_ok)], on the reversed
    path, so that the call on [self.parent] is a call on the tail:
<<
    try: os.mkdir(self, mode)
    except FileNotFoundError:
        if not parents or self.parent == self: raise
        self.parent.mkdir(parents=True, exist_ok=True)
        self.mkdir(mode, parents=False, exist_ok=exist_ok)
    except OSError:
        if not exist_ok or not self.is_dir(): raise
>> *)
Fixpoint Path_mkdir_parents_rev (exist_ok : bool) (rp : list string)
    : M unit :=
  try_except (os_mkdir (rev rp)) is_OSError (λ e,
    match e with
    | FileNotFoundError =>
        match rp with
        | [] => raise e
        | _ :: rparent =>
            Path_mkdir_parents_rev true rparent;;
            Path_mkdir exist_ok (rev rp)
        end
    | _ => t ← get_fs;
           if negb exist_ok || negb (is_dir t (rev rp)) then raise e
           else mret tt
    end).

Definition Path_mkdir_parents (exist_ok : bool) (p : path) : M unit :=
  Path_mkdir_parents_rev exist_ok (rev p).

(** [Path.chmod(mode)], [os.chmod]: follows links. *)
Definition Path_chmod (p : path) (mode : Z) : M unit :=
  n ← os_stat p;
  t ← get_fs;
  put_fs (<[realpath t p := set_mode mode n]> t).

(** [open(p, 'rb').read()] *)
Definition read_bytes (p : path) : M string :=
  n ← os_stat p;
  match n with
  | File _ d => mret d
  | _ => raise IsADirectoryError
  end.

(** [open(p, 'w')] or [open(p, 'wb')], [write(data)], [close()]: the
    file behind the links is truncated, or created when its
    directory is there. *)
Definition write_bytes (p : path) (data : string) : M unit :=
  t ← get_fs;
  let q := realpath t p in
  match entry t q with
  | Some (File m _) => put_fs (<[q := File m data]> t)
  | Some (Dir _) => raise IsADirectoryError
  | Some (Link _) => raise OSError
  | None =>
      match stat t (parent q) with
      | Some (Dir _) => put_fs (<[q := File new_file_mode data]> t)
      | Some _ => raise NotADirectoryError
      | None => raise FileNotFoundError
      end
  end.

(** [os.unlink(p)] *)
Definition os_unlink (p : path) : M unit :=
  t ← get_fs;
  match entry t p with
  | None => raise FileNotFoundError
  | Some (Dir _) => raise IsADirectoryError
  | Some _ => put_fs (delete p t)
  end.

(** [os.rename(src, dst)] *)
Definition os_rename (src dst : path) : M unit :=
  t ← get_fs;
  if rename_refused E src dst then raise OSError else
  match entry t src with
  | None => raise FileNotFoundError
  | Some n =>
      if bool_decide (src = dst) then mret tt else
      match dst, stat t (parent dst) with
      | [], _ => raise OSError
      | _, None => raise FileNotFoundError
      | _, Some (Dir _) =>
          match n with
          | Dir _ =>
              if bool_decide (src `prefix_of` dst) then raise OSError else
              match entry t dst with
              | None => put_fs (graft (without t src) (subtree t src) src dst)
              | Some (Dir _) =>
                  if has_children t dst then raise OSError
                  else put_fs (graft (without t src) (subtree t src) src dst)
              | Some _ => raise NotADirectoryError
              end
          | _ =>
              match entry t dst with
              | Some (Dir _) => raise IsADirectoryError
              | _ => put_fs (<[dst := n]> (delete src t))
              end
          end
      | _, Some _ => raise NotADirectoryError
      end
  end.

(** [shutil.rmtree(p)]: refuses a symbolic link. *)
Definition shutil_rmtree (p : path) : M unit :=
  t ← get_fs;
  match entry t p with
  | Some (Link _) => raise OSError
  | Some (Dir _) => put_fs (without t p)
  | Some (File _ _) => raise NotADirectoryError
  | None => raise FileNotFoundError
  end.

(** [shutil.copyfile(src, dst)] *)
Definition shutil_copyfile (src dst : path) : M unit :=
  t ← get_fs;
  if shutil_samefile t src dst then raise SameFileError else
  data ← read_bytes src;
  write_bytes dst data.

(** [shutil.copymode(src, dst)], and the mode part of [copystat] *)
Definition shutil_copymode (src dst : path) : M unit :=
  n ← os_stat src;
  Path_chmod dst (S_IMODE (st_mode n)).

(** [shutil.copy(src, dst)] and [shutil.copy2(src, dst)]:
<<
    if os.path.isdir(dst):
        dst = os.path.join(dst, os.path.basename(src))
    copyfile(src, dst)
    copymode(src, dst)            # copystat for copy2
>> *)
Definition shutil_copy (src dst : path) : M path :=
  t ← get_fs;
  let dst := if is_dir t dst then dst // name src else dst in
  shutil_copyfile src dst;;
  shutil_copymode src dst;;
  mret dst.

(** [shutil.copytree(src, dst, symlinks=True)]: [os.makedirs(dst)],
    then every entry below [src] again below [dst]. *)
Definition shutil_copytree (src dst : path) : M unit :=
  Path_mkdir_parents false dst;;
  t ← get_fs;
  put_fs (graft t (subtree t src) src dst).

(** [shutil.move(src, dst)]:
<<
    real_dst = dst
    if os.path.isdir(dst):
        if _samefile(src, dst) and not os.path.islink(src):
            os.rename(src, dst)
            return
        real_dst = os.path.join(dst, _basename(src))
        if os.path.exists(real_dst):
            raise Error("Destination path '%s' already exists" % real_dst)
    try:
        os.rename(src, real_dst)
    except OSError:
        if os.path.islink(src):
            linkto = os.readlink(src)
            os.symlink(linkto, real_dst)
            os.unlink(src)
        elif os.path.isdir(src):
            if _destinsrc(src, dst):
                raise Error("Cannot move a directory '%s' into itself"
                            " '%s'." % (src, dst))
            copytree(src, real_dst, copy_function=copy_function,
                     symlinks=True)
            rmtree(src)
        else:
            copy_function(src, real_dst)
            os.unlink(src)
    return real_dst
>> *)
Definition move_fallback (src dst real_dst : path) : M unit :=
  t ← get_fs;
  match entry t src with
  | Some (Link linkto) =>
      match entry t real_dst with
      | Some _ => raise FileExistsError
      | None => put_fs (<[real_dst := Link linkto]> t);; os_unlink src
      end
  | _ =>
      if is_dir t src then
        if bool_decide (src `prefix_of` dst) then raise ShutilError
        else shutil_copytree src real_dst;; shutil_rmtree src
      else
        _ ← shutil_copy src real_dst;
        os_unlink src
  end.

Definition shutil_move (src dst : path) : M path :=
  t ← get_fs;
  if is_dir t dst && shutil_samefile t src dst && negb (islink t src)
  then os_rename src dst;; mret dst
  else
    let real_dst := if is_dir t dst then dst // name src else dst in
    if is_dir t dst && exists_ t real_dst then raise ShutilError
    else
      try_except (os_rename src real_dst) is_OSError
        (λ _, move_fallback src dst real_dst);;
      mret real_dst.


(** [subprocess.run([str(exe), "--appimage-extract"], cwd=str(cwd),
    check=True, ...)] *)
Definition subprocess_run_extract (exe cwd : path) : M unit :=
  t ← get_fs;
  if negb (is_dir t cwd) then
    raise (if exists_ t cwd then NotADirectoryError else FileNotFoundError)
  else
    match stat t exe with
    | None => raise FileNotFoundError
    | Some (File _ _) =>
        match appimage_extract E t exe cwd with
        | ExecFormatError => raise OSError
        | Exited returncode written =>
            put_fs (write_all cwd written t);;
            if (returncode =? 0)%Z then mret tt
            else raise (CalledProcessError returncode)
        end
    | Some _ => raise PermissionError
    end.

End Calls.

(** ** [Path.glob] *)

(** A pattern component: a literal name, or ["*" + suffix]. *)
Inductive selector : Type :=
| Precise (name : string)
| Wildcard (suffix : string).

(** [fnmatch] of a name against ["*" + suffix] *)
Definition ends_with (suffix s : string) : bool :=
  let n := String.length s in
  let k := String.length suffix in
  (k <=? n)%nat && String.eqb (String.substring (n - k) k s) suffix.

(** pathlib's [_PreciseSelector], [_WildcardSelector] and
    [_TerminatingSelector]; a selector with a successor is [dironly]. *)
Fixpoint select_from (sels : list selector) (t : tree) (parent_path : path)
    : list path :=
  match sels with
  | [] => [parent_path]
  | Precise nm :: successor =>
      let p := parent_path ++ [nm] in
      let dironly := match successor with [] => false | _ => true end in
      if (if dironly then is_dir t p else exists_ t p)
      then select_from successor t p else []
  | Wildcard suffix :: successor =>
      let dironly := match successor with [] => false | _ => true end in
      flat_map (λ nm,
          let p := parent_path ++ [nm] in
          if (negb dironly || is_dir t p) && ends_with suffix nm
          then select_from successor t p else [])
        (scandir t parent_path)
  end.

(** [list(root.glob(pattern))] *)
Definition glob (t : tree) (root : path) (pattern : list selector)
    : list path :=
  if is_dir t root then select_from pattern t root else [].

End Vfs.

(* ===================================================================== *)
(** * The script *)
(* ===================================================================== *)

Module Installer.

Import PyStr PyPath Vfs.

(** ** Lines 73-91: the themed icons and the one taken *)

(** ["usr/share/icons/hicolor/*/apps/*" + ext] *)
Definition themed_pattern (ext : string) : list selector :=
  [Precise "usr"; Precise "share"; Precise "icons"; Precise "hicolor";
   Wildcard ""; Precise "apps"; Wildcard ext].

(** [icon_glob.sort(key=lambda p: str(p))]: a stable sort on the key. *)
Fixpoint insert_by_str (x : path) (l : list path) : list path :=
  match l with
  | [] => [x]
  | y :: r =>
      if String.leb (str x) (str y) then x :: y :: r
      else y :: insert_by_str x r
  end.

Definition sort_by_str (l : list path) : list path :=
  foldr insert_by_str [] l.

(** Lines 67-74. *)
Definition candidate_icons (t : tree) (extracted_root : path) : list path :=
  if exists_ t (extracted_root // ".DirIcon")
  then [extracted_root // ".DirIcon"] else [].

Definition icon_glob (t : tree) (extracted_root : path) : list path :=
  glob t extracted_root (themed_pattern ".png")
  ++ glob t extracted_root (themed_pattern ".svg").

(** Lines 81-91: [icon_path], [None] when it stays unset.
<<
      if candidate_icons:
          potential_icon = candidate_icons[0].resolve()
          if potential_icon.exists():
              icon_path = potential_icon
      elif icon_glob:
          icon_glob.sort(key=lambda p: str(p))
          icon_path = icon_glob[-1]
>> *)
Definition choose_icon (t : tree) (candidate_icons icon_glob : list path)
    : option path :=
  match candidate_icons with
  | c :: _ =>
      let potential_icon := realpath t c in
      if exists_ t potential_icon then Some potential_icon else None
  | [] =>
      match icon_glob with
      | [] => None
      | _ => last (sort_by_str icon_glob)
      end
  end.

(** Lines 64-91 on the extracted tree. *)
Definition discover_icon (t : tree) (extracted_root : path) : option path :=
  choose_icon t (candidate_icons t extracted_root)
                (icon_glob t extracted_root).

(** ** Names and the launcher text *)

Definition fallback_icon : string := "application-x-executable".

(** Line 96: [target_path.stem.lower().replace(" ", "_")] *)
Definition app_name_slug (target_path : path) : string :=
  replace " " "_" (lower (stem target_path)).

(** Line 98: [f"{app_name_slug}_appimage_icon{icon_ext}"] *)
Definition dest_icon_name (target_path icon_path : path) : string :=
  app_name_slug target_path +:+ "_appimage_icon" +:+ suffix icon_path.

(** Line 120: [target_path.stem.replace("_", " ").title()] *)
Definition app_name (target_path : path) : string :=
  title (replace "_" " " (stem target_path)).

Definition nl : string := String (ascii_of_nat 10) EmptyString.

(** Lines 121-128. *)
Definition desktop_entry_content (target_path : path)
    (icon_path_str : string) : string :=
  "[Desktop Entry]" +:+ nl +:+
  "Type=Application" +:+ nl +:+
  "Name=" +:+ app_name target_path +:+ nl +:+
  "Exec=" +:+ str target_path +:+ nl +:+
  "Icon=" +:+ icon_path_str +:+ nl +:+
  "Categories=Utility;" +:+ nl +:+
  "Terminal=false" +:+ nl.

Section Script.

Context (E : Env).

Definition applications_dir : path := home E ++ ["Applications"].
Definition temp_dir : path := applications_dir // ".temp_extraction".
Definition extracted_root : path := temp_dir // "squashfs-root".
Definition user_icons_dir : path := home E ++ [".local"; "share"; "icons"].
Definition user_applications_dir : path :=
  home E ++ [".local"; "share"; "applications"].

(** Line 130 and 134. *)
Definition desktop_file_path (target_path : path) : path :=
  user_applications_dir // (stem target_path +:+ ".desktop").

(** Line 103. *)
Definition final_icon_path (target_path icon_path : path) : path :=
  user_icons_dir // dest_icon_name target_path icon_path.

(** Lines 33-40: false when the script returns at line 40.
<<
    try:
        shutil.move(str(appimage_path), str(target_path))
        print(f"Moved AppImage to {target_path}")
    except shutil.Error as e:
        if not target_path.samefile(appimage_path):
             print(f"Error moving file: {e}")
             return
>> *)
Definition relocate (appimage_path target_path : path) : M bool :=
  try_except
    (_ ← shutil_move E appimage_path target_path;
     print (MsgMoved target_path);;
     mret true)
    is_shutil_Error
    (λ e,
       same ← Path_samefile target_path appimage_path;
       if negb same then print (MsgErrorMoving e);; mret false
       else mret true).

(** Lines 43-44. *)
Definition make_executable (target_path : path) : M unit :=
  n ← os_stat target_path;
  Path_chmod target_path (Z.lor (st_mode n) 73);;     (* | 0o111 *)
  print MsgMadeExecutable.

(** Lines 93-109: [icon_path_str]. *)
Definition install_icon (target_path : path) (icon_path : option path)
    : M string :=
  match icon_path with
  | Some icon_path =>
      Path_mkdir_parents E true user_icons_dir;;
      _ ← shutil_copy E icon_path (final_icon_path target_path icon_path);
      print (MsgIconInstalled (final_icon_path target_path icon_path));;
      mret (str (final_icon_path target_path icon_path))
  | None =>
      print MsgNoIcon;;
      mret fallback_icon
  end.

(** Lines 53-109: the body of the [try]. *)
Definition icon_body (target_path : path) : M string :=
  print MsgExtracting;;
  subprocess_run_extract E target_path temp_dir;;
  t ← get_fs;
  install_icon target_path (discover_icon t extracted_root).

(** Lines 111-113: the [except Exception] clause. *)
Definition icon_handler (e : exn) : M string :=
  print (MsgErrorExtracting e);;
  mret fallback_icon.

(** Lines 114-117: the [finally] clause. *)
Definition cleanup : M unit :=
  t ← get_fs;
  if exists_ t temp_dir then shutil_rmtree temp_dir else mret tt.

(** Lines 51-117: the [try] statement. *)
Definition icon_stage (target_path : path) : M string :=
  try_finally
    (try_except (icon_body target_path) any_Exception icon_handler)
    cleanup.

(** Lines 46-117. *)
Definition extract_icon (target_path : path) : M string :=
  Path_mkdir E true temp_dir;;
  icon_stage target_path.

(** Lines 119-143. *)
Definition create_desktop_entry (target_path : path)
    (icon_path_str : string) : M unit :=
  Path_mkdir_parents E true user_applications_dir;;
  write_bytes E (desktop_file_path target_path)
              (desktop_entry_content target_path icon_path_str);;
  n ← os_stat (desktop_file_path target_path);
  Path_chmod (desktop_file_path target_path) (Z.lor (st_mode n) 73);;
  print (MsgDesktopCreated (desktop_file_path target_path));;
  print MsgComplete.

(** Lines 42-143: what follows the relocation. *)
Definition finish (target_path : path) : M unit :=
  make_executable target_path;;
  icon_path_str ← extract_icon target_path;
  create_desktop_entry target_path icon_path_str.

(** Lines 15-27: [appimage_path] and [target_path], [None] when the
    script returns at line 18.  [arg] is the absolute path the script
    is given. *)
Definition prepare (arg : path) : M (option (path * path)) :=
  t ← get_fs;
  let appimage_path := realpath t arg in
  if negb (exists_ t appimage_path) then
    print (MsgFileNotFound appimage_path);;
    mret None
  else
    Path_mkdir_parents E true applications_dir;;
    let target_path := applications_dir // name appimage_path in
    t ← get_fs;
    (if exists_ t target_path then print (MsgOverwriting target_path)
     else mret tt);;
    mret (Some (appimage_path, target_path)).

(** Lines 10-143. *)
Definition install_appimage (arg : path) : M unit :=
  r ← prepare arg;
  match r with
  | None => mret tt
  | Some (appimage_path, target_path) =>
      moved ← relocate appimage_path target_path;
      if negb moved then mret tt
      else finish target_path
  end.

End Script.

End Installer.


(* ===================================================================== *)
(** * What the properties are stated with *)
(* ===================================================================== *)

Import PyStr PyPath Vfs Installer.

(** [str(p) <= str(q)] *)
Definition str_le (p q : path) : Prop := String.leb (str p) (str q) = true.

(** A list in ascending order of [str]: each element is below all the
    later ones. *)
Fixpoint ascending (l : list path) : Prop :=
  match l with
  | [] => True
  | x :: r => Forall (str_le x) r ∧ ascending r
  end.

(** The entry is a symbolic link. *)
Definition is_link (o : option node) : Prop :=
  match o with Some (Link _) => True | _ => False end.

(** [t] and [t'] have the same symbolic links. *)
Definition same_links (t t' : tree) : Prop :=
  ∀ p q, entry t p = Some (Link q) ↔ entry t' p = Some (Link q).

(** [c] keeps [P]: whatever its outcome, it leaves a file system with [P]
    when it starts from one. *)
Definition keeps {A : Type} (P : tree → Prop) (c : M A) : Prop :=
  ∀ w r w', P (fs w) → c w = (r, w') → P (fs w').

(** There is a directory at [d] itself, not a link to one. *)
Definition dir_at (d : path) (t : tree) : Prop := ∃ m, t !! d = Some (Dir m).

(** At and below [d] there is nothing, or at most a file at [d]. *)
Definition scratch_gone (d : path) (t : tree) : Prop :=
  ∀ p, d `prefix_of` p →
       t !! p = None ∨ (p = d ∧ ∃ m data, t !! p = Some (File m data)).

(** Lines 10-49: the run up to the [try] statement; [target_path] when the
    run gets there, [None] when the script has returned before. *)
Definition reach_icon_stage (E : Env) (arg : path) : M (option path) :=
  r ← prepare E arg;
  match r with
  | None => mret None
  | Some (appimage_path, target_path) =>
      moved ← relocate E appimage_path target_path;
      if negb moved then mret None
      else
        make_executable target_path;;
        Path_mkdir E true (temp_dir E);;
        mret (Some target_path)
  end.

(** ** What the further properties are stated with *)

(** [t'] is [t] with directories made at some paths at or above [p] where
    there was nothing. *)
Definition dirs_made (E : Env) (p : path) (t t' : tree) : Prop :=
  ∀ q, t' !! q = t !! q
       ∨ (q `prefix_of` p ∧ t !! q = None
          ∧ t' !! q = Some (Dir (new_dir_mode E))).

(** [c] raises no [shutil.Error]. *)
Definition quiet {A : Type} (c : M A) : Prop :=
  ∀ w e w', c w = (Raise e, w') → is_shutil_Error e = false.

(** [c] prints nothing. *)
Definition silent {A : Type} (c : M A) : Prop :=
  ∀ w r w', c w = (r, w') → out w' = out w.

(** Entries of the same kind: two files, two directories, or two links
    to the same path. *)
Definition same_kind (n n' : node) : Prop :=
  match n, n' with
  | File _ _, File _ _ => True
  | Dir _, Dir _ => True
  | Link q, Link q' => q = q'
  | _, _ => False
  end.

(** Apart from the paths in [X], every entry of [t] is still there in
    [t'], and of the same kind. *)
Definition kept (X : path → Prop) (t t' : tree) : Prop :=
  ∀ p n, ¬ X p → entry t p = Some n →
         ∃ n', entry t' p = Some n' ∧ same_kind n n'.

(** [c] removes and replaces nothing apart from the paths in [X]. *)
Definition spares {A : Type} (X : path → Prop) (c : M A) : Prop :=
  ∀ w r w', c w = (r, w') → kept X (fs w) (fs w').

(** There is no symbolic link in [t]. *)
Definition no_links (t : tree) : Prop := ∀ p, ¬ is_link (entry t p).

Definition no_linksb (t : tree) : bool :=
  forallb (λ kv : path * node,
             match kv.2 with Link _ => false | _ => true end)
          (map_to_list t).

(** A directory can be made at [p]: at [p] and above there are directories
    or nothing. *)
Definition makeable (t : tree) (p : path) : Prop :=
  ∀ q, q `prefix_of` p → entry t q = None ∨ ∃ m, entry t q = Some (Dir m).

(** The paths at or above [p], the root first. *)
Definition prefixes (p : path) : list path :=
  map (λ n, take n p) (seq 0 (S (length p))).

Definition makeableb (t : tree) (p : path) : bool :=
  forallb (λ q, match entry t q with
                | None | Some (Dir _) => true
                | _ => false
                end)
          (prefixes p).

(** A file can be written at [p]: there is a file or nothing. *)
Definition writable (t : tree) (p : path) : Prop :=
  entry t p = None ∨ ∃ m d, entry t p = Some (File m d).

(** The symbolic links of [t] are at or below [d]. *)
Definition links_below (d : path) (t : tree) : Prop :=
  ∀ p, is_link (entry t p) → d `prefix_of` p.

(** Apart from the paths in [W], [t'] is [t] with directories made at
    paths in [D] where there was nothing. *)
Definition grown (W D : path → Prop) (t t' : tree) : Prop :=
  ∀ p, ¬ W p →
       entry t' p = entry t p
       ∨ (D p ∧ entry t p = None ∧ ∃ m, entry t' p = Some (Dir m)).

(** What the icon stage may write: the scratch directory and what is
    below it, and what is below [~/.local/share/icons]. *)
Definition icon_stage_writes (E : Env) (p : path) : Prop :=
  temp_dir E `prefix_of` p ∨ ∃ c k, p = user_icons_dir E ++ c :: k.

(** Where the icon stage may make directories. *)
Definition icon_stage_dirs (E : Env) (p : path) : Prop :=
  p `prefix_of` user_icons_dir E.

(** What holds through the body of the [try] that starts from [t0]. *)
Definition icon_stage_inv (E : Env) (t0 t : tree) : Prop :=
  links_below (temp_dir E) t
  ∧ grown (icon_stage_writes E) (icon_stage_dirs E) t0 t.

(** ** A sample home and a sample package *)

Module Sample.

Definition home_dir : path := ["home"; "user"].

(** The package of the example of the specification, with the bytes of
    its two icons. *)
Definition hicolor : path :=
  ["squashfs-root"; "usr"; "share"; "icons"; "hicolor"].

Definition package_tree (png512 png128 : string) : list (path * node) :=
  [ (["squashfs-root"], Dir 493);
    (["squashfs-root"; "usr"], Dir 493);
    (["squashfs-root"; "usr"; "share"], Dir 493);
    (["squashfs-root"; "usr"; "share"; "icons"], Dir 493);
    (hicolor, Dir 493);
    (hicolor ++ ["512x512"], Dir 493);
    (hicolor ++ ["512x512"; "apps"], Dir 493);
    (hicolor ++ ["512x512"; "apps"; "myapp.png"], File 420 png512);
    (hicolor ++ ["128x128"], Dir 493);
    (hicolor ++ ["128x128"; "apps"], Dir 493);
    (hicolor ++ ["128x128"; "apps"; "myapp.png"], File 420 png128) ].

(** An environment whose packages extract to [written] and exit with
    [returncode]. *)
Definition env (refused : bool) (returncode : Z)
    (written : list (path * node)) : Env :=
  {| home := home_dir;
     umask := 18;                                       (* 0o022 *)
     rename_refused := λ _ _, refused;
     appimage_extract := λ _ _ _, Exited returncode written |}.

Definition downloads : path := home_dir ++ ["Downloads"].
Definition package : path := downloads ++ ["MyApp-1.2.3.AppImage"].
Definition installed : path :=
  home_dir ++ ["Applications"; "MyApp-1.2.3.AppImage"].

(** A home with the package in [~/Downloads]. *)
Definition fresh_home (pkg : string) : tree :=
  list_to_map [ (["home"], Dir 493);
                (home_dir, Dir 493);
                (downloads, Dir 493);
                (package, File 420 pkg) ].

(** A home with the package already in [~/Applications]. *)
Definition docked_home (pkg : string) : tree :=
  list_to_map [ (["home"], Dir 493);
                (home_dir, Dir 493);
                (home_dir ++ ["Applications"], Dir 493);
                (installed, File 420 pkg) ].

(** The extracted tree of the package under [/r]. *)
Definition extracted (png512 png128 : string) : tree :=
  write_all ["r"] (package_tree png512 png128) {[ ["r"] := Dir 493 ]}.

(** The same with a [.DirIcon] that points nowhere. *)
Definition extracted_dangling (png512 png128 : string) : tree :=
  <[ ["r"; "squashfs-root"; ".DirIcon"] := Link ["r"; "squashfs-root"; "myapp.png"] ]>
    (extracted png512 png128).

(** The environments and the states of the examples. *)
Definition icons : list (path * node) := package_tree "PNG512" "PNG128".
Definition working : Env := env false 0 icons.
Definition failing : Env := env false 1 icons.
Definition refusing : Env := env true 0 icons.
Definition fresh : world := World (fresh_home "ELF") [].
Definition docked : world := World (docked_home "ELF") [].

(** A home whose scratch path [~/Applications/.temp_extraction] is a
    symbolic link to the directory [~/Downloads]. *)
Definition linked_home (pkg : string) : tree :=
  <[ home_dir ++ ["Applications"; ".temp_extraction"] := Link downloads ]>
    (<[ home_dir ++ ["Applications"] := Dir 493 ]> (fresh_home pkg)).
Definition linked : world := World (linked_home "ELF") [].

(** A home with a file [tool.desktop] among the launchers. *)
Definition launchers : path := home_dir ++ [".local"; "share"; "applications"].
Definition stray : path := launchers ++ ["tool.desktop"].
Definition strayed : world :=
  World (list_to_map [ (["home"], Dir 493);
                       (home_dir, Dir 493);
                       (home_dir ++ [".local"], Dir 493);
                       (home_dir ++ [".local"; "share"], Dir 493);
                       (launchers, Dir 493);
                       (stray, File 420 "TEXT") ]) [].

(** The extracted tree with a [.DirIcon] that points to the small icon. *)
Definition small_icon : path :=
  ["r"] ++ hicolor ++ ["128x128"; "apps"; "myapp.png"].
Definition large_icon : path :=
  ["r"] ++ hicolor ++ ["512x512"; "apps"; "myapp.png"].
Definition extracted_default (png512 png128 : string) : tree :=
  <[ ["r"; "squashfs-root"; ".DirIcon"] := Link small_icon ]>
    (extracted png512 png128).
Definition unpacked : world := World (extracted "PNG512" "PNG128") [].

(** A home with the package docked and the scratch directory there. *)
Definition staged : world :=
  World (<[ home_dir ++ ["Applications"; ".temp_extraction"] := Dir 493 ]>
           (docked_home "ELF")) [].

(** A home where [~/Applications] is a file. *)
Definition blocked : world :=
  World (<[ home_dir ++ ["Applications"] := File 420 "TEXT" ]>
           (fresh_home "ELF")) [].

(** A home where the scratch path is a file. *)
Definition occupied : world :=
  World (<[ home_dir ++ ["Applications"; ".temp_extraction"]
            := File 420 "TEXT" ]>
           (<[ home_dir ++ ["Applications"] := Dir 493 ]>
              (fresh_home "ELF"))) [].

(** A home with a directory [~/Downloads/MyApp.AppDir], and a directory
    of that name in [~/Applications] that has one of that name in it. *)
Definition appdir : path := downloads ++ ["MyApp.AppDir"].
Definition docked_appdir : path :=
  home_dir ++ ["Applications"; "MyApp.AppDir"].
Definition clashing : world :=
  World (list_to_map [ (["home"], Dir 493);
                       (home_dir, Dir 493);
                       (downloads, Dir 493);
                       (appdir, Dir 493);
                       (home_dir ++ ["Applications"], Dir 493);
                       (docked_appdir, Dir 493);
                       (docked_appdir ++ ["MyApp.AppDir"], Dir 493) ]) [].

(** A home where the destination of the package is a directory. *)
Definition foldered : world :=
  World (<[ installed := Dir 493 ]>
           (<[ home_dir ++ ["Applications"] := Dir 493 ]>
              (fresh_home "ELF"))) [].

(** A home with a package that is a directory, in [~/Downloads]. *)
Definition bundled : world :=
  World (list_to_map [ (["home"], Dir 493);
                       (home_dir, Dir 493);
                       (downloads, Dir 493);
                       (appdir, Dir 493);
                       (appdir ++ ["AppRun"], File 493 "ELF") ]) [].

End Sample.

(** The run of the example of the specification: the package
    [MyApp-1.2.3.AppImage] of [~/Downloads], whose extraction gives the two
    themed icons. *)
Definition example_run (pkg png512 png128 : string) : result unit * world :=
  install_appimage (Sample.env false 0 (Sample.package_tree png512 png128))
    Sample.package (World (Sample.fresh_home pkg) []).

Definition example_icons_dir : path :=
  user_icons_dir (Sample.env false 0 []).

Definition example_desktop_file : path :=
  desktop_file_path (Sample.env false 0 []) Sample.installed.


(* ===================================================================== *)
(** * Lemmas *)
(* ===================================================================== *)

(** ** The string methods on examples *)

Example stem_example : PyStr.stem_of "MyApp-1.2.3.AppImage" = "MyApp-1.2.3".
Proof. reflexivity. Qed.

Example suffix_example : PyStr.suffix_of "MyApp-1.2.3.AppImage" = ".AppImage".
Proof. reflexivity. Qed.

Example suffix_hidden : PyStr.suffix_of ".DirIcon" = "".
Proof. reflexivity. Qed.

Example title_example : PyStr.title "my_app v2" = "My_App V2".
Proof. reflexivity. Qed.

Example str_example :
  PyPath.str ["home"; "u"; "x.png"] = "/home/u/x.png".
Proof. reflexivity. Qed.

(** ** The order on [str(path)] and the sort *)

Section StrOrder.

Lemma leb_refl (s : string) : String.leb s s = true.
Proof.
  unfold String.leb.
  destruct (String.compare s s) eqn:Hc; try reflexivity.
  pose proof (String.compare_antisym s s) as Ha.
  rewrite Hc in Ha. discriminate Ha.
Qed.

Lemma leb_cases (a b : string) :
  String.leb a b = true ↔ a = b ∨ OrderedTypeEx.String_as_OT.lt a b.
Proof.
  unfold String.leb. split.
  - destruct (String.compare a b) eqn:Hc; intros H; try discriminate H.
    + left. by apply String.compare_eq_iff.
    + right. by apply OrderedTypeEx.String_as_OT.cmp_lt.
  - intros [-> | Hlt].
    + apply leb_refl.
    + apply OrderedTypeEx.String_as_OT.cmp_lt in Hlt.
      unfold OrderedTypeEx.String_as_OT.cmp in Hlt. by rewrite Hlt.
Qed.

Lemma leb_trans (a b c : string) :
  String.leb a b = true → String.leb b c = true → String.leb a c = true.
Proof.
  rewrite !leb_cases. intros [-> | Hab] [-> | Hbc]; auto.
  right. eapply OrderedTypeEx.String_as_OT.lt_trans; eauto.
Qed.

Lemma str_le_refl p : str_le p p.
Proof. apply leb_refl. Qed.

Lemma str_le_trans p q r : str_le p q → str_le q r → str_le p r.
Proof. apply leb_trans. Qed.

Lemma str_le_total p q : str_le p q ∨ str_le q p.
Proof. apply String.leb_total. Qed.

Lemma str_le_false p q : String.leb (str p) (str q) = false → str_le q p.
Proof.
  intros H. destruct (str_le_total p q) as [H' | H']; [|done].
  unfold str_le in H'. congruence.
Qed.

Lemma elem_of_insert_by_str x q l :
  q ∈ insert_by_str x l ↔ q = x ∨ q ∈ l.
Proof.
  induction l as [|y r IH]; simpl.
  - rewrite list_elem_of_singleton. split; [tauto|].
    intros [H|H]; [done|]. by apply elem_of_nil in H.
  - destruct (String.leb (str x) (str y)).
    + rewrite elem_of_cons. tauto.
    + rewrite !elem_of_cons, IH. tauto.
Qed.

Lemma elem_of_sort_by_str q l : q ∈ sort_by_str l ↔ q ∈ l.
Proof.
  induction l as [|y r IH]; simpl; [done|].
  rewrite elem_of_insert_by_str, elem_of_cons, IH. tauto.
Qed.

Lemma insert_by_str_ascending x l :
  ascending l → ascending (insert_by_str x l).
Proof.
  induction l as [|y r IH]; simpl; intros Hl.
  - split; [constructor | done].
  - destruct Hl as [Hy Hr].
    destruct (String.leb (str x) (str y)) eqn:Hxy; simpl.
    + split; [|done]. constructor; [done|].
      eapply Forall_impl; [exact Hy|]. intros z Hz.
      by apply (str_le_trans x y z).
    + split; [|by apply IH].
      apply Forall_forall. intros z Hz.
      apply elem_of_insert_by_str in Hz as [->|Hz].
      * by apply str_le_false.
      * rewrite Forall_forall in Hy. by apply Hy.
Qed.

Lemma sort_by_str_ascending l : ascending (sort_by_str l).
Proof.
  induction l as [|y r IH]; simpl; [done|].
  by apply insert_by_str_ascending.
Qed.

(** The last element of an ascending list is above every element. *)
Lemma ascending_last l p :
  ascending l → last l = Some p → ∀ q, q ∈ l → str_le q p.
Proof.
  induction l as [|x r IH]; simpl; intros Hl Hp q Hq; [by inversion Hq|].
  destruct Hl as [Hx Hr].
  destruct r as [|y r'].
  - simpl in Hp. injection Hp as Hp. subst p.
    apply list_elem_of_singleton in Hq as ->. apply str_le_refl.
  - change (last (x :: y :: r')) with (last (y :: r')) in Hp.
    apply elem_of_cons in Hq as [->|Hq].
    + rewrite Forall_forall in Hx. apply Hx.
      eapply last_Some_elem_of. exact Hp.
    + by apply IH.
Qed.

Lemma sort_by_str_last l :
  l ≠ [] →
  ∃ p, last (sort_by_str l) = Some p ∧ p ∈ l ∧ ∀ q, q ∈ l → str_le q p.
Proof.
  intros Hne.
  destruct (last (sort_by_str l)) as [p|] eqn:Hp.
  - exists p. split; [done|]. split.
    + apply elem_of_sort_by_str. eapply last_Some_elem_of. exact Hp.
    + intros q Hq. eapply ascending_last; [apply sort_by_str_ascending|done|].
      by apply elem_of_sort_by_str.
  - apply last_None in Hp.
    destruct l as [|x r]; [done|].
    assert (x ∈ sort_by_str (x :: r)) as Hx
      by (apply elem_of_sort_by_str; left).
    rewrite Hp in Hx. by inversion Hx.
Qed.

End StrOrder.

(** ** Links *)

Section Links.

(** Nothing is followed from an entry that is not a link. *)
Lemma chase_stop fuel t p : ¬ is_link (entry t p) → chase fuel t p = p.
Proof.
  destruct fuel as [|fuel]; simpl; [done|].
  destruct (entry t p) as [[| |q]|]; simpl; tauto.
Qed.

Lemma stat_nonlink t p : ¬ is_link (entry t p) → stat t p = entry t p.
Proof.
  intros H. unfold stat, realpath. rewrite (chase_stop _ _ _ H).
  destruct (entry t p) as [[| |q]|]; simpl in *; tauto.
Qed.

Lemma stat_Some_entry t p n :
  stat t p = Some n → entry t (realpath t p) = Some n ∧ ¬ is_link (Some n).
Proof.
  unfold stat. destruct (entry t (realpath t p)) as [[| |q]|];
    intros H; inversion H; subst; simpl; tauto.
Qed.

Lemma realpath_idem t p n :
  stat t p = Some n → realpath t (realpath t p) = realpath t p.
Proof.
  intros [He Hn]%stat_Some_entry. apply chase_stop. by rewrite He.
Qed.

(** What [stat] finds is what [stat] finds at the resolved path. *)
Lemma stat_realpath t p n : stat t p = Some n → stat t (realpath t p) = Some n.
Proof.
  intros H. pose proof (stat_Some_entry _ _ _ H) as [He Hn].
  rewrite stat_nonlink; rewrite He; done.
Qed.

(** A path that exists resolves to a path that exists: the test of line
    84 cannot fail after the test of line 68 has passed. *)
Lemma exists_realpath t p :
  exists_ t p = true → exists_ t (realpath t p) = true.
Proof.
  unfold exists_. destruct (stat t p) as [n|] eqn:H; [|done].
  by rewrite (stat_realpath _ _ _ H).
Qed.

End Links.

(** ** Running the script step by step *)

Ltac munfold :=
  unfold mbind, M_bind, mret, M_ret, raise, get_fs, put_fs, print,
    try_except, try_finally in *.

(** One case analysis on what the computation in [H] looks at next. *)
Ltac case_step H :=
  match type of H with
  | context [match ?x with _ => _ end] => destruct x eqn:?
  | context [if ?x then _ else _] => destruct x eqn:?
  end; simpl in H; try congruence.

Section Steps.

Context (E : Env).

(** A run that gets past line 27 is the relocation and what follows. *)
Lemma install_after_prepare arg w src dst w0 :
  prepare E arg w = (Ok (Some (src, dst)), w0) →
  install_appimage E arg w
  = match relocate E src dst w0 with
    | (Ok true, w1) => finish E dst w1
    | (Ok false, w1) => (Ok tt, w1)
    | (Raise e, w1) => (Raise e, w1)
    end.
Proof.
  intros H. unfold install_appimage. unfold mbind at 1, M_bind at 1.
  rewrite H. unfold mbind at 1, M_bind at 1.
  destruct (relocate E src dst w0) as [[[|]|e] w1]; reflexivity.
Qed.

(** The relocation when [shutil.move] raises a [shutil.Error]. *)
Lemma relocate_shutil_Error src dst w0 e w1 :
  shutil_move E src dst w0 = (Raise e, w1) →
  is_shutil_Error e = true →
  relocate E src dst w0
  = match Path_samefile dst src w1 with
    | (Ok true, w2) => (Ok true, w2)
    | (Ok false, w2) =>
        (Ok false, World (fs w2) (out w2 ++ [MsgErrorMoving e]))
    | (Raise e', w2) => (Raise e', w2)
    end.
Proof.
  intros Hmove He. unfold relocate, try_except.
  unfold mbind at 1, M_bind at 1. rewrite Hmove, He.
  unfold mbind at 1, M_bind at 1.
  destruct (Path_samefile dst src w1) as [[[|]|e'] w2]; reflexivity.
Qed.

Lemma os_stat_missing p w :
  exists_ (fs w) p = false →
  ∃ e', os_stat p w = (Raise e', w) ∧ (e' = FileNotFoundError ∨ e' = OSError).
Proof.
  unfold exists_, os_stat. munfold.
  destruct (stat (fs w) p); [done|]. intros _.
  destruct (islink (fs w) (realpath (fs w) p)); eauto.
Qed.

Lemma os_stat_found p w n :
  stat (fs w) p = Some n → os_stat p w = (Ok n, w).
Proof. intros H. unfold os_stat. munfold. by rewrite H. Qed.

Lemma exists_stat t p : exists_ t p = true → ∃ n, stat t p = Some n.
Proof. unfold exists_. destruct (stat t p); [eauto|done]. Qed.

Lemma Path_samefile_same p q w :
  shutil_samefile (fs w) p q = true → Path_samefile p q w = (Ok true, w).
Proof.
  unfold shutil_samefile. intros [[Hp Hq]%andb_prop Hs]%andb_prop.
  apply exists_stat in Hp as [n Hp]. apply exists_stat in Hq as [n' Hq].
  unfold Path_samefile.
  unfold mbind at 1, M_bind at 1. rewrite (os_stat_found _ _ _ Hp).
  unfold mbind at 1, M_bind at 1. rewrite (os_stat_found _ _ _ Hq).
  munfold. by rewrite Hs.
Qed.

(** What a run that gets past line 27 has done. *)
Lemma prepare_Some arg w src dst w0 :
  prepare E arg w = (Ok (Some (src, dst)), w0) →
  src = realpath (fs w) arg
  ∧ dst = applications_dir E // name src
  ∧ exists_ (fs w) src = true
  ∧ ∃ wa, Path_mkdir_parents E true (applications_dir E) w = (Ok tt, wa)
          ∧ fs w0 = fs wa.
Proof.
  unfold prepare. munfold. cbn [fs out].
  destruct (exists_ (fs w) (realpath (fs w) arg)) eqn:Hex; cbn [negb];
    [|discriminate].
  destruct (Path_mkdir_parents E true (applications_dir E) w)
    as [[[]|e] wa]; [|discriminate].
  destruct (exists_ (fs wa) _); intros H; injection H as <- <- <-;
    eauto 10.
Qed.

End Steps.

(** ** Trees that have the same links *)

Section SameLinks.

Lemma same_links_refl t : same_links t t.
Proof. by intros p q. Qed.

Lemma same_links_trans t1 t2 t3 :
  same_links t1 t2 → same_links t2 t3 → same_links t1 t3.
Proof. intros H12 H23 p q. by rewrite (H12 p q). Qed.

Lemma same_links_chase fuel t t' p :
  same_links t t' → chase fuel t p = chase fuel t' p.
Proof.
  intros H. revert p. induction fuel as [|fuel IH]; intros p; simpl; [done|].
  destruct (entry t p) as [[m d|m|q]|] eqn:Ht.
  4: destruct (entry t' p) as [[m' d'|m'|q']|] eqn:Ht'; try done;
     apply H in Ht'; congruence.
  3: { apply H in Ht. rewrite Ht. apply IH. }
  all: destruct (entry t' p) as [[m' d'|m'|q']|] eqn:Ht'; try done;
    apply H in Ht'; congruence.
Qed.

Lemma same_links_realpath t t' p :
  same_links t t' → realpath t p = realpath t' p.
Proof. apply same_links_chase. Qed.

Lemma entry_insert t k v p :
  entry (<[k := v]> t) p
  = if bool_decide (k = p ∧ p ≠ []) then Some v else entry t p.
Proof.
  destruct p as [|c p]; simpl.
  - rewrite bool_decide_eq_false_2; [done|]. by intros [_ ?].
  - case_bool_decide as Hk.
    + destruct Hk as [-> _]. apply lookup_insert_eq.
    + apply lookup_insert_ne. naive_solver.
Qed.

Lemma entry_delete t k p :
  entry (delete k t) p
  = if bool_decide (k = p ∧ p ≠ []) then None else entry t p.
Proof.
  destruct p as [|c p]; simpl.
  - rewrite bool_decide_eq_false_2; [done|]. by intros [_ ?].
  - case_bool_decide as Hk.
    + destruct Hk as [-> _]. apply lookup_delete_eq.
    + apply lookup_delete_ne. naive_solver.
Qed.

(** Putting something that is not a link where no link was changes no
    link. *)
Lemma same_links_insert t k v :
  ¬ is_link (entry t k) → ¬ is_link (Some v) → same_links t (<[k := v]> t).
Proof.
  intros Hk Hv p q. rewrite entry_insert. case_bool_decide as Hp; [|done].
  destruct Hp as [-> _]. split; intros H.
  - rewrite H in Hk. by destruct Hk.
  - injection H as ->. by destruct Hv.
Qed.

Lemma same_links_delete t k :
  ¬ is_link (entry t k) → same_links t (delete k t).
Proof.
  intros Hk p q. rewrite entry_delete. case_bool_decide as Hp; [|done].
  destruct Hp as [-> _]. split; intros H; [|done].
  rewrite H in Hk. by destruct Hk.
Qed.

(** [stat] after an entry that is not a link has been put where the links
    of [p] lead, or elsewhere where there was no link. *)
Lemma stat_insert t k v p :
  ¬ is_link (entry t k) → ¬ is_link (Some v) →
  stat (<[k := v]> t) p
  = if bool_decide (k = realpath t p ∧ k ≠ []) then Some v else stat t p.
Proof.
  intros Hk Hv. unfold stat.
  rewrite <- (same_links_realpath t _ p (same_links_insert t k v Hk Hv)).
  rewrite entry_insert. case_bool_decide as H1.
  - destruct H1 as [<- Hn]. rewrite bool_decide_eq_true_2 by done.
    destruct v; simpl in *; tauto.
  - rewrite bool_decide_eq_false_2; [done|]. intros [-> Hn]. tauto.
Qed.

Lemma stat_delete t k p :
  ¬ is_link (entry t k) →
  stat (delete k t) p
  = if bool_decide (k = realpath t p ∧ k ≠ []) then None else stat t p.
Proof.
  intros Hk. unfold stat.
  rewrite <- (same_links_realpath t _ p (same_links_delete t k Hk)).
  rewrite entry_delete. case_bool_decide as H1.
  - destruct H1 as [<- Hn]. by rewrite bool_decide_eq_true_2.
  - rewrite bool_decide_eq_false_2; [done|]. intros [-> Hn]. tauto.
Qed.

End SameLinks.

(** ** The relocation of a file *)

Section Relocation.

Context (E : Env).

Lemma os_rename_raise src dst w e w' :
  os_rename E src dst w = (Raise e, w') → w' = w.
Proof.
  unfold os_rename. munfold. intros H.
  repeat (match type of H with
          | context [match ?x with _ => _ end] => destruct x eqn:?
          | context [if ?x then _ else _] => destruct x eqn:?
          end; simpl in H; try congruence).
Qed.

Lemma os_rename_file src dst w m d w' :
  entry (fs w) src = Some (File m d) →
  src ≠ dst →
  os_rename E src dst w = (Ok tt, w') →
  w' = World (<[dst := File m d]> (delete src (fs w))) (out w) ∧ dst ≠ [].
Proof.
  intros Hsrc Hne. unfold os_rename. munfold. rewrite Hsrc.
  rewrite bool_decide_eq_false_2 by done. intros H.
  repeat (match type of H with
          | context [match ?x with _ => _ end] => destruct x eqn:?
          | context [if ?x then _ else _] => destruct x eqn:?
          end; simpl in H; try congruence).
  all: split; [congruence|done].
Qed.


Lemma S_IMODE_idem m : S_IMODE (S_IMODE m) = S_IMODE m.
Proof. unfold S_IMODE. rewrite <- Z.land_assoc. reflexivity. Qed.

Lemma S_IMODE_lor a b : S_IMODE (Z.lor a b) = Z.lor (S_IMODE a) (S_IMODE b).
Proof. unfold S_IMODE. apply Z.land_lor_distr_l. Qed.

Lemma S_IMODE_file m : S_IMODE (Z.lor S_IFREG m) = S_IMODE m.
Proof. rewrite S_IMODE_lor. reflexivity. Qed.

Lemma S_IMODE_add_exec m d :
  S_IMODE (Z.lor (st_mode (File m d)) 73) = Z.lor (S_IMODE m) 73.
Proof. simpl. rewrite !S_IMODE_lor. reflexivity. Qed.

Lemma Path_chmod_spec p mode w n :
  stat (fs w) p = Some n →
  Path_chmod p mode w
  = (Ok tt, World (<[realpath (fs w) p := set_mode mode n]> (fs w)) (out w)).
Proof.
  intros H. unfold Path_chmod. unfold mbind at 1, M_bind at 1.
  rewrite (os_stat_found _ _ _ H). reflexivity.
Qed.

Lemma make_executable_spec dst w m d :
  stat (fs w) dst = Some (File m d) →
  make_executable dst w
  = (Ok tt, World (<[realpath (fs w) dst := File (Z.lor (S_IMODE m) 73) d]> (fs w))
                  (out w ++ [MsgMadeExecutable])).
Proof.
  intros H. unfold make_executable. unfold mbind at 1, M_bind at 1.
  rewrite (os_stat_found _ _ _ H). unfold mbind at 1, M_bind at 1.
  rewrite (Path_chmod_spec _ _ _ _ H). cbn [set_mode].
  rewrite S_IMODE_add_exec. reflexivity.
Qed.


Lemma file_nonroot t p m d : entry t p = Some (File m d) → p ≠ [].
Proof. destruct p; [simpl; discriminate|done]. Qed.

Lemma stat_file t p m d : entry t p = Some (File m d) → stat t p = Some (File m d).
Proof. intros H. rewrite stat_nonlink; rewrite H; [done | simpl; tauto]. Qed.

Lemma realpath_nonlink t p : ¬ is_link (entry t p) → realpath t p = p.
Proof. apply chase_stop. Qed.

(** [write_bytes] when it succeeds. *)
Lemma write_bytes_Ok p data w w' :
  write_bytes E p data w = (Ok tt, w') →
  ∃ mq, ¬ is_link (entry (fs w) (realpath (fs w) p))
        ∧ realpath (fs w) p ≠ []
        ∧ (∀ m, ¬ entry (fs w) (realpath (fs w) p) = Some (Dir m))
        ∧ w' = World (<[realpath (fs w) p := File mq data]> (fs w)) (out w).
Proof.
  unfold write_bytes. munfold. intros H.
  destruct (entry (fs w) (realpath (fs w) p)) as [[m0 d0|m0|q0]|] eqn:He;
    simpl in H; try congruence.
  - exists m0. split; [simpl; tauto|].
    split; [intros Hr; rewrite Hr in He; simpl in He; congruence|].
    split; [intros m1; congruence|]. congruence.
  - repeat case_step H.
    exists (new_file_mode E). split; [simpl; tauto|].
    split; [intros Hr; rewrite Hr in He; simpl in He; congruence|].
    split; [intros m1; congruence|]. congruence.
Qed.


Lemma bind_eq {A B} (m : M A) (f : A → M B) w :
  (m ≫= f) w = match m w with
               | (Ok a, w') => f a w'
               | (Raise e, w') => (Raise e, w')
               end.
Proof. reflexivity. Qed.

Lemma read_bytes_file p w m d :
  entry (fs w) p = Some (File m d) → read_bytes p w = (Ok d, w).
Proof.
  intros H. unfold read_bytes. rewrite bind_eq.
  by rewrite (os_stat_found _ _ _ (stat_file _ _ _ _ H)).
Qed.

(** [shutil.copy] of a file onto a path that is not a directory. *)
Lemma shutil_copy_file src dst w m d rd w' :
  entry (fs w) src = Some (File m d) →
  is_dir (fs w) dst = false →
  shutil_copy E src dst w = (Ok rd, w') →
  realpath (fs w) dst ≠ src
  ∧ realpath (fs w) dst ≠ []
  ∧ ¬ is_link (entry (fs w) (realpath (fs w) dst))
  ∧ w' = World (<[realpath (fs w) dst := File (S_IMODE m) d]> (fs w)) (out w).
Proof.
  intros Hsrc Hdir H. set (q := realpath (fs w) dst).
  assert (stat (fs w) src = Some (File m d)) as Hstat by by apply stat_file.
  assert (realpath (fs w) src = src) as Hrsrc
    by (apply realpath_nonlink; rewrite Hsrc; simpl; tauto).
  unfold shutil_copy in H. rewrite bind_eq in H. cbn [get_fs] in H.
  rewrite Hdir in H. rewrite bind_eq in H.
  unfold shutil_copyfile in H. rewrite bind_eq in H. cbn [get_fs] in H.
  destruct (shutil_samefile (fs w) src dst) eqn:Hsame; [discriminate H|].
  rewrite bind_eq, (read_bytes_file _ _ _ _ Hsrc) in H.
  destruct (write_bytes E dst d w) as [[[]|e] w1] eqn:Hw; [|discriminate H].
  apply write_bytes_Ok in Hw as (mq & Hnl & Hnr & Hnd & ->).
  fold q in Hnl, Hnr, Hnd, H.
  assert (q ≠ src) as Hq.
  { intros Heq. unfold shutil_samefile, exists_, same_entry in Hsame.
    rewrite Hstat, Hrsrc in Hsame. fold q in Hsame.
    assert (stat (fs w) dst = Some (File m d)) as Hd.
    { unfold stat. fold q. rewrite Heq, Hsrc. done. }
    rewrite Hd in Hsame. rewrite bool_decide_eq_true_2 in Hsame by done.
    discriminate Hsame. }
  split; [done|]. split; [done|]. split; [done|].
  unfold shutil_copymode in H. rewrite !bind_eq in H.
  assert (¬ is_link (Some (File mq d))) as Hfile by (simpl; tauto).
  assert (stat (<[q:=File mq d]> (fs w)) src = Some (File m d)) as Hs1.
  { rewrite (stat_insert _ _ _ _ Hnl Hfile), Hrsrc.
    rewrite bool_decide_eq_false_2; [done|]. by intros [? _]. }
  rewrite (os_stat_found src (World _ _) _ Hs1) in H.
  assert (stat (<[q:=File mq d]> (fs w)) dst = Some (File mq d)) as Hs2.
  { rewrite (stat_insert _ _ _ _ Hnl Hfile). fold q.
    by rewrite bool_decide_eq_true_2. }
  rewrite (Path_chmod_spec dst _ (World _ _) _ Hs2) in H.
  cbn [fs out set_mode mret M_ret] in H.
  rewrite <- (same_links_realpath _ _ dst (same_links_insert _ _ _ Hnl Hfile)) in H.
  fold q in H. rewrite insert_insert_eq in H.
  rewrite S_IMODE_idem in H. change (st_mode (File m d)) with (Z.lor S_IFREG m) in H.
  rewrite S_IMODE_file in H. unfold mret, M_ret in H. congruence.
Qed.


(** [shutil.move] of a file onto another path that is not a directory,
    when it succeeds: the file is behind the destination, with its bytes
    and its permission bits, and gone from where it was. *)
Lemma shutil_move_file src dst w m d rd w1 :
  entry (fs w) src = Some (File m d) →
  src ≠ dst →
  is_dir (fs w) dst = false →
  shutil_move E src dst w = (Ok rd, w1) →
  ∃ m1, stat (fs w1) dst = Some (File m1 d)
        ∧ S_IMODE m1 = S_IMODE m
        ∧ entry (fs w1) src = None
        ∧ realpath (fs w1) dst ≠ src
        ∧ out w1 = out w.
Proof.
  intros Hsrc Hne Hdir H.
  pose proof (file_nonroot _ _ _ _ Hsrc) as Hsrc0.
  unfold shutil_move in H. rewrite bind_eq in H. cbn [get_fs] in H.
  rewrite Hdir in H. cbn [andb] in H. rewrite bind_eq in H.
  unfold try_except in H.
  destruct (os_rename E src dst w) as [[[]|e] w2] eqn:Hren.
  - apply (os_rename_file _ _ _ _ _ _ Hsrc Hne) in Hren as [-> Hd].
    unfold mret, M_ret in H. injection H as _ <-. cbn [fs out].
    assert (entry (<[dst:=File m d]> (delete src (fs w))) dst = Some (File m d))
      as Hdst by (rewrite entry_insert; by rewrite bool_decide_eq_true_2).
    exists m. split; [by apply stat_file|]. split; [done|]. split.
    + rewrite entry_insert, bool_decide_eq_false_2 by (intros [? _]; done).
      rewrite entry_delete. by rewrite bool_decide_eq_true_2.
    + split; [|done]. rewrite realpath_nonlink; [done|].
      rewrite Hdst. simpl. tauto.
  - apply os_rename_raise in Hren as ->.
    destruct (is_OSError e); [|discriminate H].
    unfold move_fallback in H. rewrite bind_eq in H. cbn [get_fs] in H.
    rewrite Hsrc in H.
    assert (is_dir (fs w) src = false) as Hnd
      by (unfold is_dir; by rewrite (stat_file _ _ _ _ Hsrc)).
    rewrite Hnd in H. rewrite bind_eq in H.
    destruct (shutil_copy E src dst w) as [[rd'|e'] w3] eqn:Hcp; [|discriminate H].
    apply (shutil_copy_file _ _ _ _ _ _ _ Hsrc Hdir) in Hcp
      as (Hq & Hq0 & Hnl & ->).
    remember (realpath (fs w) dst) as q eqn:Hqdef.
    assert (¬ is_link (Some (File (S_IMODE m) d))) as Hfile by (simpl; tauto).
    assert (entry (<[q:=File (S_IMODE m) d]> (fs w)) src = Some (File m d)) as Hs1.
    { rewrite entry_insert, bool_decide_eq_false_2; [done|]. intros [? _]. congruence. }
    unfold os_unlink in H. rewrite !bind_eq in H. cbn [get_fs fs out] in H.
    rewrite Hs1 in H. unfold put_fs, mret, M_ret in H. cbn [fs out] in H.
    injection H as _ <-. cbn [fs out].
    assert (¬ is_link (entry (<[q:=File (S_IMODE m) d]> (fs w)) src)) as Hnl1
      by (rewrite Hs1; simpl; tauto).
    assert (realpath (<[q:=File (S_IMODE m) d]> (fs w)) dst = q) as Hr1
      by (rewrite <- (same_links_realpath (fs w) _ dst
                        (same_links_insert _ _ _ Hnl Hfile)); congruence).
    exists (S_IMODE m). split.
    { rewrite (stat_delete _ _ _ Hnl1), Hr1.
      rewrite bool_decide_eq_false_2 by (intros [? _]; congruence).
      rewrite (stat_insert _ _ _ _ Hnl Hfile), <- Hqdef.
      by rewrite bool_decide_eq_true_2. }
    split; [apply S_IMODE_idem|]. split.
    { rewrite entry_delete. by rewrite bool_decide_eq_true_2. }
    split; [|done].
    rewrite <- (same_links_realpath _ _ dst (same_links_delete _ _ Hnl1)).
    by rewrite Hr1.
Qed.

End Relocation.

(** ** What a computation keeps *)

Section Keeps.

Context (P : tree → Prop).

Lemma keeps_ret {A : Type} (a : A) : keeps P (mret a).
Proof. intros w r w' HP H. injection H as _ <-. done. Qed.

Lemma keeps_raise {A : Type} e : keeps P (raise e : M A).
Proof. intros w r w' HP H. injection H as _ <-. done. Qed.

Lemma keeps_print m : keeps P (print m).
Proof. intros w r w' HP H. injection H as _ <-. done. Qed.

Lemma keeps_bind {A B : Type} (c : M A) (f : A → M B) :
  keeps P c → (∀ a, keeps P (f a)) → keeps P (c ≫= f).
Proof.
  intros Hc Hf w r w' HP H. rewrite bind_eq in H.
  destruct (c w) as [[a|e] w1] eqn:Hcw.
  - eapply Hf; [|exact H]. eapply Hc; eauto.
  - injection H as _ <-. eapply Hc; eauto.
Qed.

Lemma keeps_get {A : Type} (f : tree → M A) :
  (∀ t, keeps P (f t)) → keeps P (get_fs ≫= f).
Proof.
  intros Hf w r w' HP H. change (f (fs w) w = (r, w')) in H.
  eapply Hf; eauto.
Qed.

Lemma keeps_try_except {A : Type} (body : M A) handles handler :
  keeps P body → (∀ e, keeps P (handler e)) →
  keeps P (try_except body handles handler).
Proof.
  intros Hb Hh w r w' HP H. unfold try_except in H.
  destruct (body w) as [[a|e] w1] eqn:Hbw.
  - injection H as _ <-. eapply Hb; eauto.
  - destruct (handles e).
    + eapply Hh; [|exact H]. eapply Hb; eauto.
    + injection H as _ <-. eapply Hb; eauto.
Qed.

Lemma keeps_if {A : Type} (b : bool) (c1 c2 : M A) :
  keeps P c1 → keeps P c2 → keeps P (if b then c1 else c2).
Proof. by destruct b. Qed.

(** A computation that only reads keeps everything. *)
Lemma keeps_os_stat p : keeps P (os_stat p).
Proof.
  intros w r w' HP H. unfold os_stat in H. munfold.
  repeat case_step H; injection H as _ <-; done.
Qed.

Lemma keeps_read_bytes p : keeps P (read_bytes p).
Proof.
  unfold read_bytes. apply keeps_bind; [apply keeps_os_stat|].
  intros [| |]; first [apply keeps_ret | apply keeps_raise].
Qed.

End Keeps.

(** ** The scratch directory stays a directory *)

Section DirAt.

Context (E : Env) (d : path) (Hd : d ≠ []).

Lemma dir_at_entry t : (dir_at d) t → ∃ m, entry t d = Some (Dir m).
Proof. intros [m H]. exists m. by destruct d. Qed.

Lemma dir_at_insert_other t k v : k ≠ d → (dir_at d) t → (dir_at d) (<[k := v]> t).
Proof. intros Hk [m H]. exists m. by rewrite lookup_insert_ne. Qed.

Lemma dir_at_is_dir t : (dir_at d) t → is_dir t d = true.
Proof.
  intros [m H]%dir_at_entry. unfold is_dir.
  rewrite stat_nonlink; rewrite H; [done | simpl; tauto].
Qed.

Lemma keeps_os_mkdir p : keeps (dir_at d) (os_mkdir E p).
Proof.
  intros w r w' HP H. unfold os_mkdir in H. munfold.
  destruct (entry (fs w) p) as [n|] eqn:Hp; [injection H as _ <-; done|].
  repeat case_step H; injection H as _ <-; try done. cbn [fs].
  apply dir_at_insert_other; [|done]. intros ->.
  apply dir_at_entry in HP as [m HP]. congruence.
Qed.

Lemma keeps_Path_mkdir exist_ok p : keeps (dir_at d) (Path_mkdir E exist_ok p).
Proof.
  unfold Path_mkdir. apply keeps_try_except; [apply keeps_os_mkdir|].
  intros e. destruct e; try apply keeps_raise;
    (apply keeps_get; intros t; apply keeps_if;
     [apply keeps_raise | apply keeps_ret]).
Qed.

Lemma keeps_Path_mkdir_parents_rev exist_ok rp :
  keeps (dir_at d) (Path_mkdir_parents_rev E exist_ok rp).
Proof.
  revert exist_ok. induction rp as [|c rp IH]; intros exist_ok; simpl;
    (apply keeps_try_except; [apply keeps_os_mkdir|]);
    intros e; destruct e; try apply keeps_raise;
    try (apply keeps_get; intros t; apply keeps_if;
         [apply keeps_raise | apply keeps_ret]).
  apply keeps_bind; [apply IH|]. intros _. apply keeps_Path_mkdir.
Qed.

Lemma keeps_Path_mkdir_parents exist_ok p :
  keeps (dir_at d) (Path_mkdir_parents E exist_ok p).
Proof. apply keeps_Path_mkdir_parents_rev. Qed.

Lemma keeps_write_bytes p data : keeps (dir_at d) (write_bytes E p data).
Proof.
  intros w r w' HP H.
  destruct r as [[]|e].
  - apply write_bytes_Ok in H as (mq & Hnl & Hnr & Hnd & ->). cbn [fs].
    apply dir_at_insert_other; [|done]. intros Hq.
    apply dir_at_entry in HP as [m HP]. rewrite Hq in Hnd. by apply (Hnd m).
  - unfold write_bytes in H. munfold.
    repeat case_step H; injection H as _ <-; done.
Qed.

Lemma keeps_Path_chmod p mode : keeps (dir_at d) (Path_chmod p mode).
Proof.
  intros w r w' HP H. unfold Path_chmod in H. rewrite bind_eq in H.
  destruct (stat (fs w) p) as [n|] eqn:Hs.
  - rewrite (os_stat_found _ _ _ Hs) in H. munfold. injection H as _ <-.
    cbn [fs]. destruct (decide (realpath (fs w) p = d)) as [Hq|Hq].
    + apply dir_at_entry in HP as [m HP].
      apply stat_Some_entry in Hs as [Hs _]. rewrite Hq, HP in Hs.
      injection Hs as <-. exists (S_IMODE mode). rewrite Hq.
      apply lookup_insert_eq.
    + by apply dir_at_insert_other.
  - destruct (os_stat p w) as [[n|e] w1] eqn:Hos.
    + unfold os_stat in Hos. munfold. rewrite Hs in Hos.
      destruct (islink _ _); discriminate Hos.
    + injection H as _ <-. eapply (keeps_os_stat (dir_at d)); eauto.
Qed.

Lemma keeps_shutil_copy src dst : keeps (dir_at d) (shutil_copy E src dst).
Proof.
  unfold shutil_copy. apply keeps_get. intros t.
  apply keeps_bind.
  { unfold shutil_copyfile. apply keeps_get. intros t'. apply keeps_if;
      [apply keeps_raise|].
    apply keeps_bind; [apply keeps_read_bytes|]. intros data.
    apply keeps_write_bytes. }
  intros _. apply keeps_bind; [|intros _; apply keeps_ret].
  unfold shutil_copymode. apply keeps_bind; [apply keeps_os_stat|].
  intros n. apply keeps_Path_chmod.
Qed.

(** What a process writes below [d] by name is not [d]. *)
Lemma write_all_lookup_cwd written t : write_all d written t !! d = t !! d.
Proof.
  unfold write_all. revert t.
  induction written as [|[k v] l IH]; intros t; simpl; [done|].
  rewrite IH. destruct k as [|c k]; [done|].
  apply lookup_insert_ne. intros H.
  apply (f_equal length) in H. rewrite length_app in H. simpl in H. lia.
Qed.

Lemma keeps_subprocess_run_extract exe :
  keeps (dir_at d) (subprocess_run_extract E exe d).
Proof.
  intros w r w' HP H. unfold subprocess_run_extract in H. munfold.
  repeat case_step H; injection H as _ <-; try done.
  all: cbn [fs]; destruct HP as [m HP]; exists m;
    by rewrite write_all_lookup_cwd.
Qed.

End DirAt.

Section IconStage.

Context (E : Env).

Lemma temp_dir_nonroot : temp_dir E ≠ [].
Proof.
  unfold temp_dir, applications_dir. cbn.
  intros H. apply (f_equal length) in H. rewrite !length_app in H.
  simpl in H. lia.
Qed.

Lemma keeps_install_icon target icon :
  keeps (dir_at (temp_dir E)) (install_icon E target icon).
Proof.
  destruct icon as [icon|]; simpl.
  - apply keeps_bind; [apply keeps_Path_mkdir_parents, temp_dir_nonroot|].
    intros _. apply keeps_bind; [apply keeps_shutil_copy, temp_dir_nonroot|].
    intros _. apply keeps_bind; [apply keeps_print|]. intros _. apply keeps_ret.
  - apply keeps_bind; [apply keeps_print|]. intros _. apply keeps_ret.
Qed.

Lemma keeps_icon_body target :
  keeps (dir_at (temp_dir E)) (icon_body E target).
Proof.
  unfold icon_body. apply keeps_bind; [apply keeps_print|]. intros _.
  apply keeps_bind; [apply keeps_subprocess_run_extract|]. intros _.
  apply keeps_get. intros t. apply keeps_install_icon.
Qed.

(** The [try] with its [except Exception] clause never raises. *)
Lemma icon_try_except target w :
  match icon_body E target w with
  | (Ok icon, w1) =>
      try_except (icon_body E target) any_Exception icon_handler w
      = (Ok icon, w1)
  | (Raise e, w1) =>
      try_except (icon_body E target) any_Exception icon_handler w
      = (Ok fallback_icon, World (fs w1) (out w1 ++ [MsgErrorExtracting e]))
  end.
Proof.
  unfold try_except. destruct (icon_body E target w) as [[icon|e] w1]; done.
Qed.

(** The [finally] clause, from a state where the scratch directory is a
    directory. *)
Lemma cleanup_dir w :
  dir_at (temp_dir E) (fs w) →
  cleanup E w = (Ok tt, World (without (fs w) (temp_dir E)) (out w)).
Proof.
  intros HP. apply (dir_at_entry _ temp_dir_nonroot) in HP as [m HP].
  assert (stat (fs w) (temp_dir E) = Some (Dir m)) as Hs
    by (rewrite stat_nonlink; rewrite HP; [done | simpl; tauto]).
  unfold cleanup, exists_, shutil_rmtree. munfold. by rewrite Hs, HP.
Qed.

Lemma without_lookup t d p : d `prefix_of` p → without t d !! p = None.
Proof.
  intros H. unfold without. apply map_lookup_filter_None. right.
  intros n _. simpl. tauto.
Qed.

End IconStage.

(** ** The run, stage by stage *)

Section Stages.

Context (E : Env).

(** The run is lines 10-49, then the [try] statement, then the launcher. *)
Lemma install_appimage_stages arg w :
  install_appimage E arg w
  = match reach_icon_stage E arg w with
    | (Ok (Some target_path), w0) =>
        (icon_path_str ← icon_stage E target_path;
         create_desktop_entry E target_path icon_path_str) w0
    | (Ok None, w0) => (Ok tt, w0)
    | (Raise e, w0) => (Raise e, w0)
    end.
Proof.
  unfold install_appimage, reach_icon_stage. rewrite !bind_eq.
  destruct (prepare E arg w) as [[[[src dst]|]|e] wa]; try reflexivity.
  rewrite !bind_eq.
  destruct (relocate E src dst wa) as [[[|]|e] wb]; try reflexivity.
  cbn [negb]. unfold finish, extract_icon. rewrite !bind_eq.
  destruct (make_executable dst wb) as [[[]|e] wc]; try reflexivity.
  rewrite !bind_eq.
  destruct (Path_mkdir E true (temp_dir E) wc) as [[[]|e] wd]; reflexivity.
Qed.

Lemma Path_mkdir_Ok p w w' :
  Path_mkdir E true p w = (Ok tt, w') → is_dir (fs w') p = true.
Proof.
  unfold Path_mkdir, try_except, os_mkdir. munfold. intros H.
  destruct (entry (fs w) p) as [n|] eqn:Hp.
  - cbn [is_OSError negb orb] in H.
    destruct (is_dir (fs w) p) eqn:Hd; cbn in H; congruence.
  - assert (p ≠ []) as Hp0 by (intros ->; discriminate Hp).
    destruct (stat (fs w) (parent p)) as [[m d|m|q]|]; simpl in H;
      try discriminate H.
    2: { inversion H; subst; clear H. cbn [fs]. unfold is_dir.
         rewrite stat_nonlink;
           rewrite entry_insert, bool_decide_eq_true_2; try done.
         simpl. tauto. }
    all: destruct (is_dir (fs w) p) eqn:Hd; simpl in H; [|discriminate H];
      by inversion H; subst.
Qed.

(** At the [try] statement the scratch path is a directory, or a link to
    one. *)
Lemma reach_icon_stage_is_dir arg w target w0 :
  reach_icon_stage E arg w = (Ok (Some target), w0) →
  is_dir (fs w0) (temp_dir E) = true.
Proof.
  unfold reach_icon_stage. rewrite !bind_eq.
  destruct (prepare E arg w) as [[[[src dst]|]|e] wa]; try discriminate.
  rewrite !bind_eq.
  destruct (relocate E src dst wa) as [[[|]|e] wb]; try discriminate.
  cbn [negb]. rewrite !bind_eq.
  destruct (make_executable dst wb) as [[[]|e] wc]; try discriminate.
  rewrite !bind_eq.
  destruct (Path_mkdir E true (temp_dir E) wc) as [[[]|e] wd] eqn:Hmk;
    try discriminate.
  intros H. injection H as _ <-. by apply Path_mkdir_Ok in Hmk.
Qed.

Lemma is_dir_not_link t d :
  d ≠ [] → is_dir t d = true → islink t d = false → dir_at d t.
Proof.
  intros Hd Hdir Hl. unfold islink in Hl. unfold is_dir in Hdir.
  destruct (entry t d) as [[m0 d0|m0|q0]|] eqn:He; try discriminate Hl.
  all: rewrite stat_nonlink in Hdir by (rewrite He; simpl; tauto);
    rewrite He in Hdir; try discriminate Hdir.
  exists m0. destruct d; [done|exact He].
Qed.

(** The [try] statement, from a state where the scratch directory is a
    directory: it returns an icon reference and the scratch directory is
    gone. *)
Lemma icon_stage_dir target w :
  dir_at (temp_dir E) (fs w) →
  match icon_body E target w with
  | (Ok icon, w1) =>
      icon_stage E target w
      = (Ok icon, World (without (fs w1) (temp_dir E)) (out w1))
  | (Raise e, w1) =>
      icon_stage E target w
      = (Ok fallback_icon,
         World (without (fs w1) (temp_dir E))
               (out w1 ++ [MsgErrorExtracting e]))
  end.
Proof.
  intros HP. pose proof (icon_try_except E target w) as Htry.
  pose proof (keeps_icon_body E target w) as Hkeep.
  unfold icon_stage, try_finally.
  destruct (icon_body E target w) as [[icon|e] w1]; rewrite Htry.
  - rewrite cleanup_dir; [done|]. eapply Hkeep; eauto.
  - rewrite cleanup_dir; [done|]. cbn [fs]. eapply Hkeep; eauto.
Qed.

End Stages.

(** ** Nothing comes back where the scratch directory was *)

Section ScratchGone.

Context (E : Env) (d : path) (Hd : d ≠ []).

Lemma without_scratch_gone t : (scratch_gone d) (without t d).
Proof. intros p Hp. left. by apply without_lookup. Qed.

Lemma scratch_gone_not_dir t : (scratch_gone d) t → is_dir t d = false.
Proof.
  intros H. unfold is_dir. destruct (H d) as [Hn|[_ (m & data & Hf)]]; [done|..].
  - rewrite stat_nonlink; (replace (entry t d) with (t !! d) by by destruct d);
      rewrite Hn; [done | simpl; tauto].
  - rewrite stat_nonlink; (replace (entry t d) with (t !! d) by by destruct d);
      rewrite Hf; [done | simpl; tauto].
Qed.

Lemma scratch_gone_insert_other t k v :
  ¬ d `prefix_of` k → (scratch_gone d) t → (scratch_gone d) (<[k := v]> t).
Proof.
  intros Hk H p Hp. rewrite lookup_insert_ne by (intros ->; done). by apply H.
Qed.

Lemma under_nonroot p : d `prefix_of` p → p ≠ [].
Proof. intros [k ->] H. apply app_eq_nil in H as [? _]. done. Qed.

(** Below [d] no directory is there to create anything in. *)
Lemma scratch_gone_parent t p m :
  (scratch_gone d) t → d `prefix_of` p → p ≠ d →
  stat t (parent p) ≠ Some (Dir m).
Proof.
  intros H [k ->] Hne.
  assert (d `prefix_of` parent (d ++ k)) as Hpar.
  { unfold parent. destruct k as [|c k] using rev_ind.
    - by rewrite app_nil_r in Hne.
    - rewrite app_assoc, removelast_last. by exists k. }
  pose proof (under_nonroot _ Hpar) as Hp0.
  assert (entry t (parent (d ++ k)) = t !! parent (d ++ k)) as He
    by (by destruct (parent (d ++ k))).
  destruct (H _ Hpar) as [Hn|[_ (m' & data & Hf)]].
  - rewrite stat_nonlink; rewrite He, Hn; [done | simpl; tauto].
  - rewrite stat_nonlink; rewrite He, Hf; [done | simpl; tauto].
Qed.

Lemma keeps_gone_os_mkdir p :
  ¬ d `prefix_of` p → keeps (scratch_gone d) (os_mkdir E p).
Proof.
  intros Hp w r w' HP H. unfold os_mkdir in H. munfold.
  repeat case_step H; inversion H; subst; clear H; try done. cbn [fs].
  by apply scratch_gone_insert_other.
Qed.

Lemma keeps_gone_Path_mkdir exist_ok p :
  ¬ d `prefix_of` p → keeps (scratch_gone d) (Path_mkdir E exist_ok p).
Proof.
  intros Hp. unfold Path_mkdir.
  apply keeps_try_except; [by apply keeps_gone_os_mkdir|].
  intros e. destruct e; try apply keeps_raise;
    (apply keeps_get; intros t; apply keeps_if;
     [apply keeps_raise | apply keeps_ret]).
Qed.

Lemma keeps_gone_Path_mkdir_parents_rev exist_ok rp :
  ¬ d `prefix_of` rev rp →
  keeps (scratch_gone d) (Path_mkdir_parents_rev E exist_ok rp).
Proof.
  revert exist_ok. induction rp as [|c rp IH]; intros exist_ok Hp;
    cbn [Path_mkdir_parents_rev];
    (apply keeps_try_except; [by apply keeps_gone_os_mkdir|]);
    intros e; destruct e; try apply keeps_raise;
    try (apply keeps_get; intros t; apply keeps_if;
         [apply keeps_raise | apply keeps_ret]).
  apply keeps_bind; [|intros _; by apply keeps_gone_Path_mkdir].
  apply IH. intros Hpre. apply Hp. simpl.
  etrans; [exact Hpre|]. by apply prefix_app_r.
Qed.

Lemma write_bytes_created p data w w' :
  write_bytes E p data w = (Ok tt, w') →
  entry (fs w) (realpath (fs w) p) = None →
  ∃ m, stat (fs w) (parent (realpath (fs w) p)) = Some (Dir m).
Proof.
  unfold write_bytes. munfold. intros H Hn. rewrite Hn in H.
  destruct (stat (fs w) (parent (realpath (fs w) p))) as [[| |]|];
    try discriminate H. by eexists.
Qed.

Lemma keeps_gone_write_bytes p data : keeps (scratch_gone d) (write_bytes E p data).
Proof.
  intros w r w' HP H.
  destruct r as [[]|e].
  - pose proof (write_bytes_created _ _ _ _ H) as Hcr.
    apply write_bytes_Ok in H as (mq & Hnl & Hnr & Hnd & ->). cbn [fs].
    remember (realpath (fs w) p) as q eqn:Hq.
    assert (entry (fs w) q = fs w !! q) as He by (by destruct q).
    destruct (decide (d `prefix_of` q)) as [Hpre|Hpre];
      [|by apply scratch_gone_insert_other].
    destruct (decide (q = d)) as [->|Hne].
    + intros p' Hp'. destruct (decide (p' = d)) as [->|Hne'].
      * right. split; [done|]. rewrite lookup_insert_eq. eauto.
      * rewrite lookup_insert_ne by done. by apply HP.
    + destruct (HP q Hpre) as [Hn|[? _]]; [|done].
      rewrite He in Hcr. destruct (Hcr Hn) as [m Hm].
      by apply (scratch_gone_parent _ _ m HP Hpre Hne) in Hm.
  - unfold write_bytes in H. munfold.
    repeat case_step H; inversion H; subst; done.
Qed.

Lemma keeps_gone_Path_chmod p mode : keeps (scratch_gone d) (Path_chmod p mode).
Proof.
  intros w r w' HP H. unfold Path_chmod in H. rewrite bind_eq in H.
  destruct (stat (fs w) p) as [n|] eqn:Hs.
  - rewrite (os_stat_found _ _ _ Hs) in H. munfold.
    inversion H; subst; clear H. cbn [fs].
    apply stat_Some_entry in Hs as [Hs Hnl].
    remember (realpath (fs w) p) as q eqn:Hq.
    destruct (decide (d `prefix_of` q)) as [Hpre|Hpre];
      [|by apply scratch_gone_insert_other].
    assert (entry (fs w) q = fs w !! q) as He
      by (pose proof (under_nonroot _ Hpre); by destruct q).
    rewrite He in Hs.
    destruct (HP q Hpre) as [Hn|[-> (m & data & Hf)]]; [congruence|].
    rewrite Hf in Hs. injection Hs as <-.
    intros p' Hp'. destruct (decide (p' = d)) as [->|Hne'].
    + right. split; [done|]. rewrite lookup_insert_eq. simpl. eauto.
    + rewrite lookup_insert_ne by done. by apply HP.
  - destruct (os_stat p w) as [[n|e] w1] eqn:Hos.
    + unfold os_stat in Hos. munfold. rewrite Hs in Hos.
      destruct (islink _ _); discriminate Hos.
    + inversion H; subst. eapply (keeps_os_stat (scratch_gone d)); eauto.
Qed.

End ScratchGone.

Section IconStageRun.

Context (E : Env).

Lemma temp_dir_not_above_launchers :
  ¬ temp_dir E `prefix_of` user_applications_dir E.
Proof.
  unfold temp_dir, applications_dir, user_applications_dir. cbn [join String.eqb].
  rewrite <- app_assoc. intros H%prefix_app_inv.
  apply prefix_cons_inv_1 in H. discriminate H.
Qed.

Lemma keeps_gone_create_desktop_entry target icon :
  keeps (scratch_gone (temp_dir E)) (create_desktop_entry E target icon).
Proof.
  unfold create_desktop_entry.
  apply keeps_bind.
  { apply keeps_gone_Path_mkdir_parents_rev. rewrite rev_involutive.
    apply temp_dir_not_above_launchers. }
  intros _. apply keeps_bind;
    [apply keeps_gone_write_bytes, temp_dir_nonroot|].
  intros _. apply keeps_bind; [apply keeps_os_stat|].
  intros n. apply keeps_bind;
    [apply keeps_gone_Path_chmod, temp_dir_nonroot|].
  intros _. apply keeps_bind; apply keeps_print || (intros _; apply keeps_print).
Qed.

(** A package that exits with a status other than zero makes the body of
    the [try] raise. *)
Lemma nonzero_exit_raises target w returncode written :
  appimage_extract E (fs w) target (temp_dir E) = Exited returncode written →
  returncode ≠ 0%Z →
  ∃ e w1, icon_body E target w = (Raise e, w1).
Proof.
  intros Hrun Hrc. unfold icon_body, subprocess_run_extract. munfold.
  cbn [fs out].
  destruct (is_dir (fs w) (temp_dir E)); cbn [negb]; [|eauto].
  destruct (stat (fs w) target) as [[m d|m|q]|]; eauto.
  rewrite Hrun. apply Z.eqb_neq in Hrc. rewrite Hrc. eauto.
Qed.

End IconStageRun.

(** ** The launcher *)

Section Launcher.

Context (E : Env).

(** Lines 119-143, when they return: the launcher file holds the text
    made from [target_path] and [icon_path_str], whatever was there. *)
Lemma create_desktop_entry_Ok target icon w w' :
  create_desktop_entry E target icon w = (Ok tt, w') →
  ∃ m, stat (fs w') (desktop_file_path E target)
       = Some (File m (desktop_entry_content target icon)).
Proof.
  unfold create_desktop_entry. rewrite bind_eq.
  destruct (Path_mkdir_parents E true (user_applications_dir E) w)
    as [[[]|e] wa]; [|discriminate].
  rewrite bind_eq.
  destruct (write_bytes E _ _ wa) as [[[]|e] wb] eqn:Hw; [|discriminate].
  apply write_bytes_Ok in Hw as (mq & Hnl & Hnr & Hnd & ->).
  remember (desktop_file_path E target) as dp eqn:Hdp.
  remember (desktop_entry_content target icon) as text eqn:Htext.
  remember (realpath (fs wa) dp) as q eqn:Hq.
  assert (¬ is_link (Some (File mq text))) as Hfile by (simpl; tauto).
  assert (stat (<[q:=File mq text]> (fs wa)) dp = Some (File mq text)) as Hs.
  { rewrite (stat_insert _ _ _ _ Hnl Hfile), <- Hq.
    by rewrite bool_decide_eq_true_2. }
  rewrite bind_eq, (os_stat_found dp (World _ _) _ Hs).
  rewrite bind_eq, (Path_chmod_spec dp _ (World _ _) _ Hs).
  cbn [fs out set_mode].
  rewrite <- (same_links_realpath _ _ dp (same_links_insert _ _ _ Hnl Hfile)).
  rewrite <- Hq, insert_insert_eq.
  munfold. intros H. inversion H; subst w'; clear H. cbn [fs].
  eexists. rewrite (stat_insert _ _ _ _ Hnl); [|simpl; tauto].
  rewrite <- Hq. by rewrite bool_decide_eq_true_2.
Qed.

(** A run that returns after the icon stage has left the launcher of its
    destination and of the icon reference of its icon stage. *)
Lemma run_launcher arg w target w0 icon w1 w2 :
  reach_icon_stage E arg w = (Ok (Some target), w0) →
  icon_stage E target w0 = (Ok icon, w1) →
  install_appimage E arg w = (Ok tt, w2) →
  ∃ m, stat (fs w2) (desktop_file_path E target)
       = Some (File m (desktop_entry_content target icon)).
Proof.
  intros Hreach Hstage Hrun.
  rewrite install_appimage_stages, Hreach, bind_eq, Hstage in Hrun.
  by eapply create_desktop_entry_Ok.
Qed.

End Launcher.

(* ===================================================================== *)
(** * The properties of the script *)
(* ===================================================================== *)

(** What a computation gave, from its outcome alone. *)
Lemma outcome_eq {A B : Type} (p : A * B) (a : A) :
  fst p = a → p = (a, snd p).
Proof. destruct p. simpl. by intros ->. Qed.

(** ** C1 and C2: the icon taken *)

(** C1. With no default icon under the extraction root ([.DirIcon] does
    not exist) and at least one themed [.png] or [.svg], the icon taken is
    a themed one, and [str] of every themed icon is at most [str] of it:
    it is the one that sorts last. *)
Theorem themed_icon_sorts_last (t : tree) (root : path) :
  exists_ t (root // ".DirIcon") = false →
  icon_glob t root ≠ [] →
  ∃ p, discover_icon t root = Some p
       ∧ p ∈ icon_glob t root
       ∧ (∀ q, q ∈ icon_glob t root → String.leb (str q) (str p) = true)
       ∧ (∀ q, q ∈ icon_glob t root →
               (∀ r, r ∈ icon_glob t root → String.leb (str r) (str q) = true) →
               str q = str p).
Proof.
  intros Hno Hne.
  destruct (sort_by_str_last _ Hne) as (p & Hlast & Hin & Hmax).
  exists p. unfold discover_icon, candidate_icons, choose_icon.
  rewrite Hno. destruct (icon_glob t root) as [|x l] eqn:Hg; [done|].
  repeat split; try done.
  intros q Hq Hqmax. apply String.leb_antisym.
  - by apply Hmax.
  - by apply Hqmax.
Qed.

Lemma themed_icon_sorts_last_witness :
  ∃ p, discover_icon (Sample.extracted "A" "B") ["r"; "squashfs-root"] = Some p
       ∧ str p = "/r/squashfs-root/usr/share/icons/hicolor/512x512/apps/myapp.png".
Proof.
  destruct (themed_icon_sorts_last (Sample.extracted "A" "B")
              ["r"; "squashfs-root"]) as (p & Hp & Hin & Hmax & Huniq).
  - vm_compute. reflexivity.
  - vm_compute. discriminate.
  - exists p. split; [exact Hp|].
    vm_compute in Hp. injection Hp as Hp. rewrite <- Hp. vm_compute. reflexivity.
Defined.



(** ** C3: the example of the specification *)

(** C3, as the script has it.  In the example the name of the installed
    icon is built from the stem [MyApp-1.2.3] of the package name, without
    [.AppImage]: the icon is [myapp-1.2.3_appimage_icon.png], it holds the
    bytes of the [512x512] icon, and the launcher reads
    [Name=Myapp-1.2.3]. *)
Theorem example_icon_and_name (pkg png512 png128 : string) :
  fst (example_run pkg png512 png128) = Ok tt
  ∧ fs (snd (example_run pkg png512 png128))
      !! (example_icons_dir // "myapp-1.2.3_appimage_icon.png")
    = Some (File 420 png512)
  ∧ app_name Sample.installed = "Myapp-1.2.3"
  ∧ fs (snd (example_run pkg png512 png128)) !! example_desktop_file
    = Some (File 493 (desktop_entry_content Sample.installed
         "/home/user/.local/share/icons/myapp-1.2.3_appimage_icon.png")).
Proof.
  repeat apply conj; vm_compute; reflexivity.
Qed.

(** C3 as the specification words it fails: after the run of the example
    no icon is named [myapp-1.2.3.appimage_appimage_icon.png] and the name
    of the launcher is not [Myapp 1.2.3.Appimage]. *)
Lemma example_claimed_names_absent :
  fs (snd (example_run "ELF" "PNG512" "PNG128"))
    !! (example_icons_dir // "myapp-1.2.3.appimage_appimage_icon.png") = None
  ∧ app_name Sample.installed ≠ "Myapp 1.2.3.Appimage".
Proof.
  split.
  - vm_compute. reflexivity.
  - vm_compute. discriminate.
Qed.

(** ** C4 and C5: the icon stage *)







(** ** C6: the package in its place, executable *)




(** ** C7 and C10: a [shutil.Error] of the move *)



(** C10. When [shutil.move] raises a [shutil.Error] and the destination
    does not exist, the [samefile] test of line 38 raises in its turn
    ([os.stat] of the destination fails): the run ends with that
    exception, in the state the move left, the "Error moving file" line
    not printed. *)
Theorem move_error_without_destination_raises
    (E : Env) (arg : path) (w : world) (src dst : path) (w0 : world)
    (e : exn) (w1 : world) :
  prepare E arg w = (Ok (Some (src, dst)), w0) →
  shutil_move E src dst w0 = (Raise e, w1) →
  is_shutil_Error e = true →
  exists_ (fs w1) dst = false →
  ∃ e', install_appimage E arg w = (Raise e', w1)
        ∧ (e' = FileNotFoundError ∨ e' = OSError).
Proof.
  intros Hprep Hmove He Hmissing.
  destruct (os_stat_missing dst w1 Hmissing) as (e' & Hstat & He').
  exists e'. split; [|exact He'].
  rewrite (install_after_prepare E _ _ _ _ _ Hprep).
  rewrite (relocate_shutil_Error E _ _ _ _ _ Hmove He).
  unfold Path_samefile. unfold mbind at 1, M_bind at 1. by rewrite Hstat.
Qed.

Lemma move_error_without_destination_raises_witness :
  ∃ w0 w1,
    prepare Sample.working Sample.home_dir Sample.fresh
    = (Ok (Some (Sample.home_dir, Sample.home_dir ++ ["Applications"; "user"])),
       w0)
    ∧ shutil_move Sample.working Sample.home_dir
        (Sample.home_dir ++ ["Applications"; "user"]) w0
      = (Raise ShutilError, w1)
    ∧ exists_ (fs w1) (Sample.home_dir ++ ["Applications"; "user"]) = false
    ∧ ∃ e', install_appimage Sample.working Sample.home_dir Sample.fresh
            = (Raise e', w1)
            ∧ (e' = FileNotFoundError ∨ e' = OSError).
Proof.
  eexists _, _. split; [apply outcome_eq; vm_compute; reflexivity|]. split; [apply outcome_eq; vm_compute; reflexivity|].
  split; [vm_compute; reflexivity|].
  eapply (move_error_without_destination_raises Sample.working Sample.home_dir
            Sample.fresh Sample.home_dir
            (Sample.home_dir ++ ["Applications"; "user"]) _ ShutilError).
  - apply outcome_eq; vm_compute; reflexivity.
  - apply outcome_eq; vm_compute; reflexivity.
  - reflexivity.
  - vm_compute. reflexivity.
Defined.

(** ** C8: the launcher of two runs *)

(** C8. Two runs one after the other, the second from the state the first
    left, both for the same destination: after each the launcher file
    holds exactly the text made from the destination and the icon
    reference of that run: the second run replaces what the first wrote,
    and with the same icon reference the text after the two runs is the
    text after the first. *)
Theorem second_run_overwrites_launcher
    (E : Env) (arg1 arg2 target : path) (w wa wb w1 : world)
    (icon1 icon2 : string) (wa' wb' w2 : world) :
  reach_icon_stage E arg1 w = (Ok (Some target), wa) →
  icon_stage E target wa = (Ok icon1, wb) →
  install_appimage E arg1 w = (Ok tt, w1) →
  reach_icon_stage E arg2 w1 = (Ok (Some target), wa') →
  icon_stage E target wa' = (Ok icon2, wb') →
  install_appimage E arg2 w1 = (Ok tt, w2) →
  ∃ m1 m2,
    stat (fs w1) (desktop_file_path E target)
    = Some (File m1 (desktop_entry_content target icon1))
    ∧ stat (fs w2) (desktop_file_path E target)
      = Some (File m2 (desktop_entry_content target icon2)).
Proof.
  intros Hreach1 Hstage1 Hrun1 Hreach2 Hstage2 Hrun2.
  destruct (run_launcher E _ _ _ _ _ _ _ Hreach1 Hstage1 Hrun1) as [m1 H1].
  destruct (run_launcher E _ _ _ _ _ _ _ Hreach2 Hstage2 Hrun2) as [m2 H2].
  by exists m1, m2.
Qed.

Lemma second_run_overwrites_launcher_witness :
  ∃ w1 w2,
    install_appimage Sample.working Sample.package Sample.fresh = (Ok tt, w1)
    ∧ install_appimage Sample.working Sample.installed w1 = (Ok tt, w2)
    ∧ ∃ m1 m2,
        stat (fs w1) (desktop_file_path Sample.working Sample.installed)
        = Some (File m1 (desktop_entry_content Sample.installed
              "/home/user/.local/share/icons/myapp-1.2.3_appimage_icon.png"))
        ∧ stat (fs w2) (desktop_file_path Sample.working Sample.installed)
          = Some (File m2 (desktop_entry_content Sample.installed
                "/home/user/.local/share/icons/myapp-1.2.3_appimage_icon.png")).
Proof.
  eexists _, _. split; [apply outcome_eq; vm_compute; reflexivity|]. split; [apply outcome_eq; vm_compute; reflexivity|].
  eapply (second_run_overwrites_launcher Sample.working Sample.package
            Sample.installed Sample.installed Sample.fresh).
  - apply outcome_eq; vm_compute; reflexivity.
  - apply outcome_eq; vm_compute; reflexivity.
  - apply outcome_eq; vm_compute; reflexivity.
  - apply outcome_eq; vm_compute; reflexivity.
  - apply outcome_eq; vm_compute; reflexivity.
  - apply outcome_eq; vm_compute; reflexivity.
Defined.

(** ** C9: a missing input *)



(* ===================================================================== *)
(** * Further properties of the script *)
(* ===================================================================== *)

(** ** The names the script makes *)

Section Chars.

Lemma lower_char_not_upper c : is_upper (lower_char c) = false.
Proof. destruct c as [[] [] [] [] [] [] [] []]; reflexivity. Qed.

Lemma upper_char_underscore c :
  Ascii.eqb (upper_char c) "_" = Ascii.eqb c "_".
Proof. destruct c as [[] [] [] [] [] [] [] []]; reflexivity. Qed.

Lemma lower_char_underscore c :
  Ascii.eqb (lower_char c) "_" = Ascii.eqb c "_".
Proof. destruct c as [[] [] [] [] [] [] [] []]; reflexivity. Qed.

Lemma slug_chars s :
  Forall (λ c, c ≠ " "%char ∧ is_upper c = false)
         (list_ascii_of_string (replace " " "_" (lower s))).
Proof.
  induction s as [|c s IH]; simpl; constructor; [|done].
  destruct (Ascii.eqb (lower_char c) " ") eqn:He.
  - split; [discriminate|reflexivity].
  - split; [by apply Ascii.eqb_neq|apply lower_char_not_upper].
Qed.

Lemma replaced_absent a b s :
  a ≠ b → Forall (λ c, c ≠ a) (list_ascii_of_string (replace a b s)).
Proof.
  intros Hab. induction s as [|c s IH]; simpl; constructor; [|done].
  destruct (Ascii.eqb c a) eqn:He; [congruence|by apply Ascii.eqb_neq].
Qed.

Lemma title_from_underscore b s :
  Forall (λ c, c ≠ "_"%char) (list_ascii_of_string s) →
  Forall (λ c, c ≠ "_"%char) (list_ascii_of_string (title_from b s)).
Proof.
  revert b. induction s as [|c s IH]; intros b; simpl; intros H; [done|].
  inversion H as [|? ? Hc Hs]; subst. constructor; [|by apply IH].
  apply Ascii.eqb_neq. apply Ascii.eqb_neq in Hc.
  destruct b; [by rewrite lower_char_underscore|by rewrite upper_char_underscore].
Qed.

End Chars.

Section Slices.

Lemma append_cons c a b : String c a +:+ b = String c (a +:+ b).
Proof. reflexivity. Qed.

Lemma append_nil_r s : s +:+ "" = s.
Proof.
  induction s as [|c s IH]; [done|]. rewrite append_cons. congruence.
Qed.

Lemma substring_all s : String.substring 0 (String.length s) s = s.
Proof. induction s as [|c s IH]; simpl; congruence. Qed.

(** [s[:k] + s[k:] == s] *)
Lemma substring_split k s :
  (k <= String.length s)%nat →
  String.substring 0 k s +:+ String.substring k (String.length s - k) s = s.
Proof.
  revert k. induction s as [|c s IH]; intros k Hk; simpl in *.
  - destruct k; reflexivity.
  - destruct k as [|k]; simpl.
    + by rewrite substring_all.
    + rewrite append_cons, IH by lia. reflexivity.
Qed.

(** [(a + b)[len(a):] == b] *)
Lemma substring_app_r a b :
  String.substring (String.length a) (String.length b) (a +:+ b) = b.
Proof.
  induction a as [|c a IH]; [apply substring_all|].
  rewrite append_cons. exact IH.
Qed.

Lemma length_app_string a b :
  String.length (a +:+ b) = (String.length a + String.length b)%nat.
Proof.
  induction a as [|c a IH]; [done|].
  rewrite append_cons. simpl. congruence.
Qed.

(** A string that ends with [e] is something followed by [e]. *)
Lemma ends_with_app e s :
  ends_with e s = true ↔ ∃ a, s = a +:+ e.
Proof.
  unfold ends_with. split.
  - intros [Hle He]%andb_prop. apply Nat.leb_le in Hle.
    apply String.eqb_eq in He.
    exists (String.substring 0 (String.length s - String.length e) s).
    pose proof (substring_split (String.length s - String.length e) s) as Hsp.
    replace (String.length s - (String.length s - String.length e))%nat
      with (String.length e) in Hsp by lia.
    rewrite He in Hsp. symmetry. apply Hsp. lia.
  - intros [a ->]. rewrite length_app_string.
    apply andb_true_intro. split; [apply Nat.leb_le; lia|].
    replace (String.length a + String.length e - String.length e)%nat
      with (String.length a) by lia.
    rewrite substring_app_r. apply String.eqb_refl.
Qed.

(** What [rfind_from] gives is [-1] or the place of an occurrence. *)
Lemma rfind_from_spec c i s :
  rfind_from c i s = (-1)%Z
  ∨ (i <= rfind_from c i s < i + len s)%Z
    ∧ String.get (Z.to_nat (rfind_from c i s - i)) s = Some c.
Proof.
  revert i. induction s as [|d s IH]; intros i; [by left|].
  cbn [rfind_from]. unfold len. cbn [String.length].
  destruct (IH (i + 1)%Z) as [Hj|[Hr Hg]].
  - rewrite Hj. cbn. destruct (Ascii.eqb d c) eqn:He; [|by left].
    right. apply Ascii.eqb_eq in He as ->. split; [lia|].
    by rewrite Z.sub_diag.
  - unfold len in Hr.
    destruct (0 <=? rfind_from c (i + 1) s)%Z eqn:Hpos.
    + right. split; [lia|].
      replace (Z.to_nat (rfind_from c (i + 1) s - i))
        with (S (Z.to_nat (rfind_from c (i + 1) s - (i + 1)))) by lia.
      exact Hg.
    + destruct (Ascii.eqb d c) eqn:He; [|by left].
      right. apply Ascii.eqb_eq in He as ->. split; [lia|].
      by rewrite Z.sub_diag.
Qed.

Lemma get_substring_head k n s c :
  String.get k s = Some c → (0 < n)%nat →
  String.get 0 (String.substring k n s) = Some c.
Proof.
  revert k n. induction s as [|d s IH]; intros k n Hg Hn.
  - destruct k; discriminate Hg.
  - destruct k as [|k]; simpl in *.
    + destruct n; [lia|]. simpl. exact Hg.
    + by apply IH.
Qed.

Lemma length_substring k n s :
  (k + n <= String.length s)%nat → String.length (String.substring k n s) = n.
Proof.
  revert k n. induction s as [|d s IH]; intros k n H; simpl in *.
  - destruct k, n; simpl in *; lia.
  - destruct k as [|k].
    + destruct n as [|n]; [done|]. simpl. rewrite IH; lia.
    + apply IH. lia.
Qed.

(** [name == stem + suffix] *)
Lemma stem_suffix_of nm : stem_of nm +:+ suffix_of nm = nm.
Proof.
  unfold stem_of, suffix_of, slice_to, slice_from.
  destruct ((0 <? rfind "." nm)%Z && (rfind "." nm <? len nm - 1)%Z) eqn:Hc.
  - apply andb_prop in Hc as [H0 H1].
    apply Z.ltb_lt in H0. apply Z.ltb_lt in H1. unfold len in H1.
    apply substring_split. lia.
  - apply append_nil_r.
Qed.

(** The suffix is empty or begins with the dot, and then it is longer than
    the dot and the stem is not empty. *)
Lemma suffix_of_shape nm :
  suffix_of nm = ""
  ∨ String.get 0 (suffix_of nm) = Some "."%char
    ∧ (1 < String.length (suffix_of nm))%nat
    ∧ stem_of nm ≠ "".
Proof.
  unfold stem_of, suffix_of, slice_to, slice_from.
  destruct ((0 <? rfind "." nm)%Z && (rfind "." nm <? len nm - 1)%Z) eqn:Hc;
    [right|by left].
  apply andb_prop in Hc as [H0 H1].
  apply Z.ltb_lt in H0. apply Z.ltb_lt in H1. unfold len in H1.
  destruct (rfind_from_spec "." 0 nm) as [Hm|[Hr Hg]];
    [unfold rfind in H0; lia|].
  fold (rfind "." nm) in Hr, Hg. rewrite Z.sub_0_r in Hg.
  split; [apply get_substring_head; [done|lia]|].
  split.
  - rewrite length_substring; lia.
  - intros He. apply (f_equal String.length) in He.
    rewrite length_substring in He; simpl in He; lia.
Qed.

(** [rfind] in a string that ends with a string where the character
    occurs. *)
Lemma rfind_from_app c i a b :
  (0 <= i)%Z → (0 <= rfind_from c (i + len a) b)%Z →
  rfind_from c i (a +:+ b) = rfind_from c (i + len a) b.
Proof.
  revert i. induction a as [|d a IH]; intros i Hi Hb.
  - unfold len in *. simpl in *. by rewrite Z.add_0_r in *.
  - rewrite append_cons. cbn [rfind_from].
    replace (i + len (String d a))%Z with (i + 1 + len a)%Z in *
      by (unfold len; cbn [String.length]; lia).
    rewrite IH by (lia || done).
    apply Z.leb_le in Hb. by rewrite Hb.
Qed.

Lemma rfind_from_dot_ext i x y z :
  Ascii.eqb x "." = false → Ascii.eqb y "." = false →
  Ascii.eqb z "." = false →
  rfind_from "." i (String "." (String x (String y (String z EmptyString))))
  = i.
Proof. intros Hx Hy Hz. cbn. by rewrite Hx, Hy, Hz. Qed.

(** The suffix of a name that ends with a dot and three other characters
    and has something before them. *)
Lemma suffix_of_ext a x y z :
  a ≠ "" →
  Ascii.eqb x "." = false → Ascii.eqb y "." = false →
  Ascii.eqb z "." = false →
  suffix_of (a +:+ String "." (String x (String y (String z EmptyString))))
  = String "." (String x (String y (String z EmptyString))).
Proof.
  intros Ha Hx Hy Hz. unfold suffix_of, rfind.
  rewrite rfind_from_app; rewrite ?rfind_from_dot_ext; try done;
    [|unfold len; lia].
  unfold len. rewrite length_app_string. cbn [String.length].
  assert (0 < String.length a)%nat by (destruct a; [done|simpl; lia]).
  rewrite Z.add_0_l.
  replace ((0 <? Z.of_nat (String.length a))%Z) with true
    by (symmetry; apply Z.ltb_lt; lia).
  replace ((Z.of_nat (String.length a) <? Z.of_nat (String.length a + 4) - 1)%Z)
    with true by (symmetry; apply Z.ltb_lt; lia).
  cbn [andb]. unfold slice_from. rewrite Nat2Z.id, length_app_string.
  cbn [String.length].
  replace (String.length a + 4 - String.length a)%nat with 4%nat by lia.
  apply (substring_app_r a (String "." (String x (String y (String z EmptyString))))).
Qed.

End Slices.

Section Names.

(** X1. Line 96: the slug the icon is named with has no space and no
    capital ASCII letter, whatever the name of the package. *)
Theorem slug_has_no_space_or_capital (target_path : path) :
  Forall (λ c, c ≠ " "%char ∧ is_upper c = false)
         (list_ascii_of_string (app_name_slug target_path)).
Proof. unfold app_name_slug. apply slug_chars. Qed.

(** X2. Line 120: the name the launcher shows has no underscore, whatever
    the name of the package. *)
Theorem app_name_has_no_underscore (target_path : path) :
  Forall (λ c, c ≠ "_"%char) (list_ascii_of_string (app_name target_path)).
Proof.
  unfold app_name, title.
  apply title_from_underscore, replaced_absent. discriminate.
Qed.

(** X3. Lines 96, 97, 120 and 130: the stem and the suffix of a path make
    up its name; the suffix is empty, or it begins with a dot, has
    something after the dot, and leaves a stem that is not empty. *)
Theorem stem_and_suffix_make_name (p : path) :
  stem p +:+ suffix p = name p
  ∧ (suffix p = ""
     ∨ String.get 0 (suffix p) = Some "."%char
       ∧ (1 < String.length (suffix p))%nat
       ∧ stem p ≠ "").
Proof. split; [apply stem_suffix_of|apply suffix_of_shape]. Qed.

End Names.

(** ** The icons *)

Section Globbing.

(** The names [os.scandir] gives are the final components of the entries
    one step below the directory. *)
Lemma elem_of_scandir t p nm : nm ∈ scandir t p ↔ is_Some (t !! (p ++ [nm])).
Proof.
  unfold scandir. rewrite list_elem_of_omap. split.
  - intros ([k n] & Hin & Hf). simpl in Hf.
    case_bool_decide as Hk; [|discriminate Hf].
    destruct Hk as [Hk Hp]. injection Hf as <-.
    apply elem_of_map_to_list in Hin. exists n.
    unfold parent, name in *. rewrite <- Hp.
    by rewrite <- (app_removelast_last "" Hk).
  - intros [n Hn]. exists (p ++ [nm], n). split.
    + by apply elem_of_map_to_list.
    + simpl. unfold parent, name.
      rewrite removelast_last, last_last.
      rewrite bool_decide_eq_true_2; [done|].
      split; [|done]. intros H. by apply app_eq_nil in H as [_ ?].
Qed.

Lemma is_dir_lookup t p : is_dir t p = true → p ≠ [] → is_Some (t !! p).
Proof.
  intros Hd Hp. destruct (t !! p) as [n|] eqn:Hn; [by eexists|].
  unfold is_dir in Hd. rewrite stat_nonlink in Hd.
  - destruct p; [done|]. simpl in Hd. by rewrite Hn in Hd.
  - destruct p; [done|]. simpl. rewrite Hn. simpl. tauto.
Qed.

Lemma ends_with_empty s : ends_with "" s = true.
Proof. apply ends_with_app. exists s. by rewrite append_nil_r. Qed.

Lemma elem_of_flat_map {A B : Type} (f : A → list B) (l : list A) (y : B) :
  y ∈ flat_map f l ↔ ∃ x, x ∈ l ∧ y ∈ f x.
Proof.
  rewrite list_elem_of_In, in_flat_map. split.
  - intros (x & Hx & Hy). exists x. by rewrite !list_elem_of_In.
  - intros (x & Hx & Hy). exists x. by rewrite <- !list_elem_of_In.
Qed.

(** The matches of ["usr/share/icons/hicolor/*/apps/*" + ext]. *)
Lemma elem_of_themed_glob t root ext p :
  p ∈ glob t root (themed_pattern ext) ↔
  ∃ size nm,
    p = root ++ ["usr"; "share"; "icons"; "hicolor"; size; "apps"; nm]
    ∧ ends_with ext nm = true
    ∧ is_Some (t !! p)
    ∧ is_dir t root = true
    ∧ is_dir t (root ++ ["usr"]) = true
    ∧ is_dir t (root ++ ["usr"; "share"]) = true
    ∧ is_dir t (root ++ ["usr"; "share"; "icons"]) = true
    ∧ is_dir t (root ++ ["usr"; "share"; "icons"; "hicolor"]) = true
    ∧ is_dir t (root ++ ["usr"; "share"; "icons"; "hicolor"; size]) = true
    ∧ is_dir t (root ++ ["usr"; "share"; "icons"; "hicolor"; size; "apps"])
      = true.
Proof.
  unfold glob, themed_pattern. cbn [select_from].
  rewrite <- !app_assoc. cbn [app].
  split.
  - intros H.
    destruct (is_dir t root) eqn:H0; [|by apply elem_of_nil in H].
    destruct (is_dir t (root ++ ["usr"])) eqn:H1; [|by apply elem_of_nil in H].
    destruct (is_dir t (root ++ ["usr"; "share"])) eqn:H2;
      [|by apply elem_of_nil in H].
    destruct (is_dir t (root ++ ["usr"; "share"; "icons"])) eqn:H3;
      [|by apply elem_of_nil in H].
    destruct (is_dir t (root ++ ["usr"; "share"; "icons"; "hicolor"])) eqn:H4;
      [|by apply elem_of_nil in H].
    apply elem_of_flat_map in H as (size & Hsize & H).
    cbn [select_from negb orb] in H.
    rewrite <- ?app_assoc in H. cbn [app] in H.
    rewrite ends_with_empty, andb_true_r in H.
    destruct (is_dir t (root ++ ["usr"; "share"; "icons"; "hicolor"; size]))
      eqn:H5; [|by apply elem_of_nil in H].
    destruct (is_dir t (root ++ ["usr"; "share"; "icons"; "hicolor"; size; "apps"]))
      eqn:H6; [|by apply elem_of_nil in H].
    apply elem_of_flat_map in H as (nm & Hnm & H).
    cbn [select_from negb orb andb] in H.
    rewrite <- ?app_assoc in H. cbn [app] in H.
    destruct (ends_with ext nm) eqn:He; [|by apply elem_of_nil in H].
    apply list_elem_of_singleton in H as ->.
    apply elem_of_scandir in Hnm.
    rewrite <- ?app_assoc in Hnm. cbn [app] in Hnm.
    exists size, nm. repeat (split; [done|]). done.
  - intros (size & nm & -> & He & Hp & H0 & H1 & H2 & H3 & H4 & H5 & H6).
    rewrite H0, H1, H2, H3, H4.
    apply elem_of_flat_map. exists size. split.
    { apply elem_of_scandir. rewrite <- ?app_assoc. cbn [app].
      apply is_dir_lookup; [done|].
      intros H. by apply app_eq_nil in H as [_ ?]. }
    cbn [select_from negb orb].
    rewrite <- ?app_assoc. cbn [app].
    rewrite ends_with_empty, andb_true_r, H5, H6.
    apply elem_of_flat_map. exists nm. split.
    { apply elem_of_scandir. by rewrite <- ?app_assoc. }
    cbn [select_from negb orb andb].
    rewrite <- ?app_assoc. cbn [app]. rewrite He.
    by apply list_elem_of_singleton.
Qed.

(** X4. Lines 73-74: the matches of
    ["usr/share/icons/hicolor/*/apps/*" + ext] are the entries
    [usr/share/icons/hicolor/<size>/apps/<name>] whose name ends with
    [ext], reached through directories. *)
Theorem themed_glob_exact (t : tree) (root : path) (ext : string) (p : path) :
  p ∈ glob t root (themed_pattern ext) ↔
  ∃ size nm,
    p = root ++ ["usr"; "share"; "icons"; "hicolor"; size; "apps"; nm]
    ∧ ends_with ext nm = true
    ∧ is_Some (t !! p)
    ∧ is_dir t root = true
    ∧ is_dir t (root ++ ["usr"]) = true
    ∧ is_dir t (root ++ ["usr"; "share"]) = true
    ∧ is_dir t (root ++ ["usr"; "share"; "icons"]) = true
    ∧ is_dir t (root ++ ["usr"; "share"; "icons"; "hicolor"]) = true
    ∧ is_dir t (root ++ ["usr"; "share"; "icons"; "hicolor"; size]) = true
    ∧ is_dir t (root ++ ["usr"; "share"; "icons"; "hicolor"; size; "apps"])
      = true.
Proof. apply elem_of_themed_glob. Qed.

End Globbing.

Section Icons.

(** X5. Lines 67-85: a [.DirIcon] that exists is taken before any themed
    icon, and what is taken is where its links lead: an entry that exists
    and is not a link. *)
Theorem default_icon_preferred t root :
  exists_ t (root // ".DirIcon") = true →
  discover_icon t root = Some (realpath t (root // ".DirIcon"))
  ∧ exists_ t (realpath t (root // ".DirIcon")) = true
  ∧ islink t (realpath t (root // ".DirIcon")) = false.
Proof.
  intros Hex. pose proof (exists_realpath _ _ Hex) as Hre.
  unfold discover_icon, candidate_icons, choose_icon. rewrite Hex, Hre.
  split; [done|]. split; [done|].
  apply exists_stat in Hex as [n Hn].
  apply stat_Some_entry in Hn as [Hn Hl]. unfold islink. rewrite Hn.
  by destruct n; simpl in *.
Qed.

Lemma default_icon_preferred_witness :
  exists_ (Sample.extracted_default "A" "B")
          (["r"; "squashfs-root"] // ".DirIcon") = true
  ∧ (discover_icon (Sample.extracted_default "A" "B") ["r"; "squashfs-root"]
     = Some (realpath (Sample.extracted_default "A" "B")
                      (["r"; "squashfs-root"] // ".DirIcon"))
     ∧ exists_ (Sample.extracted_default "A" "B")
               (realpath (Sample.extracted_default "A" "B")
                         (["r"; "squashfs-root"] // ".DirIcon")) = true
     ∧ islink (Sample.extracted_default "A" "B")
              (realpath (Sample.extracted_default "A" "B")
                        (["r"; "squashfs-root"] // ".DirIcon")) = false)
  ∧ realpath (Sample.extracted_default "A" "B")
             (["r"; "squashfs-root"] // ".DirIcon") = Sample.small_icon.
Proof.
  split; [vm_compute; reflexivity|]. split.
  - apply default_icon_preferred. vm_compute. reflexivity.
  - vm_compute. reflexivity.
Defined.

(** X6. Lines 81-93: no icon is taken exactly when there is neither a
    [.DirIcon] that exists nor a themed icon. *)
Theorem no_icon_iff t root :
  discover_icon t root = None
  ↔ exists_ t (root // ".DirIcon") = false ∧ icon_glob t root = [].
Proof.
  split.
  - intros Hnone.
    destruct (exists_ t (root // ".DirIcon")) eqn:Hex.
    { unfold discover_icon, candidate_icons, choose_icon in Hnone.
      by rewrite Hex, (exists_realpath _ _ Hex) in Hnone. }
    split; [done|].
    destruct (icon_glob t root) as [|x l] eqn:Hg; [done|].
    assert (icon_glob t root ≠ []) as Hne by (by rewrite Hg).
    destruct (sort_by_str_last _ Hne) as (p & Hlast & _).
    unfold discover_icon, candidate_icons, choose_icon in Hnone.
    rewrite Hex, Hg in Hnone. rewrite Hg in Hlast. congruence.
  - intros [Hex Hg]. unfold discover_icon, candidate_icons, choose_icon.
    by rewrite Hex, Hg.
Qed.

Lemma name_snoc (p : path) nm : name (p ++ [nm]) = nm.
Proof. unfold name. apply last_last. Qed.

Lemma themed_glob_name t root ext p :
  p ∈ glob t root (themed_pattern ext) → ends_with ext (name p) = true.
Proof.
  intros (size & nm & -> & He & _)%elem_of_themed_glob.
  change (root ++ ["usr"; "share"; "icons"; "hicolor"; size; "apps"; nm])
    with (root ++ ["usr"; "share"; "icons"; "hicolor"; size; "apps"] ++ [nm]).
  by rewrite app_assoc, name_snoc.
Qed.

Lemma suffix_of_ends_with x y z nm :
  Ascii.eqb x "." = false → Ascii.eqb y "." = false →
  Ascii.eqb z "." = false →
  ends_with (String "." (String x (String y (String z EmptyString)))) nm
  = true →
  suffix_of nm = String "." (String x (String y (String z EmptyString)))
  ∨ nm = String "." (String x (String y (String z EmptyString))).
Proof.
  intros Hx Hy Hz [a ->]%ends_with_app.
  destruct (decide (a = "")) as [->|Ha]; [by right|].
  left. by apply suffix_of_ext.
Qed.

(** X7. Lines 73-74 and 97: a themed icon has a name that ends with
    [.png] or [.svg], and this is its suffix, the extension of the
    installed icon, unless the name is just [.png] or [.svg], which has no
    suffix. *)
Theorem themed_icon_suffix t root p :
  p ∈ icon_glob t root →
  (ends_with ".png" (name p) = true ∨ ends_with ".svg" (name p) = true)
  ∧ (suffix p = ".png" ∨ suffix p = ".svg"
     ∨ (suffix p = "" ∧ (name p = ".png" ∨ name p = ".svg"))).
Proof.
  unfold icon_glob. rewrite elem_of_app. unfold suffix.
  intros [H|H]; apply themed_glob_name in H; (split; [auto|]).
  - apply suffix_of_ends_with in H as [H|H]; try done; [auto|].
    right. right. rewrite H. auto.
  - apply suffix_of_ends_with in H as [H|H]; try done; [auto|].
    right. right. rewrite H. auto.
Qed.

Lemma themed_icon_suffix_witness :
  Sample.large_icon ∈ icon_glob (Sample.extracted "A" "B")
                                ["r"; "squashfs-root"]
  ∧ (ends_with ".png" (name Sample.large_icon) = true
     ∨ ends_with ".svg" (name Sample.large_icon) = true)
  ∧ (suffix Sample.large_icon = ".png" ∨ suffix Sample.large_icon = ".svg"
     ∨ (suffix Sample.large_icon = ""
        ∧ (name Sample.large_icon = ".png"
           ∨ name Sample.large_icon = ".svg"))).
Proof.
  assert (Sample.large_icon ∈ icon_glob (Sample.extracted "A" "B")
                                        ["r"; "squashfs-root"]) as H.
  { apply list_elem_of_In. vm_compute.
    first [left; reflexivity | right; left; reflexivity]. }
  split; [exact H|].
  exact (themed_icon_suffix _ _ _ H).
Defined.

End Icons.

(** ** The directories *)

Section Mkdir.

Context (E : Env).

Lemma dirs_made_refl p t : dirs_made E p t t.
Proof. intros q. by left. Qed.

Lemma dirs_made_trans p p' t1 t2 t3 :
  p `prefix_of` p' →
  dirs_made E p t1 t2 → dirs_made E p' t2 t3 → dirs_made E p' t1 t3.
Proof.
  intros Hp H12 H23 q.
  destruct (H23 q) as [E23|(Hq & Hn & Hd)], (H12 q) as [E12|(Hq' & Hn' & Hd')].
  - left. congruence.
  - right. split; [by etrans|]. split; congruence.
  - right. split; [done|]. split; congruence.
  - congruence.
Qed.

Lemma os_mkdir_outcome p w r w' :
  os_mkdir E p w = (r, w') →
  (r = Ok tt ∧ p ≠ [] ∧ entry (fs w) p = None
   ∧ w' = World (<[p := Dir (new_dir_mode E)]> (fs w)) (out w))
  ∨ (∃ e, r = Raise e ∧ w' = w
          ∧ (e = FileNotFoundError → entry (fs w) p = None)
          ∧ (entry (fs w) p = None ∨ e = FileExistsError)).
Proof.
  unfold os_mkdir. munfold. intros H.
  destruct (entry (fs w) p) as [n|] eqn:Hp.
  - right. exists FileExistsError. inversion H; subst.
    repeat apply conj; try done. by right.
  - destruct (stat (fs w) (parent p)) as [[m d|m|q]|]; inversion H; subst.
    2: { left. repeat apply conj; try done. intros ->. discriminate Hp. }
    all: right; eexists; repeat apply conj; try done; by left.
Qed.

Lemma lookup_entry t p : p ≠ [] → entry t p = t !! p.
Proof. by destruct p. Qed.

Lemma is_dir_insert_Dir t p m : p ≠ [] → is_dir (<[p := Dir m]> t) p = true.
Proof.
  intros Hp. unfold is_dir. rewrite stat_nonlink;
    rewrite entry_insert, bool_decide_eq_true_2; try done.
  simpl. tauto.
Qed.

Lemma insert_dirs_made t p :
  t !! p = None → dirs_made E p t (<[p := Dir (new_dir_mode E)]> t).
Proof.
  intros Hn q. destruct (decide (q = p)) as [->|Hne].
  - right. split; [done|]. split; [done|]. apply lookup_insert_eq.
  - left. by apply lookup_insert_ne.
Qed.

(** [Path.mkdir(exist_ok=...)] without [parents]. *)
Lemma Path_mkdir_outcome exist_ok p w r w' :
  Path_mkdir E exist_ok p w = (r, w') →
  out w' = out w ∧ dirs_made E p (fs w) (fs w')
  ∧ (r = Ok tt → is_dir (fs w') p = true).
Proof.
  unfold Path_mkdir, try_except. intros H.
  destruct (os_mkdir E p w) as [r0 w0] eqn:Hmk.
  apply os_mkdir_outcome in Hmk
    as [(-> & Hp & Hn & ->)|(e & -> & -> & _ & _)].
  - inversion H; subst. cbn [fs out]. split; [done|]. split.
    + apply insert_dirs_made. by rewrite <- lookup_entry.
    + intros _. by apply is_dir_insert_Dir.
  - destruct e; cbn [is_OSError] in H; munfold;
      try (destruct (negb exist_ok || negb (is_dir (fs w) p)) eqn:Hc);
      inversion H; subst; (split; [done|]); (split; [apply dirs_made_refl|]);
      try (intros ?; discriminate).
    all: intros _; apply orb_false_elim in Hc as [_ Hc];
      by apply negb_false_iff in Hc.
Qed.

(** [Path.mkdir(parents=True, exist_ok=...)]: whatever its outcome it has
    printed nothing and has only made directories at or above the path,
    where nothing was; when it returns the path is a directory. *)
Lemma Path_mkdir_parents_rev_outcome exist_ok rp w r w' :
  Path_mkdir_parents_rev E exist_ok rp w = (r, w') →
  out w' = out w ∧ dirs_made E (rev rp) (fs w) (fs w')
  ∧ (r = Ok tt → is_dir (fs w') (rev rp) = true).
Proof.
  revert exist_ok w r w'.
  induction rp as [|c rp IH]; intros exist_ok w r w' H.
  - cbn [Path_mkdir_parents_rev] in H. unfold try_except in H.
    destruct (os_mkdir E (rev []) w) as [r0 w0] eqn:Hmk.
    apply os_mkdir_outcome in Hmk
      as [(-> & Hp & Hn & ->)|(e & -> & -> & _ & _)]; [done|].
    destruct e; cbn [is_OSError] in H; munfold;
      try (destruct (negb exist_ok || negb (is_dir (fs w) (rev []))) eqn:Hc);
      inversion H; subst; (split; [done|]); (split; [apply dirs_made_refl|]);
      try (intros ?; discriminate).
    all: intros _; apply orb_false_elim in Hc as [_ Hc];
      by apply negb_false_iff in Hc.
  - cbn [Path_mkdir_parents_rev] in H. unfold try_except in H.
    destruct (os_mkdir E (rev (c :: rp)) w) as [r0 w0] eqn:Hmk.
    apply os_mkdir_outcome in Hmk
      as [(-> & Hp & Hn & ->)|(e & -> & -> & _ & _)].
    + inversion H; subst. cbn [fs out]. split; [done|]. split.
      * apply insert_dirs_made. by rewrite <- lookup_entry.
      * intros _. by apply is_dir_insert_Dir.
    + destruct e; cbn [is_OSError] in H.
      3: { rewrite bind_eq in H.
           destruct (Path_mkdir_parents_rev E true rp w) as [r1 w1] eqn:Hrec.
           apply IH in Hrec as (Ho1 & Hd1 & _).
           assert (rev rp `prefix_of` rev (c :: rp)) as Hpre
             by (simpl; by apply prefix_app_r).
           destruct r1 as [[]|e1].
           - apply Path_mkdir_outcome in H as (Ho2 & Hd2 & Hok).
             split; [congruence|]. split; [|done].
             by apply (dirs_made_trans _ _ _ _ _ Hpre Hd1).
           - inversion H; subst. split; [done|]. split; [|intros ?; discriminate].
             apply (dirs_made_trans _ _ _ _ _ Hpre Hd1), dirs_made_refl. }
      all: munfold;
        try (destruct (negb exist_ok || negb (is_dir (fs w) (rev (c :: rp))))
               eqn:Hc);
        inversion H; subst; (split; [done|]); (split; [apply dirs_made_refl|]);
        try (intros ?; discriminate).
      all: intros _; apply orb_false_elim in Hc as [_ Hc];
        by apply negb_false_iff in Hc.
Qed.

Lemma Path_mkdir_parents_outcome exist_ok p w r w' :
  Path_mkdir_parents E exist_ok p w = (r, w') →
  out w' = out w
  ∧ (∀ q, fs w' !! q = fs w !! q
          ∨ (q `prefix_of` p ∧ fs w !! q = None
             ∧ fs w' !! q = Some (Dir (new_dir_mode E))))
  ∧ (r = Ok tt → is_dir (fs w') p = true).
Proof.
  unfold Path_mkdir_parents. intros H.
  apply Path_mkdir_parents_rev_outcome in H. by rewrite rev_involutive in H.
Qed.

(** A path taken by something that is not a directory. *)
Lemma Path_mkdir_parents_taken p w n :
  entry (fs w) p = Some n → is_dir (fs w) p = false →
  Path_mkdir_parents E true p w = (Raise FileExistsError, w).
Proof.
  intros Hn Hd. unfold Path_mkdir_parents.
  assert (os_mkdir E (rev (rev p)) w = (Raise FileExistsError, w)) as Hmk.
  { rewrite rev_involutive. unfold os_mkdir. munfold. by rewrite Hn. }
  destruct (rev p) as [|c rp] eqn:Hrp;
    cbn [Path_mkdir_parents_rev]; unfold try_except; rewrite Hmk;
    cbn [is_OSError]; munfold; rewrite <- Hrp, rev_involutive, Hd; done.
Qed.

Lemma Path_mkdir_taken p w n :
  entry (fs w) p = Some n → is_dir (fs w) p = false →
  Path_mkdir E true p w = (Raise FileExistsError, w).
Proof.
  intros Hn Hd. unfold Path_mkdir, try_except, os_mkdir. munfold.
  rewrite Hn. cbn [is_OSError]. by rewrite Hd.
Qed.

(** X8. Lines 22, 101 and 132: [mkdir(parents=True, exist_ok=True)]
    prints nothing; whatever its outcome it changes nothing that is there,
    it only makes directories at the path and above it where nothing was;
    and when it returns, the path is a directory. *)
Theorem mkdir_parents_makes_dirs (p : path) (w : world) (r : result unit)
    (w' : world) :
  Path_mkdir_parents E true p w = (r, w') →
  out w' = out w
  ∧ (∀ q, fs w' !! q = fs w !! q
          ∨ (q `prefix_of` p ∧ fs w !! q = None
             ∧ fs w' !! q = Some (Dir (new_dir_mode E))))
  ∧ (r = Ok tt → is_dir (fs w') p = true).
Proof. apply Path_mkdir_parents_outcome. Qed.

End Mkdir.

Lemma mkdir_parents_makes_dirs_witness :
  ∃ w',
    Path_mkdir_parents Sample.working true (user_icons_dir Sample.working)
      Sample.fresh = (Ok tt, w')
    ∧ out w' = out Sample.fresh
    ∧ (∀ q, fs w' !! q = fs Sample.fresh !! q
            ∨ (q `prefix_of` user_icons_dir Sample.working
               ∧ fs Sample.fresh !! q = None
               ∧ fs w' !! q = Some (Dir (new_dir_mode Sample.working))))
    ∧ (Ok tt = Ok tt → is_dir (fs w') (user_icons_dir Sample.working) = true).
Proof.
  eexists. split; [apply outcome_eq; vm_compute; reflexivity|].
  apply (mkdir_parents_makes_dirs Sample.working).
  apply outcome_eq; vm_compute; reflexivity.
Defined.

(** ** The relocation and its errors *)

Section Quiet.

Context (E : Env).

Lemma quiet_ret {A : Type} (a : A) : quiet (mret a).
Proof. intros w e w' H. discriminate H. Qed.

Lemma quiet_bind {A B : Type} (c : M A) (f : A → M B) :
  quiet c → (∀ a, quiet (f a)) → quiet (c ≫= f).
Proof.
  intros Hc Hf w e w' H. rewrite bind_eq in H.
  destruct (c w) as [[a|e0] w0] eqn:Hcw.
  - by eapply Hf.
  - inversion H; subst. by eapply Hc.
Qed.

Lemma quiet_get {A : Type} (f : tree → M A) :
  (∀ t, quiet (f t)) → quiet (get_fs ≫= f).
Proof. intros Hf w e w' H. apply (Hf (fs w) w e w'). exact H. Qed.

Lemma quiet_put t : quiet (put_fs t).
Proof. intros w e w' H. discriminate H. Qed.

Lemma quiet_os_stat p : quiet (os_stat p).
Proof.
  intros w e w' H. unfold os_stat in H. munfold.
  repeat case_step H; by inversion H.
Qed.

Lemma quiet_os_mkdir p : quiet (os_mkdir E p).
Proof.
  intros w e w' H. unfold os_mkdir in H. munfold.
  repeat case_step H; by inversion H.
Qed.

Lemma quiet_Path_mkdir exist_ok p : quiet (Path_mkdir E exist_ok p).
Proof.
  intros w e w' H. unfold Path_mkdir, try_except in H.
  destruct (os_mkdir E p w) as [[[]|e0] w0] eqn:Hmk; [discriminate H|].
  apply quiet_os_mkdir in Hmk.
  destruct e0; cbn [is_OSError] in H; munfold;
    repeat case_step H; by inversion H.
Qed.

Lemma quiet_Path_mkdir_parents_rev exist_ok rp :
  quiet (Path_mkdir_parents_rev E exist_ok rp).
Proof.
  revert exist_ok. induction rp as [|c rp IH]; intros exist_ok w e w' H;
    cbn [Path_mkdir_parents_rev] in H; unfold try_except in H.
  - destruct (os_mkdir E (rev []) w) as [[[]|e0] w0] eqn:Hmk; [discriminate H|].
    apply quiet_os_mkdir in Hmk.
    destruct e0; cbn [is_OSError] in H; munfold;
      repeat case_step H; by inversion H.
  - destruct (os_mkdir E (rev (c :: rp)) w) as [[[]|e0] w0] eqn:Hmk;
      [discriminate H|].
    apply quiet_os_mkdir in Hmk.
    destruct e0; cbn [is_OSError] in H.
    3: { revert H. apply quiet_bind; [apply IH|].
         intros _. apply quiet_Path_mkdir. }
    all: munfold; repeat case_step H; by inversion H.
Qed.

Lemma quiet_Path_chmod p mode : quiet (Path_chmod p mode).
Proof.
  unfold Path_chmod. apply quiet_bind; [apply quiet_os_stat|].
  intros n. apply quiet_get. intros t. apply quiet_put.
Qed.

Lemma quiet_read_bytes p : quiet (read_bytes p).
Proof.
  unfold read_bytes. apply quiet_bind; [apply quiet_os_stat|].
  intros [| |]; intros w e w' H; by inversion H.
Qed.

Lemma quiet_write_bytes p data : quiet (write_bytes E p data).
Proof.
  intros w e w' H. unfold write_bytes in H. munfold.
  repeat case_step H; by inversion H.
Qed.

Lemma quiet_os_unlink p : quiet (os_unlink p).
Proof.
  intros w e w' H. unfold os_unlink in H. munfold.
  repeat case_step H; by inversion H.
Qed.

Lemma quiet_os_rename src dst : quiet (os_rename E src dst).
Proof.
  intros w e w' H. unfold os_rename in H. munfold.
  repeat case_step H; by inversion H.
Qed.

Lemma quiet_shutil_rmtree p : quiet (shutil_rmtree p).
Proof.
  intros w e w' H. unfold shutil_rmtree in H. munfold.
  repeat case_step H; by inversion H.
Qed.

Lemma quiet_shutil_copymode src dst : quiet (shutil_copymode src dst).
Proof.
  unfold shutil_copymode. apply quiet_bind; [apply quiet_os_stat|].
  intros n. apply quiet_Path_chmod.
Qed.

Lemma quiet_shutil_copytree src dst : quiet (shutil_copytree E src dst).
Proof.
  unfold shutil_copytree.
  apply quiet_bind; [apply quiet_Path_mkdir_parents_rev|].
  intros _. apply quiet_get. intros t. apply quiet_put.
Qed.

(** [shutil.copy] raises a [shutil.Error] only before it has written
    anything. *)
Lemma shutil_copy_Error src dst w e w' :
  shutil_copy E src dst w = (Raise e, w') →
  is_shutil_Error e = true → w' = w.
Proof.
  intros H He. unfold shutil_copy in H. rewrite bind_eq in H.
  cbn [get_fs] in H. rewrite bind_eq in H.
  unfold shutil_copyfile in H. rewrite bind_eq in H. cbn [get_fs] in H.
  destruct (shutil_samefile (fs w) src _); [by inversion H|].
  match type of H with
  | match ?c w with _ => _ end = _ => destruct (c w) as [[[]|e0] w0] eqn:Hc
  end.
  - assert (quiet (shutil_copymode src
              (if is_dir (fs w) dst then dst // name src else dst);;
            mret (if is_dir (fs w) dst then dst // name src else dst)))
      as Hq by (apply quiet_bind; [apply quiet_shutil_copymode|];
                intros _; apply quiet_ret).
    apply Hq in H. congruence.
  - inversion H; subst.
    assert (is_shutil_Error e = false); [|congruence].
    revert Hc. apply quiet_bind; [apply quiet_read_bytes|].
    intros data. apply quiet_write_bytes.
Qed.

(** [shutil.move] raises a [shutil.Error] only before it has changed
    anything. *)
Lemma shutil_move_Error src dst w e w' :
  shutil_move E src dst w = (Raise e, w') →
  is_shutil_Error e = true → w' = w.
Proof.
  intros H He. unfold shutil_move in H. rewrite bind_eq in H.
  cbn [get_fs] in H.
  destruct (is_dir (fs w) dst && shutil_samefile (fs w) src dst
            && negb (islink (fs w) src)).
  { rewrite bind_eq in H.
    destruct (os_rename E src dst w) as [[[]|e0] w0] eqn:Hren;
      [discriminate H|].
    inversion H; subst. by apply os_rename_raise in Hren. }
  destruct (is_dir (fs w) dst && exists_ (fs w) _); [by inversion H|].
  rewrite bind_eq in H. unfold try_except in H.
  destruct (os_rename E src _ w) as [[[]|e0] w0] eqn:Hren; [discriminate H|].
  apply os_rename_raise in Hren as ->.
  destruct (is_OSError e0); [|by inversion H].
  match type of H with
  | match ?c w with _ => _ end = _ => destruct (c w) as [[[]|e1] w1] eqn:Hfb
  end; [discriminate H|].
  inversion H; subst. clear H.
  unfold move_fallback in Hfb. rewrite bind_eq in Hfb. cbn [get_fs] in Hfb.
  assert (∀ (c : M unit), quiet c → c w = (Raise e, w') → w' = w) as Hquiet.
  { intros c Hc Hcw. apply Hc in Hcw. congruence. }
  destruct (entry (fs w) src) as [[m d|m|linkto]|] eqn:Hsrc.
  3: { match type of Hfb with
       | context [match entry (fs w) ?q with _ => _ end] =>
           destruct (entry (fs w) q)
       end; [inversion Hfb; subst; simpl in He; discriminate He|].
       rewrite bind_eq in Hfb. cbn [put_fs] in Hfb.
       apply quiet_os_unlink in Hfb. congruence. }
  all: destruct (is_dir (fs w) src).
  all: try (destruct (bool_decide (src `prefix_of` dst));
            [by inversion Hfb|];
            revert Hfb; apply Hquiet;
            apply quiet_bind; [apply quiet_shutil_copytree|];
            intros _; apply quiet_shutil_rmtree).
  all: rewrite bind_eq in Hfb;
    match type of Hfb with
    | match ?c ?x with _ => _ end = _ =>
        destruct (c x) as [[rd|e1] w1] eqn:Hcp
    end;
    [apply quiet_os_unlink in Hfb; congruence|];
    inversion Hfb; subst; by eapply shutil_copy_Error.
Qed.

End Quiet.

Section Made.

Context (E : Env).

Lemma dirs_made_entry p t t' q :
  dirs_made E p t t' →
  entry t' q = entry t q
  ∨ (entry t q = None ∧ entry t' q = Some (Dir (new_dir_mode E))).
Proof.
  intros H. destruct q as [|c q]; [by left|]. simpl.
  destruct (H (c :: q)) as [?|(_ & ? & ?)]; auto.
Qed.

Lemma dirs_made_same_links p t t' : dirs_made E p t t' → same_links t t'.
Proof.
  intros H q l. destruct (dirs_made_entry _ _ _ q H) as [->|[Hn Hd]]; [done|].
  rewrite Hn, Hd. split; discriminate.
Qed.

(** What [stat] found is still there when directories have been made. *)
Lemma dirs_made_stat p t t' q n :
  dirs_made E p t t' → stat t q = Some n → stat t' q = Some n.
Proof.
  intros H Hs. unfold stat in *.
  rewrite <- (same_links_realpath t t' q (dirs_made_same_links _ _ _ H)).
  destruct (dirs_made_entry _ _ _ (realpath t q) H) as [->|[Hn Hd]]; [done|].
  by rewrite Hn in Hs.
Qed.

Lemma dirs_made_exists p t t' q :
  dirs_made E p t t' → exists_ t q = true → exists_ t' q = true.
Proof.
  intros H. unfold exists_. destruct (stat t q) as [n|] eqn:Hs; [|done].
  by rewrite (dirs_made_stat _ _ _ _ _ H Hs).
Qed.

(** What a run that gets past line 27 has done: it has made directories
    down to [~/Applications] and printed the warning of line 27 or
    nothing. *)
Lemma prepare_outcome arg w src dst w0 :
  prepare E arg w = (Ok (Some (src, dst)), w0) →
  src = realpath (fs w) arg
  ∧ dst = applications_dir E // name src
  ∧ dirs_made E (applications_dir E) (fs w) (fs w0)
  ∧ is_dir (fs w0) (applications_dir E) = true
  ∧ exists_ (fs w0) src = true
  ∧ out w0 = out w ++ (if exists_ (fs w0) dst then [MsgOverwriting dst] else []).
Proof.
  unfold prepare. rewrite bind_eq. cbn [get_fs].
  destruct (exists_ (fs w) (realpath (fs w) arg)) eqn:Hex; cbn [negb];
    [|rewrite bind_eq; discriminate].
  rewrite bind_eq.
  destruct (Path_mkdir_parents E true (applications_dir E) w)
    as [[[]|e] wa] eqn:Hmk; [|discriminate].
  apply Path_mkdir_parents_outcome in Hmk as (Ho & Hd & Hok).
  rewrite bind_eq. cbn [get_fs]. rewrite bind_eq.
  destruct (exists_ (fs wa) _) eqn:Hdst; munfold; intros H;
    inversion H; subst; cbn [fs out]; rewrite Hdst, Ho;
    repeat apply conj; try done; try (by apply Hok);
    try (by eapply dirs_made_exists); by rewrite app_nil_r.
Qed.

End Made.

Section Edges.

Context (E : Env).

(** Lines 33-40 for a file that already is where it goes. *)
Lemma relocate_in_place src w m d :
  entry (fs w) src = Some (File m d) →
  ∃ w1, relocate E src src w = (Ok true, w1) ∧ fs w1 = fs w
        ∧ out w1 = out w ++ (if rename_refused E src src then []
                             else [MsgMoved src]).
Proof.
  intros Hsrc.
  pose proof (stat_file _ _ _ _ Hsrc) as Hstat.
  assert (is_dir (fs w) src = false) as Hnd
    by (unfold is_dir; by rewrite Hstat).
  unfold relocate, try_except. rewrite bind_eq.
  unfold shutil_move. rewrite bind_eq. cbn [get_fs]. rewrite Hnd.
  cbn [andb]. rewrite bind_eq. unfold try_except, os_rename.
  rewrite bind_eq. cbn [get_fs].
  destruct (rename_refused E src src).
  - cbn [raise is_OSError]. unfold move_fallback.
    rewrite bind_eq. cbn [get_fs]. rewrite Hsrc, Hnd.
    rewrite bind_eq. unfold shutil_copy. rewrite bind_eq. cbn [get_fs].
    rewrite Hnd. rewrite bind_eq. unfold shutil_copyfile.
    rewrite bind_eq. cbn [get_fs].
    assert (shutil_samefile (fs w) src src = true) as Hsame.
    { unfold shutil_samefile, exists_, same_entry. rewrite Hstat.
      by rewrite bool_decide_eq_true_2. }
    rewrite Hsame. cbn [raise is_shutil_Error]. rewrite bind_eq.
    rewrite (Path_samefile_same _ _ _ Hsame). cbn [negb].
    exists w. by rewrite app_nil_r.
  - rewrite Hsrc, bool_decide_eq_true_2 by done.
    munfold. cbn [fs out]. eexists. split; [reflexivity|]. done.
Qed.

(** X9. Line 22 when [~/Applications] is taken by something that is not a
    directory: the run ends with [FileExistsError] before it has changed
    or printed anything. *)
Theorem applications_path_taken arg w n :
  exists_ (fs w) (realpath (fs w) arg) = true →
  entry (fs w) (applications_dir E) = Some n →
  is_dir (fs w) (applications_dir E) = false →
  install_appimage E arg w = (Raise FileExistsError, w).
Proof.
  intros Hex Hn Hd. unfold install_appimage, prepare.
  rewrite !bind_eq. cbn [get_fs]. rewrite Hex. cbn [negb].
  rewrite bind_eq. by rewrite (Path_mkdir_parents_taken E _ _ _ Hn Hd).
Qed.

(** X10. Line 49 when the scratch path is taken by something that is not a
    directory: the package has been moved and made executable, and the run
    ends with [FileExistsError]. *)
Theorem scratch_path_taken arg w src dst w0 w1 w2 n :
  prepare E arg w = (Ok (Some (src, dst)), w0) →
  relocate E src dst w0 = (Ok true, w1) →
  make_executable dst w1 = (Ok tt, w2) →
  entry (fs w2) (temp_dir E) = Some n →
  is_dir (fs w2) (temp_dir E) = false →
  install_appimage E arg w = (Raise FileExistsError, w2).
Proof.
  intros Hprep Hrel Hex Hn Hd.
  rewrite (install_after_prepare _ _ _ _ _ _ Hprep), Hrel.
  unfold finish, extract_icon. rewrite bind_eq, Hex, !bind_eq.
  by rewrite (Path_mkdir_taken E _ _ _ Hn Hd).
Qed.

(** X11. Lines 33-44 when the package already is where it goes: the file
    stays as it is, whether the system accepts the renaming of a file to
    itself or not, and the run goes on. *)
Theorem reinstall_in_place arg w src w0 m d :
  prepare E arg w = (Ok (Some (src, src)), w0) →
  entry (fs w0) src = Some (File m d) →
  ∃ w1 w2,
    relocate E src src w0 = (Ok true, w1)
    ∧ fs w1 = fs w0
    ∧ out w1 = out w0 ++ (if rename_refused E src src then []
                          else [MsgMoved src])
    ∧ make_executable src w1 = (Ok tt, w2)
    ∧ entry (fs w2) src = Some (File (Z.lor (S_IMODE m) 73) d)
    ∧ install_appimage E arg w
      = (icon_path_str ← extract_icon E src;
         create_desktop_entry E src icon_path_str) w2.
Proof.
  intros Hprep Hsrc.
  destruct (relocate_in_place src w0 m d Hsrc) as (w1 & Hrel & Hfs & Hout).
  assert (stat (fs w1) src = Some (File m d)) as Hstat
    by (rewrite Hfs; by apply stat_file).
  pose proof (make_executable_spec _ _ _ _ Hstat) as Hex.
  rewrite realpath_nonlink in Hex by (rewrite Hfs, Hsrc; simpl; tauto).
  eexists _, _. split; [exact Hrel|]. split; [exact Hfs|].
  split; [exact Hout|]. split; [exact Hex|]. split.
  - cbn [fs]. rewrite entry_insert, bool_decide_eq_true_2; [done|].
    split; [done|]. by eapply file_nonroot.
  - rewrite (install_after_prepare _ _ _ _ _ _ Hprep), Hrel.
    unfold finish. by rewrite bind_eq, Hex.
Qed.

(** X12. Lines 36-40 when [shutil.move] has raised a [shutil.Error] and the
    destination is another file than the source: the run reports the error
    and returns; apart from the directories of line 22 nothing has
    changed. *)
Theorem move_error_other_file_stops arg w src dst w0 e w1 :
  prepare E arg w = (Ok (Some (src, dst)), w0) →
  shutil_move E src dst w0 = (Raise e, w1) →
  is_shutil_Error e = true →
  exists_ (fs w0) dst = true →
  shutil_samefile (fs w0) dst src = false →
  install_appimage E arg w
  = (Ok tt, World (fs w0) (out w0 ++ [MsgErrorMoving e]))
  ∧ (∀ q, fs w0 !! q = fs w !! q
          ∨ (q `prefix_of` applications_dir E ∧ fs w !! q = None
             ∧ fs w0 !! q = Some (Dir (new_dir_mode E)))).
Proof.
  intros Hprep Hmove He Hdst Hsame.
  pose proof (shutil_move_Error E _ _ _ _ _ Hmove He) as ->.
  pose proof (prepare_outcome E _ _ _ _ _ Hprep)
    as (_ & _ & Hmade & _ & Hsrc & _).
  split; [|exact Hmade].
  rewrite (install_after_prepare _ _ _ _ _ _ Hprep).
  rewrite (relocate_shutil_Error _ _ _ _ _ _ Hmove He).
  apply exists_stat in Hdst as [nd Hnd]. apply exists_stat in Hsrc as [ns Hns].
  unfold Path_samefile. rewrite bind_eq, (os_stat_found _ _ _ Hnd).
  rewrite bind_eq, (os_stat_found _ _ _ Hns).
  unfold shutil_samefile, exists_ in Hsame. rewrite Hnd, Hns in Hsame.
  cbn [andb] in Hsame. munfold. by rewrite Hsame.
Qed.

End Edges.

Lemma applications_path_taken_witness :
  exists_ (fs Sample.blocked) (realpath (fs Sample.blocked) Sample.package)
  = true
  ∧ entry (fs Sample.blocked) (applications_dir Sample.working)
    = Some (File 420 "TEXT")
  ∧ is_dir (fs Sample.blocked) (applications_dir Sample.working) = false
  ∧ install_appimage Sample.working Sample.package Sample.blocked
    = (Raise FileExistsError, Sample.blocked).
Proof.
  assert (exists_ (fs Sample.blocked)
            (realpath (fs Sample.blocked) Sample.package) = true) as H1
    by (vm_compute; reflexivity).
  assert (entry (fs Sample.blocked) (applications_dir Sample.working)
          = Some (File 420 "TEXT")) as H2 by (vm_compute; reflexivity).
  assert (is_dir (fs Sample.blocked) (applications_dir Sample.working)
          = false) as H3 by (vm_compute; reflexivity).
  split; [exact H1|]. split; [exact H2|]. split; [exact H3|].
  exact (applications_path_taken Sample.working Sample.package Sample.blocked
           _ H1 H2 H3).
Defined.

Lemma scratch_path_taken_witness :
  ∃ w0 w1 w2,
    prepare Sample.working Sample.package Sample.occupied
    = (Ok (Some (Sample.package, Sample.installed)), w0)
    ∧ relocate Sample.working Sample.package Sample.installed w0
      = (Ok true, w1)
    ∧ make_executable Sample.installed w1 = (Ok tt, w2)
    ∧ entry (fs w2) (temp_dir Sample.working) = Some (File 420 "TEXT")
    ∧ is_dir (fs w2) (temp_dir Sample.working) = false
    ∧ install_appimage Sample.working Sample.package Sample.occupied
      = (Raise FileExistsError, w2).
Proof.
  eexists _, _, _.
  split; [apply outcome_eq; vm_compute; reflexivity|].
  split; [apply outcome_eq; vm_compute; reflexivity|].
  split; [apply outcome_eq; vm_compute; reflexivity|].
  split; [vm_compute; reflexivity|]. split; [vm_compute; reflexivity|].
  eapply (scratch_path_taken Sample.working Sample.package Sample.occupied
            Sample.package Sample.installed).
  - apply outcome_eq; vm_compute; reflexivity.
  - apply outcome_eq; vm_compute; reflexivity.
  - apply outcome_eq; vm_compute; reflexivity.
  - vm_compute. reflexivity.
  - vm_compute. reflexivity.
Defined.

Lemma reinstall_in_place_witness :
  ∃ w0,
    prepare Sample.refusing Sample.installed Sample.docked
    = (Ok (Some (Sample.installed, Sample.installed)), w0)
    ∧ entry (fs w0) Sample.installed = Some (File 420 "ELF")
    ∧ ∃ w1 w2,
        relocate Sample.refusing Sample.installed Sample.installed w0
        = (Ok true, w1)
        ∧ fs w1 = fs w0
        ∧ out w1 = out w0 ++ (if rename_refused Sample.refusing
                                   Sample.installed Sample.installed
                              then [] else [MsgMoved Sample.installed])
        ∧ make_executable Sample.installed w1 = (Ok tt, w2)
        ∧ entry (fs w2) Sample.installed
          = Some (File (Z.lor (S_IMODE 420) 73) "ELF")
        ∧ install_appimage Sample.refusing Sample.installed Sample.docked
          = (icon_path_str ← extract_icon Sample.refusing Sample.installed;
             create_desktop_entry Sample.refusing Sample.installed
               icon_path_str) w2.
Proof.
  eexists. split; [apply outcome_eq; vm_compute; reflexivity|].
  split; [vm_compute; reflexivity|].
  eapply (reinstall_in_place Sample.refusing Sample.installed Sample.docked).
  - apply outcome_eq; vm_compute; reflexivity.
  - vm_compute. reflexivity.
Defined.

Lemma move_error_other_file_stops_witness :
  ∃ w0 w1,
    prepare Sample.working Sample.appdir Sample.clashing
    = (Ok (Some (Sample.appdir, Sample.docked_appdir)), w0)
    ∧ shutil_move Sample.working Sample.appdir Sample.docked_appdir w0
      = (Raise ShutilError, w1)
    ∧ is_shutil_Error ShutilError = true
    ∧ exists_ (fs w0) Sample.docked_appdir = true
    ∧ shutil_samefile (fs w0) Sample.docked_appdir Sample.appdir = false
    ∧ (install_appimage Sample.working Sample.appdir Sample.clashing
       = (Ok tt, World (fs w0) (out w0 ++ [MsgErrorMoving ShutilError]))
       ∧ (∀ q, fs w0 !! q = fs Sample.clashing !! q
               ∨ (q `prefix_of` applications_dir Sample.working
                  ∧ fs Sample.clashing !! q = None
                  ∧ fs w0 !! q = Some (Dir (new_dir_mode Sample.working))))).
Proof.
  eexists _, _.
  split; [apply outcome_eq; vm_compute; reflexivity|].
  split; [apply outcome_eq; vm_compute; reflexivity|].
  split; [reflexivity|].
  split; [vm_compute; reflexivity|]. split; [vm_compute; reflexivity|].
  eapply (move_error_other_file_stops Sample.working Sample.appdir
            Sample.clashing Sample.appdir Sample.docked_appdir).
  - apply outcome_eq; vm_compute; reflexivity.
  - apply outcome_eq; vm_compute; reflexivity.
  - reflexivity.
  - vm_compute. reflexivity.
  - vm_compute. reflexivity.
Defined.

(** ** The icon copy, the launcher, and what a return means *)

Section IconCopy.

Context (E : Env).

Lemma dest_icon_name_nonempty target icon :
  String.eqb (dest_icon_name target icon) "" = false.
Proof.
  apply String.eqb_neq. intros H. apply (f_equal String.length) in H.
  unfold dest_icon_name in H. rewrite !length_app_string in H.
  simpl in H. lia.
Qed.

Lemma final_icon_path_snoc target icon :
  final_icon_path E target icon
  = user_icons_dir E ++ [dest_icon_name target icon].
Proof.
  unfold final_icon_path, join. by rewrite dest_icon_name_nonempty.
Qed.

Lemma snoc_not_prefix (p : path) c : ¬ (p ++ [c]) `prefix_of` p.
Proof.
  intros [k H]. apply (f_equal length) in H. rewrite !length_app in H.
  simpl in H. lia.
Qed.

(** X13. Lines 100-106 when they return, for an icon that is a file and
    an icon path in [~/.local/share/icons] that is neither a directory nor
    a link: the icon file holds the bytes and the permission bits of the
    icon taken, which stays where it was, and the icon reference is the
    path of the copy. *)
Theorem installed_icon_is_copy target icon w s w' m d :
  install_icon E target (Some icon) w = (Ok s, w') →
  entry (fs w) icon = Some (File m d) →
  islink (fs w) (final_icon_path E target icon) = false →
  is_dir (fs w) (final_icon_path E target icon) = false →
  s = str (final_icon_path E target icon)
  ∧ entry (fs w') (final_icon_path E target icon)
    = Some (File (S_IMODE m) d)
  ∧ entry (fs w') icon = Some (File m d)
  ∧ out w' = out w ++ [MsgIconInstalled (final_icon_path E target icon)].
Proof.
  intros H Hicon Hl Hd. cbn [install_icon] in H.
  remember (final_icon_path E target icon) as final eqn:Hfinal.
  rewrite bind_eq in H.
  destruct (Path_mkdir_parents E true (user_icons_dir E) w)
    as [[[]|e] w1] eqn:Hmk; [|discriminate H].
  apply Path_mkdir_parents_outcome in Hmk as (Ho1 & Hmade & _).
  assert (entry (fs w1) icon = Some (File m d)) as Hicon1.
  { destruct (dirs_made_entry E _ _ _ icon Hmade) as [->|[Hn _]]; congruence. }
  assert (final ≠ []) as Hf0.
  { rewrite Hfinal, final_icon_path_snoc. intros Hnil.
    by apply app_eq_nil in Hnil as [_ ?]. }
  assert (entry (fs w1) final = entry (fs w) final) as Hfin1.
  { rewrite !lookup_entry by done.
    destruct (Hmade final) as [->|(Hpre & _)]; [done|].
    rewrite Hfinal, final_icon_path_snoc in Hpre.
    by apply snoc_not_prefix in Hpre. }
  assert (¬ is_link (entry (fs w) final)) as Hnl.
  { unfold islink in Hl. destruct (entry (fs w) final) as [[| |]|]; simpl; auto.
    discriminate Hl. }
  assert (is_dir (fs w1) final = false) as Hd1.
  { unfold is_dir in *. rewrite stat_nonlink in Hd by done.
    rewrite stat_nonlink by (by rewrite Hfin1). by rewrite Hfin1. }
  rewrite bind_eq in H.
  destruct (shutil_copy E icon final w1) as [[rd|e] w2] eqn:Hcp;
    [|discriminate H].
  apply (shutil_copy_file _ _ _ _ _ _ _ _ Hicon1 Hd1) in Hcp
    as (Hq & _ & _ & ->).
  rewrite realpath_nonlink in Hq, H by (by rewrite Hfin1).
  munfold. inversion H; subst s w'. cbn [fs out].
  split; [done|]. split.
  - rewrite entry_insert. by rewrite bool_decide_eq_true_2.
  - split; [|by rewrite Ho1].
    rewrite entry_insert, bool_decide_eq_false_2; [done|]. by intros [? _].
Qed.

End IconCopy.

Lemma installed_icon_is_copy_witness :
  ∃ w',
    install_icon Sample.working Sample.installed (Some Sample.large_icon)
      Sample.unpacked
    = (Ok (str (final_icon_path Sample.working Sample.installed
                  Sample.large_icon)), w')
    ∧ entry (fs Sample.unpacked) Sample.large_icon
      = Some (File 420 "PNG512")
    ∧ islink (fs Sample.unpacked)
        (final_icon_path Sample.working Sample.installed Sample.large_icon)
      = false
    ∧ is_dir (fs Sample.unpacked)
        (final_icon_path Sample.working Sample.installed Sample.large_icon)
      = false
    ∧ (str (final_icon_path Sample.working Sample.installed
              Sample.large_icon)
       = str (final_icon_path Sample.working Sample.installed
                Sample.large_icon)
       ∧ entry (fs w')
           (final_icon_path Sample.working Sample.installed
              Sample.large_icon)
         = Some (File (S_IMODE 420) "PNG512")
       ∧ entry (fs w') Sample.large_icon = Some (File 420 "PNG512")
       ∧ out w'
         = out Sample.unpacked
           ++ [MsgIconInstalled
                 (final_icon_path Sample.working Sample.installed
                    Sample.large_icon)]).
Proof.
  eexists. split; [apply outcome_eq; vm_compute; reflexivity|].
  split; [vm_compute; reflexivity|]. split; [vm_compute; reflexivity|].
  split; [vm_compute; reflexivity|].
  eapply (installed_icon_is_copy Sample.working Sample.installed
            Sample.large_icon Sample.unpacked).
  - apply outcome_eq; vm_compute; reflexivity.
  - vm_compute. reflexivity.
  - vm_compute. reflexivity.
  - vm_compute. reflexivity.
Defined.

Section LauncherMode.

Context (E : Env).

Lemma land_lor_same a b : Z.land (Z.lor a b) b = b.
Proof.
  apply Z.bits_inj'. intros n Hn. rewrite Z.land_spec, Z.lor_spec.
  destruct (Z.testbit a n), (Z.testbit b n); reflexivity.
Qed.

Lemma write_bytes_out p data w r w' :
  write_bytes E p data w = (r, w') → out w' = out w.
Proof.
  unfold write_bytes. munfold. intros H.
  repeat case_step H; by inversion H.
Qed.

(** Lines 119-143 when they return. *)
Lemma create_desktop_entry_outcome target icon w w' :
  create_desktop_entry E target icon w = (Ok tt, w') →
  ∃ m, stat (fs w') (desktop_file_path E target)
       = Some (File m (desktop_entry_content target icon))
       ∧ Z.land m 73 = 73%Z
       ∧ out w' = out w ++ [MsgDesktopCreated (desktop_file_path E target);
                            MsgComplete].
Proof.
  unfold create_desktop_entry. rewrite bind_eq.
  destruct (Path_mkdir_parents E true (user_applications_dir E) w)
    as [[[]|e] wa] eqn:Hmk; [|discriminate].
  apply Path_mkdir_parents_outcome in Hmk as (Hoa & _ & _).
  rewrite bind_eq.
  destruct (write_bytes E _ _ wa) as [[[]|e] wb] eqn:Hw; [|discriminate].
  pose proof (write_bytes_out _ _ _ _ _ Hw) as Hob.
  apply write_bytes_Ok in Hw as (mq & Hnl & Hnr & Hnd & ->).
  remember (desktop_file_path E target) as dp eqn:Hdp.
  remember (desktop_entry_content target icon) as text eqn:Htext.
  remember (realpath (fs wa) dp) as q eqn:Hq.
  assert (¬ is_link (Some (File mq text))) as Hfile by (simpl; tauto).
  assert (stat (<[q:=File mq text]> (fs wa)) dp = Some (File mq text)) as Hs.
  { rewrite (stat_insert _ _ _ _ Hnl Hfile), <- Hq.
    by rewrite bool_decide_eq_true_2. }
  rewrite bind_eq, (os_stat_found dp (World _ _) _ Hs).
  rewrite bind_eq, (Path_chmod_spec dp _ (World _ _) _ Hs).
  cbn [fs out set_mode].
  rewrite <- (same_links_realpath _ _ dp (same_links_insert _ _ _ Hnl Hfile)).
  rewrite <- Hq, insert_insert_eq.
  munfold. intros H. inversion H; subst w'; clear H. cbn [fs out].
  eexists. split.
  { rewrite (stat_insert _ _ _ _ Hnl); [|simpl; tauto].
    rewrite <- Hq. by rewrite bool_decide_eq_true_2. }
  split.
  - rewrite S_IMODE_lor. change (S_IMODE 73) with 73%Z. apply land_lor_same.
  - cbn [out] in Hob. rewrite Hoa. by rewrite <- app_assoc.
Qed.

(** X14. Lines 119-143 when they return: the launcher holds the text made
    from the destination and the icon reference, it has the three
    execute bits, and the two closing lines are printed, and nothing
    else. *)
Theorem launcher_is_executable (target : path) (icon : string)
    (w w' : world) :
  create_desktop_entry E target icon w = (Ok tt, w') →
  ∃ m, stat (fs w') (desktop_file_path E target)
       = Some (File m (desktop_entry_content target icon))
       ∧ Z.land m 73 = 73%Z
       ∧ out w' = out w ++ [MsgDesktopCreated (desktop_file_path E target);
                            MsgComplete].
Proof. apply create_desktop_entry_outcome. Qed.

End LauncherMode.

Lemma launcher_is_executable_witness :
  ∃ w',
    create_desktop_entry Sample.working Sample.installed fallback_icon
      Sample.docked = (Ok tt, w')
    ∧ ∃ m, stat (fs w') (desktop_file_path Sample.working Sample.installed)
           = Some (File m (desktop_entry_content Sample.installed
                             fallback_icon))
           ∧ Z.land m 73 = 73%Z
           ∧ out w'
             = out Sample.docked
               ++ [MsgDesktopCreated
                     (desktop_file_path Sample.working Sample.installed);
                   MsgComplete].
Proof.
  eexists. split; [apply outcome_eq; vm_compute; reflexivity|].
  apply (launcher_is_executable Sample.working).
  apply outcome_eq; vm_compute; reflexivity.
Defined.

Section Returns.

Context (E : Env).

Lemma prepare_None arg w w0 :
  prepare E arg w = (Ok None, w0) →
  w0 = World (fs w) (out w ++ [MsgFileNotFound (realpath (fs w) arg)]).
Proof.
  unfold prepare. rewrite bind_eq. cbn [get_fs].
  destruct (exists_ (fs w) (realpath (fs w) arg)); cbn [negb].
  - rewrite bind_eq.
    destruct (Path_mkdir_parents E true (applications_dir E) w)
      as [[[]|e] wa]; [|discriminate].
    rewrite bind_eq. cbn [get_fs]. rewrite bind_eq.
    destruct (exists_ (fs wa) _); munfold; discriminate.
  - munfold. by intros [= <-].
Qed.

Lemma relocate_false src dst w w1 :
  relocate E src dst w = (Ok false, w1) →
  ∃ e, is_shutil_Error e = true ∧ last (out w1) = Some (MsgErrorMoving e).
Proof.
  unfold relocate, try_except. rewrite bind_eq.
  destruct (shutil_move E src dst w) as [[rd|e] w0].
  - munfold. discriminate.
  - destruct (is_shutil_Error e) eqn:He; [|discriminate].
    rewrite bind_eq.
    destruct (Path_samefile dst src w0) as [[[|]|e'] w2]; cbn [negb];
      munfold; try discriminate.
    intros [= <-]. exists e. split; [done|]. cbn [out]. apply last_snoc.
Qed.

(** X15. Lines 10-143: a run that returns has reported that the file is
    missing and changed nothing, or has reported that the move failed, or
    has written the launcher of its destination, executable, and printed
    the closing line. *)
Theorem normal_return arg w w' :
  install_appimage E arg w = (Ok tt, w') →
  (fs w' = fs w
   ∧ out w' = out w ++ [MsgFileNotFound (realpath (fs w) arg)])
  ∨ (∃ e, is_shutil_Error e = true
          ∧ last (out w') = Some (MsgErrorMoving e))
  ∨ (last (out w') = Some MsgComplete
     ∧ ∃ icon m,
         stat (fs w') (desktop_file_path E
                        (applications_dir E // name (realpath (fs w) arg)))
         = Some (File m (desktop_entry_content
                          (applications_dir E // name (realpath (fs w) arg))
                          icon))
         ∧ Z.land m 73 = 73%Z).
Proof.
  unfold install_appimage. rewrite bind_eq.
  destruct (prepare E arg w) as [[[[src dst]|]|e] w0] eqn:Hprep;
    [| |discriminate].
  2: { apply prepare_None in Hprep as ->. munfold. intros [= <-]. by left. }
  apply prepare_Some in Hprep as (-> & -> & _).
  rewrite bind_eq.
  destruct (relocate E _ _ w0) as [[[|]|e] w1] eqn:Hrel; cbn [negb];
    [| |discriminate].
  2: { apply relocate_false in Hrel. munfold. intros [= <-]. right. by left. }
  unfold finish. rewrite bind_eq.
  destruct (make_executable _ w1) as [[[]|e] w2]; [|discriminate].
  rewrite bind_eq.
  destruct (extract_icon E _ w2) as [[icon|e] w3]; [|discriminate].
  intros (m & Hs & Hm & Ho)%create_desktop_entry_outcome.
  right. right. split.
  - rewrite Ho.
    change [MsgDesktopCreated
              (desktop_file_path E
                 (applications_dir E // name (realpath (fs w) arg)));
            MsgComplete]
      with ([MsgDesktopCreated
               (desktop_file_path E
                  (applications_dir E // name (realpath (fs w) arg)))]
            ++ [MsgComplete]).
    rewrite app_assoc. apply last_snoc.
  - eauto.
Qed.

End Returns.

Lemma normal_return_witness :
  ∃ w',
    install_appimage Sample.working Sample.package Sample.fresh = (Ok tt, w')
    ∧ ((fs w' = fs Sample.fresh
        ∧ out w' = out Sample.fresh
                   ++ [MsgFileNotFound
                         (realpath (fs Sample.fresh) Sample.package)])
       ∨ (∃ e, is_shutil_Error e = true
               ∧ last (out w') = Some (MsgErrorMoving e))
       ∨ (last (out w') = Some MsgComplete
          ∧ ∃ icon m,
              stat (fs w')
                (desktop_file_path Sample.working
                   (applications_dir Sample.working
                    // name (realpath (fs Sample.fresh) Sample.package)))
              = Some (File m (desktop_entry_content
                                (applications_dir Sample.working
                                 // name (realpath (fs Sample.fresh)
                                            Sample.package))
                                icon))
              ∧ Z.land m 73 = 73%Z)).
Proof.
  eexists. split; [apply outcome_eq; vm_compute; reflexivity|].
  apply (normal_return Sample.working).
  apply outcome_eq; vm_compute; reflexivity.
Defined.

(** ** What the icon stage reports *)

Section Silent.

Context (E : Env).

Lemma silent_ret {A : Type} (a : A) : silent (mret a).
Proof. by intros w r w' [= _ <-]. Qed.

Lemma silent_raise {A : Type} e : silent (raise e : M A).
Proof. by intros w r w' [= _ <-]. Qed.

Lemma silent_bind {A B : Type} (c : M A) (f : A → M B) :
  silent c → (∀ a, silent (f a)) → silent (c ≫= f).
Proof.
  intros Hc Hf w r w' H. rewrite bind_eq in H.
  destruct (c w) as [[a|e] w1] eqn:Hcw.
  - rewrite (Hf _ _ _ _ H). by eapply Hc.
  - inversion H; subst. by eapply Hc.
Qed.

Lemma silent_get {A : Type} (f : tree → M A) :
  (∀ t, silent (f t)) → silent (get_fs ≫= f).
Proof. intros Hf w r w' H. apply (Hf (fs w) w r w'). exact H. Qed.

Lemma silent_put t : silent (put_fs t).
Proof. by intros w r w' [= _ <-]. Qed.

Lemma silent_if {A : Type} (b : bool) (c1 c2 : M A) :
  silent c1 → silent c2 → silent (if b then c1 else c2).
Proof. by destruct b. Qed.

Lemma silent_os_stat p : silent (os_stat p).
Proof.
  intros w r w' H. unfold os_stat in H. munfold.
  repeat case_step H; by inversion H.
Qed.

Lemma silent_read_bytes p : silent (read_bytes p).
Proof.
  unfold read_bytes. apply silent_bind; [apply silent_os_stat|].
  intros [| |]; first [apply silent_ret | apply silent_raise].
Qed.

Lemma silent_write_bytes p data : silent (write_bytes E p data).
Proof. intros w r w' H. by eapply write_bytes_out. Qed.

Lemma silent_Path_chmod p mode : silent (Path_chmod p mode).
Proof.
  unfold Path_chmod. apply silent_bind; [apply silent_os_stat|].
  intros n. apply silent_get. intros t. apply silent_put.
Qed.

Lemma silent_shutil_copy src dst : silent (shutil_copy E src dst).
Proof.
  unfold shutil_copy. apply silent_get. intros t. apply silent_bind.
  { unfold shutil_copyfile. apply silent_get. intros t'.
    apply silent_if; [apply silent_raise|].
    apply silent_bind; [apply silent_read_bytes|].
    intros data. apply silent_write_bytes. }
  intros _. apply silent_bind; [|intros _; apply silent_ret].
  unfold shutil_copymode. apply silent_bind; [apply silent_os_stat|].
  intros n. apply silent_Path_chmod.
Qed.

Lemma silent_Path_mkdir_parents exist_ok p :
  silent (Path_mkdir_parents E exist_ok p).
Proof. by intros w r w' (H & _)%Path_mkdir_parents_outcome. Qed.

Lemma silent_subprocess_run_extract exe cwd :
  silent (subprocess_run_extract E exe cwd).
Proof.
  intros w r w' H. unfold subprocess_run_extract in H. munfold.
  repeat case_step H; by inversion H.
Qed.

Lemma silent_cleanup : silent (cleanup E).
Proof.
  intros w r w' H. unfold cleanup, shutil_rmtree in H. munfold.
  repeat case_step H; by inversion H.
Qed.

(** Lines 93-109: what is printed and what the icon reference is. *)
Lemma install_icon_report target icon w r w' :
  install_icon E target icon w = (r, w') →
  match r with
  | Ok s =>
      (∃ ip, icon = Some ip
             ∧ out w' = out w ++ [MsgIconInstalled (final_icon_path E target ip)]
             ∧ s = str (final_icon_path E target ip))
      ∨ (icon = None ∧ out w' = out w ++ [MsgNoIcon] ∧ s = fallback_icon)
  | Raise _ => out w' = out w
  end.
Proof.
  destruct icon as [ip|]; cbn [install_icon]; intros H.
  - rewrite bind_eq in H.
    destruct (Path_mkdir_parents E true _ w) as [[[]|e] w1] eqn:H1.
    2: { inversion H; subst. by eapply silent_Path_mkdir_parents. }
    apply silent_Path_mkdir_parents in H1. rewrite bind_eq in H.
    destruct (shutil_copy E ip _ w1) as [[rd|e] w2] eqn:H2.
    2: { inversion H; subst. apply silent_shutil_copy in H2. congruence. }
    apply silent_shutil_copy in H2. munfold. inversion H; subst.
    left. exists ip. cbn [out]. split; [done|]. split; [congruence|done].
  - munfold. inversion H; subst. right. done.
Qed.

(** X16. Lines 51-117 when they return: after [Extracting AppImage icon...]
    one line is printed, and it tells what the icon reference is: the
    path of the installed icon, or the fallback when no icon was found or
    an exception was caught. *)
Theorem icon_reference_and_report target w icon w' :
  icon_stage E target w = (Ok icon, w') →
  ∃ msg,
    out w' = out w ++ [MsgExtracting; msg]
    ∧ ((∃ ip, msg = MsgIconInstalled (final_icon_path E target ip)
              ∧ icon = str (final_icon_path E target ip))
       ∨ (msg = MsgNoIcon ∧ icon = fallback_icon)
       ∨ (∃ e, msg = MsgErrorExtracting e ∧ icon = fallback_icon)).
Proof.
  unfold icon_stage, try_finally, try_except. intros H.
  destruct (match icon_body E target w with
            | (Raise e, w0) =>
                if any_Exception e then icon_handler e w0 else (Raise e, w0)
            | r => r
            end) as [r1 w1] eqn:Hbody.
  destruct (cleanup E w1) as [[[]|e] w2] eqn:Hcl; [|discriminate H].
  apply silent_cleanup in Hcl. inversion H; subst r1 w2. clear H.
  rewrite Hcl. clear Hcl.
  unfold icon_body in Hbody. rewrite bind_eq in Hbody.
  cbn [print] in Hbody. rewrite bind_eq in Hbody.
  destruct (subprocess_run_extract E target (temp_dir E) _)
    as [[[]|e] wa] eqn:Hrun; apply silent_subprocess_run_extract in Hrun;
    cbn [out] in Hrun.
  - rewrite bind_eq in Hbody. cbn [get_fs] in Hbody.
    destruct (install_icon E target _ wa) as [[s|e] wb] eqn:Hin;
      apply install_icon_report in Hin.
    + inversion Hbody; subst s wb.
      destruct Hin as [(ip & _ & Hout & Hs)|(_ & Hout & Hs)].
      * exists (MsgIconInstalled (final_icon_path E target ip)). split.
        -- rewrite Hout, Hrun. by rewrite <- app_assoc.
        -- left. by exists ip.
      * exists MsgNoIcon. split.
        -- rewrite Hout, Hrun. by rewrite <- app_assoc.
        -- right. by left.
    + cbn [any_Exception icon_handler] in Hbody. munfold.
      inversion Hbody; subst. exists (MsgErrorExtracting e). split.
      * cbn [out]. rewrite Hin, Hrun. by rewrite <- app_assoc.
      * right. right. by exists e.
  - cbn [any_Exception icon_handler] in Hbody. munfold.
    inversion Hbody; subst. exists (MsgErrorExtracting e). split.
    + cbn [out]. rewrite Hrun. by rewrite <- app_assoc.
    + right. right. by exists e.
Qed.

End Silent.

Lemma icon_reference_and_report_witness :
  ∃ w',
    icon_stage Sample.working Sample.installed Sample.staged
    = (Ok "/home/user/.local/share/icons/myapp-1.2.3_appimage_icon.png", w')
    ∧ ∃ msg,
        out w' = out Sample.staged ++ [MsgExtracting; msg]
        ∧ ((∃ ip, msg = MsgIconInstalled
                          (final_icon_path Sample.working Sample.installed ip)
                  ∧ "/home/user/.local/share/icons/myapp-1.2.3_appimage_icon.png"
                    = str (final_icon_path Sample.working Sample.installed ip))
           ∨ (msg = MsgNoIcon
              ∧ "/home/user/.local/share/icons/myapp-1.2.3_appimage_icon.png"
                = fallback_icon)
           ∨ (∃ e, msg = MsgErrorExtracting e
                   ∧ "/home/user/.local/share/icons/myapp-1.2.3_appimage_icon.png"
                     = fallback_icon)).
Proof.
  eexists. split; [apply outcome_eq; vm_compute; reflexivity|].
  apply (icon_reference_and_report Sample.working).
  apply outcome_eq; vm_compute; reflexivity.
Defined.

(** ** What the run spares *)

Section Kept.

Context (X : path → Prop).

Lemma same_kind_refl n : same_kind n n.
Proof. by destruct n. Qed.

Lemma same_kind_trans n1 n2 n3 :
  same_kind n1 n2 → same_kind n2 n3 → same_kind n1 n3.
Proof. destruct n1, n2, n3; simpl; try done. congruence. Qed.

Lemma kept_refl t : kept X t t.
Proof. intros p n _ H. exists n. split; [done|apply same_kind_refl]. Qed.

Lemma kept_trans t1 t2 t3 : kept X t1 t2 → kept X t2 t3 → kept X t1 t3.
Proof.
  intros H12 H23 p n HX H1.
  destruct (H12 p n HX H1) as (n2 & H2 & Hk).
  destruct (H23 p n2 HX H2) as (n3 & H3 & Hk').
  exists n3. split; [done|]. by eapply same_kind_trans.
Qed.

(** An entry put at a path in [X], or in the place of one of its kind. *)
Lemma kept_insert t q v :
  X q ∨ (∀ n, entry t q = Some n → same_kind n v) →
  kept X t (<[q := v]> t).
Proof.
  intros Hq p n HX Hp. rewrite entry_insert. case_bool_decide as Hc.
  - destruct Hc as [-> _]. destruct Hq as [Hq|Hq]; [done|].
    exists v. split; [done|]. by apply Hq.
  - exists n. split; [done|apply same_kind_refl].
Qed.

Lemma kept_delete t q : X q → kept X t (delete q t).
Proof.
  intros Hq p n HX Hp. rewrite entry_delete. case_bool_decide as Hc.
  - destruct Hc as [-> _]. done.
  - exists n. split; [done|apply same_kind_refl].
Qed.

Lemma kept_same_entries t t' :
  (∀ p, ¬ X p → entry t' p = entry t p) → kept X t t'.
Proof.
  intros H p n HX Hp. exists n. rewrite (H p HX).
  split; [done|apply same_kind_refl].
Qed.

Lemma without_lookup_outside t d p :
  ¬ d `prefix_of` p → without t d !! p = t !! p.
Proof.
  intros H. apply option_eq. intros n. unfold without.
  rewrite map_lookup_filter_Some. simpl. split; [by intros [? _]|].
  intros Hn. by split.
Qed.

Lemma kept_without t d :
  (∀ p, d `prefix_of` p → X p) → kept X t (without t d).
Proof.
  intros Hd. apply kept_same_entries. intros p HX.
  destruct p as [|c p]; [done|]. simpl. apply without_lookup_outside. auto.
Qed.

Lemma write_all_lookup_outside d written t p :
  ¬ d `prefix_of` p → write_all d written t !! p = t !! p.
Proof.
  intros Hp. unfold write_all. revert t.
  induction written as [|[k v] l IH]; intros t; simpl; [done|].
  rewrite IH. destruct k as [|c k]; [done|].
  apply lookup_insert_ne. intros <-. apply Hp. by apply prefix_app_r.
Qed.

Lemma kept_write_all t d written :
  (∀ p, d `prefix_of` p → X p) → kept X t (write_all d written t).
Proof.
  intros Hd. apply kept_same_entries. intros p HX.
  destruct p as [|c p]; [done|]. simpl. apply write_all_lookup_outside. auto.
Qed.

Lemma graft_lookup_outside t sub src dst p :
  ¬ dst `prefix_of` p → graft t sub src dst !! p = t !! p.
Proof.
  intros Hp. unfold graft.
  apply (map_fold_weak_ind (λ r _, r !! p = t !! p)); [done|].
  intros k v m r _ IH. rewrite lookup_insert_ne; [done|].
  unfold rebase. intros <-. apply Hp. by apply prefix_app_r.
Qed.

Lemma kept_graft t sub src dst :
  (∀ p, dst `prefix_of` p → X p) → kept X t (graft t sub src dst).
Proof.
  intros Hd. apply kept_same_entries. intros p HX.
  destruct p as [|c p]; [done|]. simpl. apply graft_lookup_outside. auto.
Qed.

Lemma dirs_made_kept E p t t' : dirs_made E p t t' → kept X t t'.
Proof.
  intros H q n _ Hq.
  destruct (dirs_made_entry E _ _ _ q H) as [->|[Hn _]]; [|congruence].
  exists n. split; [done|apply same_kind_refl].
Qed.

(** ** What the statements are made of *)

Lemma spares_ret {A : Type} (a : A) : spares X (mret a).
Proof. intros w r w' [= _ <-]. apply kept_refl. Qed.

Lemma spares_raise {A : Type} e : spares X (raise e : M A).
Proof. intros w r w' [= _ <-]. apply kept_refl. Qed.

Lemma spares_print m : spares X (print m).
Proof. intros w r w' [= _ <-]. apply kept_refl. Qed.

Lemma spares_bind {A B : Type} (c : M A) (f : A → M B) :
  spares X c → (∀ a, spares X (f a)) → spares X (c ≫= f).
Proof.
  intros Hc Hf w r w' H. rewrite bind_eq in H.
  destruct (c w) as [[a|e] w1] eqn:Hcw.
  - eapply kept_trans; [by eapply Hc|by eapply Hf].
  - inversion H; subst. by eapply Hc.
Qed.

Lemma spares_get {A : Type} (f : tree → M A) :
  (∀ t, spares X (f t)) → spares X (get_fs ≫= f).
Proof. intros Hf w r w' H. apply (Hf (fs w) w r w'). exact H. Qed.

Lemma spares_if {A : Type} (b : bool) (c1 c2 : M A) :
  spares X c1 → spares X c2 → spares X (if b then c1 else c2).
Proof. by destruct b. Qed.

Lemma spares_try_except {A : Type} (body : M A) handles handler :
  spares X body → (∀ e, spares X (handler e)) →
  spares X (try_except body handles handler).
Proof.
  intros Hb Hh w r w' H. unfold try_except in H.
  destruct (body w) as [[a|e] w1] eqn:Hbw.
  - inversion H; subst. by eapply Hb.
  - destruct (handles e).
    + eapply kept_trans; [by eapply Hb|by eapply Hh].
    + inversion H; subst. by eapply Hb.
Qed.

Lemma spares_try_finally {A : Type} (body : M A) cleanup :
  spares X body → spares X cleanup →
  spares X (try_finally body cleanup).
Proof.
  intros Hb Hc w r w' H. unfold try_finally in H.
  destruct (body w) as [r1 w1] eqn:Hbw.
  destruct (cleanup w1) as [[[]|e] w2] eqn:Hcw; inversion H; subst;
    (eapply kept_trans; [by eapply Hb|by eapply Hc]).
Qed.

(** A computation that changes nothing. *)
Lemma spares_unchanged {A : Type} (c : M A) :
  (∀ w r w', c w = (r, w') → fs w' = fs w) → spares X c.
Proof. intros Hc w r w' H. rewrite (Hc _ _ _ H). apply kept_refl. Qed.

Lemma spares_os_stat p : spares X (os_stat p).
Proof.
  apply spares_unchanged. intros w r w' H. unfold os_stat in H. munfold.
  repeat case_step H; by inversion H.
Qed.

Lemma spares_read_bytes p : spares X (read_bytes p).
Proof.
  unfold read_bytes. apply spares_bind; [apply spares_os_stat|].
  intros [| |]; first [apply spares_ret | apply spares_raise].
Qed.

Section Calls.

Context (E : Env).

Lemma spares_Path_mkdir exist_ok p : spares X (Path_mkdir E exist_ok p).
Proof.
  intros w r w' (_ & H & _)%Path_mkdir_outcome. by eapply dirs_made_kept.
Qed.

Lemma spares_Path_mkdir_parents exist_ok p :
  spares X (Path_mkdir_parents E exist_ok p).
Proof.
  intros w r w' (_ & H & _)%Path_mkdir_parents_outcome. by eapply dirs_made_kept.
Qed.

Lemma spares_write_bytes p data : spares X (write_bytes E p data).
Proof.
  intros w r w' H. destruct r as [[]|e].
  - apply write_bytes_Ok in H as (mq & Hnl & Hnr & Hnd & ->). cbn [fs].
    apply kept_insert. right. intros n Hn. rewrite Hn in Hnl, Hnd.
    destruct n as [m0 d0|m0|q0]; simpl in *; try done. by destruct (Hnd m0).
  - unfold write_bytes in H. munfold.
    repeat case_step H; inversion H; subst; apply kept_refl.
Qed.

Lemma spares_Path_chmod p mode : spares X (Path_chmod p mode).
Proof.
  intros w r w' H. unfold Path_chmod in H. rewrite bind_eq in H.
  destruct (os_stat p w) as [[n|e] w1] eqn:Hos.
  - unfold os_stat in Hos. munfold.
    destruct (stat (fs w) p) as [n0|] eqn:Hs;
      [|destruct (islink _ _); discriminate Hos].
    inversion Hos; subst. inversion H; subst. cbn [fs].
    apply stat_Some_entry in Hs as [Hs _].
    apply kept_insert. right. intros n' Hn'.
    rewrite Hs in Hn'. injection Hn' as <-. by destruct n.
  - inversion H; subst. by eapply spares_os_stat.
Qed.

Lemma spares_shutil_copy src dst : spares X (shutil_copy E src dst).
Proof.
  unfold shutil_copy. apply spares_get. intros t.
  apply spares_bind.
  { unfold shutil_copyfile. apply spares_get. intros t'. apply spares_if;
      [apply spares_raise|].
    apply spares_bind; [apply spares_read_bytes|]. intros data.
    apply spares_write_bytes. }
  intros _. apply spares_bind; [|intros _; apply spares_ret].
  unfold shutil_copymode. apply spares_bind; [apply spares_os_stat|].
  intros n. apply spares_Path_chmod.
Qed.

Lemma spares_shutil_rmtree d :
  (∀ p, d `prefix_of` p → X p) → spares X (shutil_rmtree d).
Proof.
  intros Hd w r w' H. unfold shutil_rmtree in H. munfold.
  repeat case_step H; inversion H; subst; try apply kept_refl.
  cbn [fs]. by apply kept_without.
Qed.

Lemma spares_subprocess_run_extract exe d :
  (∀ p, d `prefix_of` p → X p) →
  spares X (subprocess_run_extract E exe d).
Proof.
  intros Hd w r w' H. unfold subprocess_run_extract in H. munfold.
  repeat case_step H; inversion H; subst; try apply kept_refl.
  all: cbn [fs]; by apply kept_write_all.
Qed.

Lemma spares_os_unlink p : X p → spares X (os_unlink p).
Proof.
  intros Hp w r w' H. unfold os_unlink in H. munfold.
  repeat case_step H; inversion H; subst; try apply kept_refl.
  all: cbn [fs]; by apply kept_delete.
Qed.

Lemma spares_os_rename src dst :
  (∀ p, src `prefix_of` p → X p) → (∀ p, dst `prefix_of` p → X p) →
  spares X (os_rename E src dst).
Proof.
  intros Hs Hd w r w' H. unfold os_rename in H. munfold.
  repeat case_step H; inversion H; subst; try apply kept_refl.
  all: cbn [fs];
    try (eapply kept_trans; [apply (kept_without _ src); exact Hs|];
         by apply kept_graft).
  all: eapply kept_trans;
    [apply (kept_delete _ src); by apply Hs|];
    apply kept_insert; left; by apply Hd.
Qed.

Lemma spares_shutil_copytree src dst :
  (∀ p, dst `prefix_of` p → X p) → spares X (shutil_copytree E src dst).
Proof.
  intros Hd. unfold shutil_copytree.
  apply spares_bind; [apply spares_Path_mkdir_parents|]. intros _.
  intros w r w' H. munfold. inversion H; subst. cbn [fs]. by apply kept_graft.
Qed.

Lemma below_join (d : path) c p : d // c `prefix_of` p → d `prefix_of` p.
Proof.
  unfold join. destruct (String.eqb c ""); [done|].
  intros H. etrans; [|exact H]. by apply prefix_app_r.
Qed.

Lemma spares_move_fallback src dst real_dst :
  (∀ p, src `prefix_of` p → X p) → (∀ p, real_dst `prefix_of` p → X p) →
  spares X (move_fallback E src dst real_dst).
Proof.
  intros Hs Hd.
  assert (∀ t, spares X
            (if is_dir t src
             then if bool_decide (src `prefix_of` dst) then raise ShutilError
                  else shutil_copytree E src real_dst;; shutil_rmtree src
             else _ ← shutil_copy E src real_dst; os_unlink src)) as Hrest.
  { intros t. apply spares_if.
    - apply spares_if; [apply spares_raise|].
      apply spares_bind; [by apply spares_shutil_copytree|].
      intros _. by apply spares_shutil_rmtree.
    - apply spares_bind; [apply spares_shutil_copy|].
      intros _. apply spares_os_unlink. by apply Hs. }
  intros w r w' H. unfold move_fallback in H. rewrite bind_eq in H.
  cbn [get_fs] in H.
  destruct (entry (fs w) src) as [[m d|m|linkto]|];
    try (by apply (Hrest (fs w) w r w')).
  destruct (entry (fs w) real_dst).
  - inversion H; subst. apply kept_refl.
  - rewrite bind_eq in H. cbn [put_fs] in H.
    eapply kept_trans; [apply (kept_insert _ real_dst); left; by apply Hd|].
    assert (X src) as Hsrc by (by apply Hs).
    exact (spares_os_unlink src Hsrc _ _ _ H).
Qed.

Lemma spares_shutil_move src dst :
  (∀ p, src `prefix_of` p → X p) → (∀ p, dst `prefix_of` p → X p) →
  spares X (shutil_move E src dst).
Proof.
  intros Hs Hd. unfold shutil_move. apply spares_get. intros t.
  assert (∀ p, (if is_dir t dst then dst // name src else dst) `prefix_of` p
               → X p) as Hrd.
  { intros p Hp. apply Hd. destruct (is_dir t dst); [|done].
    by eapply below_join. }
  apply spares_if.
  { apply spares_bind; [by apply spares_os_rename|].
    intros _. apply spares_ret. }
  apply spares_if; [apply spares_raise|].
  apply spares_bind; [|intros _; apply spares_ret].
  apply spares_try_except; [by apply spares_os_rename|]. intros _.
  by apply spares_move_fallback.
Qed.

End Calls.

End Kept.

Section Spared.

Context (E : Env) (X : path → Prop).

Lemma spares_Path_samefile p q : spares X (Path_samefile p q).
Proof.
  unfold Path_samefile. apply spares_bind; [apply spares_os_stat|].
  intros _. apply spares_bind; [apply spares_os_stat|].
  intros _. apply spares_get. intros t. apply spares_ret.
Qed.

Lemma spares_relocate src dst :
  (∀ p, src `prefix_of` p → X p) → (∀ p, dst `prefix_of` p → X p) →
  spares X (relocate E src dst).
Proof.
  intros Hs Hd. unfold relocate. apply spares_try_except.
  - apply spares_bind; [by apply spares_shutil_move|].
    intros _. apply spares_bind; [apply spares_print|].
    intros _. apply spares_ret.
  - intros e. apply spares_bind; [apply spares_Path_samefile|].
    intros same. apply spares_if; [|apply spares_ret].
    apply spares_bind; [apply spares_print|]. intros _. apply spares_ret.
Qed.

Lemma spares_make_executable target : spares X (make_executable target).
Proof.
  unfold make_executable. apply spares_bind; [apply spares_os_stat|].
  intros n. apply spares_bind; [apply spares_Path_chmod|].
  intros _. apply spares_print.
Qed.

Lemma spares_install_icon target icon : spares X (install_icon E target icon).
Proof.
  destruct icon as [icon|]; cbn [install_icon].
  - apply spares_bind; [apply spares_Path_mkdir_parents|].
    intros _. apply spares_bind; [apply spares_shutil_copy|].
    intros _. apply spares_bind; [apply spares_print|].
    intros _. apply spares_ret.
  - apply spares_bind; [apply spares_print|]. intros _. apply spares_ret.
Qed.

Context (Htemp : ∀ p, temp_dir E `prefix_of` p → X p).

Lemma spares_icon_stage target : spares X (icon_stage E target).
Proof.
  unfold icon_stage. apply spares_try_finally.
  - apply spares_try_except.
    + unfold icon_body. apply spares_bind; [apply spares_print|].
      intros _. apply spares_bind;
        [by apply spares_subprocess_run_extract|].
      intros _. apply spares_get. intros t. apply spares_install_icon.
    + intros e. unfold icon_handler.
      apply spares_bind; [apply spares_print|]. intros _. apply spares_ret.
  - unfold cleanup. apply spares_get. intros t.
    apply spares_if; [by apply spares_shutil_rmtree|apply spares_ret].
Qed.

Lemma spares_create_desktop_entry target icon :
  spares X (create_desktop_entry E target icon).
Proof.
  unfold create_desktop_entry.
  apply spares_bind; [apply spares_Path_mkdir_parents|].
  intros _. apply spares_bind; [apply spares_write_bytes|].
  intros _. apply spares_bind; [apply spares_os_stat|].
  intros n. apply spares_bind; [apply spares_Path_chmod|].
  intros _. apply spares_bind; [apply spares_print|].
  intros _. apply spares_print.
Qed.

Lemma spares_finish target : spares X (finish E target).
Proof.
  unfold finish. apply spares_bind; [apply spares_make_executable|].
  intros _. apply spares_bind; [|intros icon; apply spares_create_desktop_entry].
  unfold extract_icon. apply spares_bind; [apply spares_Path_mkdir|].
  intros _. apply spares_icon_stage.
Qed.

End Spared.

Section Rest.

Context (E : Env).

(** X17. Lines 42-143: once the package is in place, the rest of the run
    removes nothing outside the scratch directory, and nothing there
    becomes an entry of another kind, whatever the outcome. *)
Theorem rest_of_run_removes_nothing target w r w' p n :
  finish E target w = (r, w') →
  ¬ temp_dir E `prefix_of` p →
  entry (fs w) p = Some n →
  ∃ n', entry (fs w') p = Some n' ∧ same_kind n n'.
Proof.
  intros H Hp Hn.
  by apply (spares_finish E (λ q, temp_dir E `prefix_of` q)
              (λ _ Hq, Hq) target w r w' H p n).
Qed.

Lemma spares_prepare X arg : spares X (prepare E arg).
Proof.
  unfold prepare. apply spares_get. intros t. apply spares_if.
  - apply spares_bind; [apply spares_print|]. intros _. apply spares_ret.
  - apply spares_bind; [apply spares_Path_mkdir_parents|].
    intros _. apply spares_get. intros t'.
    apply spares_bind; [|intros _; apply spares_ret].
    apply spares_if; [apply spares_print|apply spares_ret].
Qed.

(** X18. Lines 10-143: whatever its outcome, the run removes no entry and
    turns no entry into one of another kind, apart from the package, what
    is at or below its destination, and the scratch directory. *)
Theorem run_removes_nothing_else arg w r w' p n :
  install_appimage E arg w = (r, w') →
  ¬ realpath (fs w) arg `prefix_of` p →
  ¬ (applications_dir E // name (realpath (fs w) arg)) `prefix_of` p →
  ¬ temp_dir E `prefix_of` p →
  entry (fs w) p = Some n →
  ∃ n', entry (fs w') p = Some n' ∧ same_kind n n'.
Proof.
  intros H Hsrc Hdst Htemp Hn.
  set (X := λ q : path,
         realpath (fs w) arg `prefix_of` q
         ∨ (applications_dir E // name (realpath (fs w) arg)) `prefix_of` q
         ∨ temp_dir E `prefix_of` q).
  assert (kept X (fs w) (fs w')) as Hkept.
  { unfold install_appimage in H. rewrite bind_eq in H.
    destruct (prepare E arg w) as [[[[src dst]|]|e] w0] eqn:Hprep.
    - pose proof (spares_prepare X _ _ _ _ Hprep) as H0.
      apply prepare_Some in Hprep as (-> & -> & _).
      eapply kept_trans; [exact H0|]. rewrite bind_eq in H.
      destruct (relocate E _ _ w0) as [[moved|e] w1] eqn:Hrel.
      + eapply kept_trans.
        { eapply spares_relocate; [| |exact Hrel]; intros q Hq; unfold X; auto. }
        destruct moved; cbn [negb] in H.
        * eapply spares_finish; [|exact H]. intros q Hq. unfold X. auto.
        * inversion H; subst. apply kept_refl.
      + inversion H; subst.
        eapply spares_relocate; [| |exact Hrel]; intros q Hq; unfold X; auto.
    - inversion H; subst. by eapply spares_prepare.
    - inversion H; subst. by eapply spares_prepare. }
  apply (Hkept p n); [|done]. unfold X. tauto.
Qed.

End Rest.

Lemma rest_of_run_removes_nothing_witness :
  ∃ w',
    finish Sample.working Sample.installed Sample.docked = (Ok tt, w')
    ∧ ¬ temp_dir Sample.working `prefix_of` applications_dir Sample.working
    ∧ entry (fs Sample.docked) (applications_dir Sample.working)
      = Some (Dir 493)
    ∧ ∃ n', entry (fs w') (applications_dir Sample.working) = Some n'
            ∧ same_kind (Dir 493) n'.
Proof.
  assert (¬ temp_dir Sample.working
            `prefix_of` applications_dir Sample.working) as Hp
    by apply (snoc_not_prefix (applications_dir Sample.working)).
  eexists. split; [apply outcome_eq; vm_compute; reflexivity|].
  split; [exact Hp|]. split; [vm_compute; reflexivity|].
  eapply (rest_of_run_removes_nothing Sample.working Sample.installed
            Sample.docked).
  - apply outcome_eq; vm_compute; reflexivity.
  - exact Hp.
  - vm_compute. reflexivity.
Defined.

Lemma run_removes_nothing_else_witness :
  ∃ w',
    install_appimage Sample.working Sample.package Sample.fresh = (Ok tt, w')
    ∧ ¬ realpath (fs Sample.fresh) Sample.package `prefix_of` Sample.downloads
    ∧ ¬ (applications_dir Sample.working
         // name (realpath (fs Sample.fresh) Sample.package))
        `prefix_of` Sample.downloads
    ∧ ¬ temp_dir Sample.working `prefix_of` Sample.downloads
    ∧ entry (fs Sample.fresh) Sample.downloads = Some (Dir 493)
    ∧ ∃ n', entry (fs w') Sample.downloads = Some n' ∧ same_kind (Dir 493) n'.
Proof.
  assert (¬ realpath (fs Sample.fresh) Sample.package
            `prefix_of` Sample.downloads) as H1.
  { intros [k Hk]. vm_compute in Hk. discriminate Hk. }
  assert (¬ (applications_dir Sample.working
             // name (realpath (fs Sample.fresh) Sample.package))
            `prefix_of` Sample.downloads) as H2.
  { intros [k Hk]. vm_compute in Hk. discriminate Hk. }
  assert (¬ temp_dir Sample.working `prefix_of` Sample.downloads) as H3.
  { intros [k Hk]. vm_compute in Hk. discriminate Hk. }
  eexists. split; [apply outcome_eq; vm_compute; reflexivity|].
  split; [exact H1|]. split; [exact H2|]. split; [exact H3|].
  split; [vm_compute; reflexivity|].
  eapply (run_removes_nothing_else Sample.working Sample.package
            Sample.fresh).
  - apply outcome_eq; vm_compute; reflexivity.
  - exact H1.
  - exact H2.
  - exact H3.
  - vm_compute. reflexivity.
Defined.

(** ** The run in a clean home *)

Section Makeable.

Context (E : Env).

Lemma is_dir_entry t p m : entry t p = Some (Dir m) → is_dir t p = true.
Proof.
  intros H. unfold is_dir. rewrite stat_nonlink; rewrite H; [done|simpl; tauto].
Qed.

Lemma stat_entry_Dir t p m : entry t p = Some (Dir m) → stat t p = Some (Dir m).
Proof. intros H. rewrite stat_nonlink; rewrite H; [done|simpl; tauto]. Qed.

Lemma stat_entry_None t p : entry t p = None → stat t p = None.
Proof. intros H. rewrite stat_nonlink; rewrite H; [done|simpl; tauto]. Qed.

Lemma parent_snoc (p : path) c : parent (p ++ [c]) = p.
Proof. apply removelast_last. Qed.

Lemma snoc_nonroot (p : path) c : p ++ [c] ≠ [].
Proof. intros H. by apply app_eq_nil in H as [_ ?]. Qed.

(** [Path.mkdir(exist_ok=True)] where there is a directory or nothing,
    in a directory. *)
Lemma Path_mkdir_makes p c w :
  is_dir (fs w) p = true →
  (entry (fs w) (p ++ [c]) = None ∨ ∃ m, entry (fs w) (p ++ [c]) = Some (Dir m)) →
  ∃ w', Path_mkdir E true (p ++ [c]) w = (Ok tt, w')
        ∧ out w' = out w
        ∧ ((∃ m, entry (fs w) (p ++ [c]) = Some (Dir m) ∧ fs w' = fs w)
           ∨ (entry (fs w) (p ++ [c]) = None
              ∧ fs w' = <[p ++ [c] := Dir (new_dir_mode E)]> (fs w))).
Proof.
  intros Hp [Hn|[m Hm]]; unfold Path_mkdir, try_except, os_mkdir; munfold.
  - rewrite Hn, parent_snoc. unfold is_dir in Hp.
    destruct (stat (fs w) p) as [[| |]|]; try discriminate Hp.
    eexists. split; [done|]. split; [done|]. right. done.
  - rewrite Hm. cbn [is_OSError]. rewrite (is_dir_entry _ _ _ Hm). cbn.
    exists w. split; [done|]. split; [done|]. left. by exists m.
Qed.

(** [Path.mkdir(parents=True, exist_ok=True)] returns where a directory
    can be made. *)
Lemma Path_mkdir_parents_rev_makeable rp w :
  makeable (fs w) (rev rp) →
  ∃ w', Path_mkdir_parents_rev E true rp w = (Ok tt, w').
Proof.
  revert w. induction rp as [|c rp IH]; intros w Hmk.
  - cbn [Path_mkdir_parents_rev]. unfold try_except, os_mkdir. munfold.
    cbn. by exists w.
  - cbn [Path_mkdir_parents_rev]. unfold try_except. cbn [rev] in *.
    destruct (Hmk (rev rp ++ [c])) as [Hn|[m Hm]]; [done|..].
    2: { unfold os_mkdir. munfold. rewrite Hm. cbn [is_OSError].
         rewrite (is_dir_entry _ _ _ Hm). cbn. by exists w. }
    destruct (Hmk (rev rp)) as [Hpn|[m Hpm]]; [by apply prefix_app_r|..].
    + unfold os_mkdir at 1. munfold. rewrite Hn, parent_snoc.
      rewrite (stat_entry_None _ _ Hpn). cbn [is_OSError].
      destruct (IH w) as [w1 Hrec].
      { intros q Hq. apply Hmk. etrans; [exact Hq|]. by apply prefix_app_r. }
      fold (@mbind M _). rewrite Hrec.
      apply Path_mkdir_parents_rev_outcome in Hrec as (_ & Hmade & Hdir).
      destruct (Path_mkdir_makes (rev rp) c w1) as (w2 & H2 & _).
      * by apply Hdir.
      * left. rewrite lookup_entry by apply snoc_nonroot.
        destruct (Hmade (rev rp ++ [c])) as [->|(Hpre & _)].
        -- rewrite <- lookup_entry by apply snoc_nonroot. done.
        -- by apply snoc_not_prefix in Hpre.
      * exists w2. exact H2.
    + unfold os_mkdir. munfold. rewrite Hn, parent_snoc.
      rewrite (stat_entry_Dir _ _ _ Hpm). eexists. done.
Qed.

Lemma Path_mkdir_parents_makeable p w :
  makeable (fs w) p →
  ∃ w', Path_mkdir_parents E true p w = (Ok tt, w')
        ∧ out w' = out w ∧ dirs_made E p (fs w) (fs w')
        ∧ is_dir (fs w') p = true.
Proof.
  intros H. unfold Path_mkdir_parents.
  destruct (Path_mkdir_parents_rev_makeable (rev p) w) as [w' Hw'];
    [by rewrite rev_involutive|].
  exists w'. split; [done|].
  apply Path_mkdir_parents_rev_outcome in Hw' as (Ho & Hd & Hi).
  rewrite rev_involutive in *. auto.
Qed.

End Makeable.

Section RelocateFile.

Context (E : Env).

Lemma writable_not_link t p : writable t p → ¬ is_link (entry t p).
Proof. intros [->|(m & d & ->)]; simpl; tauto. Qed.

Lemma writable_not_dir t p : writable t p → is_dir t p = false.
Proof.
  intros H. unfold is_dir. rewrite stat_nonlink by by apply writable_not_link.
  by destruct H as [->|(m & d & ->)].
Qed.

(** [os.rename] of a file to a path where a file can be written, in a
    directory. *)
Lemma os_rename_file_total src dst w m d :
  entry (fs w) src = Some (File m d) → src ≠ dst →
  rename_refused E src dst = false →
  writable (fs w) dst → dst ≠ [] → is_dir (fs w) (parent dst) = true →
  os_rename E src dst w
  = (Ok tt, World (<[dst := File m d]> (delete src (fs w))) (out w)).
Proof.
  intros Hsrc Hne Href Hw Hd0 Hpar. unfold os_rename. rewrite bind_eq.
  cbn [get_fs]. rewrite Href, Hsrc, bool_decide_eq_false_2 by done.
  unfold is_dir in Hpar.
  destruct dst as [|c dst']; [done|].
  destruct (stat (fs w) (parent (c :: dst'))) as [[| |]|]; try discriminate Hpar.
  by destruct Hw as [->|(m' & d' & ->)].
Qed.

(** [open(p, 'w')] where a file can be written, in a directory. *)
Lemma write_bytes_total p data w :
  writable (fs w) p → is_dir (fs w) (parent p) = true →
  ∃ mq, write_bytes E p data w
        = (Ok tt, World (<[p := File mq data]> (fs w)) (out w)).
Proof.
  intros Hw Hpar. unfold write_bytes. rewrite bind_eq. cbn [get_fs].
  rewrite (realpath_nonlink _ _ (writable_not_link _ _ Hw)).
  destruct Hw as [Hn|(m' & d' & Hf)].
  - rewrite Hn. unfold is_dir in Hpar.
    destruct (stat (fs w) (parent p)) as [[| |]|]; try discriminate Hpar.
    by eexists.
  - rewrite Hf. by eexists.
Qed.

Lemma entry_insert_at t k v p :
  k ≠ [] →
  entry (<[k := v]> t) p = if bool_decide (p = k) then Some v else entry t p.
Proof.
  intros Hk. rewrite entry_insert.
  repeat case_bool_decide; try done.
  - destruct H as [-> _]. done.
  - subst. destruct H. by split.
Qed.

Lemma entry_delete_at t k p :
  k ≠ [] →
  entry (delete k t) p = if bool_decide (p = k) then None else entry t p.
Proof.
  intros Hk. rewrite entry_delete.
  repeat case_bool_decide; try done.
  - destruct H as [-> _]. done.
  - subst. destruct H. by split.
Qed.

Lemma is_dir_nonlink_entry t p :
  ¬ is_link (entry t p) → is_dir t p = true → ∃ m, entry t p = Some (Dir m).
Proof.
  intros Hnl Hd. unfold is_dir in Hd. rewrite stat_nonlink in Hd by done.
  destruct (entry t p) as [[| |]|]; try discriminate Hd. by eexists.
Qed.

(** [shutil.copy] of a file to another path where a file can be written,
    in a directory. *)
Lemma shutil_copy_file_total src dst w m d :
  entry (fs w) src = Some (File m d) → src ≠ dst →
  writable (fs w) dst → dst ≠ [] → is_dir (fs w) (parent dst) = true →
  shutil_copy E src dst w
  = (Ok dst, World (<[dst := File (S_IMODE m) d]> (fs w)) (out w)).
Proof.
  intros Hsrc Hne Hw Hd0 Hpar.
  pose proof (writable_not_link _ _ Hw) as Hnl.
  pose proof (writable_not_dir _ _ Hw) as Hnd.
  pose proof (realpath_nonlink _ _ Hnl) as Hrd.
  assert (realpath (fs w) src = src) as Hrs
    by (apply realpath_nonlink; rewrite Hsrc; simpl; tauto).
  unfold shutil_copy. rewrite bind_eq. cbn [get_fs]. rewrite Hnd.
  rewrite bind_eq. unfold shutil_copyfile. rewrite bind_eq. cbn [get_fs].
  assert (shutil_samefile (fs w) src dst = false) as Hsame.
  { unfold shutil_samefile, same_entry. rewrite Hrs, Hrd.
    rewrite bool_decide_eq_false_2 by done. apply andb_false_r. }
  rewrite Hsame, bind_eq, (read_bytes_file _ _ _ _ Hsrc).
  destruct (write_bytes_total dst d w Hw Hpar) as [mq Hwr].
  rewrite Hwr. unfold shutil_copymode. rewrite !bind_eq.
  assert (¬ is_link (Some (File mq d))) as Hfile by (simpl; tauto).
  assert (stat (<[dst:=File mq d]> (fs w)) src = Some (File m d)) as Hs1.
  { rewrite (stat_insert _ _ _ _ Hnl Hfile), Hrs.
    rewrite bool_decide_eq_false_2 by (intros [? _]; done).
    by apply stat_file. }
  rewrite (os_stat_found src (World _ _) _ Hs1).
  assert (stat (<[dst:=File mq d]> (fs w)) dst = Some (File mq d)) as Hs2.
  { rewrite (stat_insert _ _ _ _ Hnl Hfile), Hrd.
    by rewrite bool_decide_eq_true_2. }
  rewrite (Path_chmod_spec dst _ (World _ _) _ Hs2).
  cbn [fs out set_mode mret M_ret].
  rewrite <- (same_links_realpath _ _ dst (same_links_insert _ _ _ Hnl Hfile)).
  rewrite Hrd, insert_insert_eq.
  rewrite S_IMODE_idem. change (st_mode (File m d)) with (Z.lor S_IFREG m).
  by rewrite S_IMODE_file.
Qed.

(** [shutil.move] of a file to another path where a file can be written,
    in a directory: it returns, by [os.rename] or by a copy. *)
Lemma shutil_move_file_total src dst w m d :
  entry (fs w) src = Some (File m d) → src ≠ dst →
  writable (fs w) dst → dst ≠ [] → is_dir (fs w) (parent dst) = true →
  ∃ m1, S_IMODE m1 = S_IMODE m
        ∧ shutil_move E src dst w
          = (Ok dst, World (<[dst := File m1 d]> (delete src (fs w))) (out w)).
Proof.
  intros Hsrc Hne Hw Hd0 Hpar.
  pose proof (writable_not_dir _ _ Hw) as Hnd.
  unfold shutil_move. rewrite bind_eq. cbn [get_fs]. rewrite Hnd.
  cbn [andb]. rewrite bind_eq. unfold try_except.
  destruct (rename_refused E src dst) eqn:Href.
  - exists (S_IMODE m). split; [apply S_IMODE_idem|].
    unfold os_rename at 1. rewrite bind_eq. cbn [get_fs]. rewrite Href.
    cbn [raise is_OSError]. unfold move_fallback. rewrite bind_eq.
    cbn [get_fs]. rewrite Hsrc.
    assert (is_dir (fs w) src = false) as Hsd
      by (unfold is_dir; by rewrite (stat_file _ _ _ _ Hsrc)).
    rewrite Hsd, bind_eq.
    rewrite (shutil_copy_file_total _ _ _ _ _ Hsrc Hne Hw Hd0 Hpar).
    unfold os_unlink. rewrite bind_eq. cbn [get_fs fs out].
    rewrite entry_insert, bool_decide_eq_false_2 by (intros [? _]; done).
    rewrite Hsrc. cbn [put_fs fs out mret M_ret].
    by rewrite delete_insert_ne by done.
  - exists m. split; [done|].
    by rewrite (os_rename_file_total _ _ _ _ _ Hsrc Hne Href Hw Hd0 Hpar).
Qed.

End RelocateFile.

Section Shapes.

Context (E : Env).

Lemma temp_dir_eq :
  temp_dir E = home E ++ ["Applications"; ".temp_extraction"].
Proof. unfold temp_dir, applications_dir. cbn. by rewrite <- app_assoc. Qed.

Lemma temp_dir_snoc : temp_dir E = applications_dir E ++ [".temp_extraction"].
Proof. reflexivity. Qed.

Lemma below_icons_not_scratch c k :
  ¬ temp_dir E `prefix_of` user_icons_dir E ++ c :: k.
Proof.
  rewrite temp_dir_eq. unfold user_icons_dir. rewrite <- app_assoc.
  intros H%prefix_app_inv. apply prefix_cons_inv_1 in H. discriminate H.
Qed.

End Shapes.

Section IconStageFrame.

Context (E : Env) (t0 : tree).

Local Abbreviation Inv := (icon_stage_inv E t0).

Lemma Inv_same_outside t t' :
  (∀ p, ¬ temp_dir E `prefix_of` p → entry t' p = entry t p) →
  Inv t → Inv t'.
Proof.
  intros Hsame [Hl Hg]. split.
  - intros p Hp. destruct (decide (temp_dir E `prefix_of` p)) as [|Hn]; [done|].
    rewrite (Hsame p Hn) in Hp. by apply Hl.
  - intros p Hp. rewrite Hsame; [by apply Hg|].
    intros Hpre. apply Hp. by left.
Qed.

Lemma Inv_dirs_made t t' :
  dirs_made E (user_icons_dir E) t t' → Inv t → Inv t'.
Proof.
  intros Hmade [Hl Hg]. split.
  - intros p Hp. apply Hl.
    destruct (entry t' p) as [[| |q]|] eqn:Hq; try done.
    apply (dirs_made_same_links E _ _ _ Hmade p q) in Hq. by rewrite Hq.
  - intros p Hp. destruct p as [|c p]; [by left|].
    destruct (Hmade (c :: p)) as [Heq|(Hpre & Hn & Hd)].
    + destruct (Hg (c :: p) Hp) as [H|(HD & H0 & m & H)]; simpl in *.
      * left. congruence.
      * right. split; [done|]. split; [done|]. exists m. congruence.
    + destruct (Hg (c :: p) Hp) as [H|(_ & _ & m & H)]; simpl in *.
      * right. split; [done|]. split; [congruence|]. by eexists.
      * congruence.
Qed.

Lemma Inv_insert t c k v :
  ¬ is_link (Some v) → Inv t → Inv (<[user_icons_dir E ++ c :: k := v]> t).
Proof.
  intros Hv [Hl Hg]. split.
  - intros p Hp. rewrite entry_insert in Hp. case_bool_decide; [done|].
    by apply Hl.
  - intros p Hp. rewrite entry_insert. case_bool_decide as Hc; [|by apply Hg].
    destruct Hc as [<- _]. destruct Hp. right. by eexists _, _.
Qed.

Lemma Inv_realpath t c k :
  Inv t → realpath t (user_icons_dir E ++ c :: k) = user_icons_dir E ++ c :: k.
Proof.
  intros [Hl _]. apply realpath_nonlink. intros H%Hl.
  by apply below_icons_not_scratch in H.
Qed.

Lemma write_bytes_Raise p data w e w' :
  write_bytes E p data w = (Raise e, w') → w' = w.
Proof.
  unfold write_bytes. munfold. intros H. repeat case_step H; by inversion H.
Qed.

Lemma keeps_Inv_write_bytes c k data :
  keeps Inv (write_bytes E (user_icons_dir E ++ c :: k) data).
Proof.
  intros w r w' HI H. destruct r as [[]|e].
  - apply write_bytes_Ok in H as (mq & _ & _ & _ & ->). cbn [fs].
    rewrite (Inv_realpath _ _ _ HI). apply Inv_insert; [simpl; tauto|done].
  - by apply write_bytes_Raise in H as ->.
Qed.

Lemma keeps_Inv_Path_chmod c k mode :
  keeps Inv (Path_chmod (user_icons_dir E ++ c :: k) mode).
Proof.
  intros w r w' HI H. unfold Path_chmod in H. rewrite bind_eq in H.
  destruct (os_stat _ w) as [[n|e] w1] eqn:Hos.
  - unfold os_stat in Hos. munfold.
    destruct (stat (fs w) _) as [n0|] eqn:Hs;
      [|destruct (islink _ _); discriminate Hos].
    inversion Hos; subst. inversion H; subst. cbn [fs].
    rewrite (Inv_realpath _ _ _ HI). apply Inv_insert; [|done].
    apply stat_Some_entry in Hs as [_ Hs]. by destruct n.
  - inversion H; subst. by eapply (keeps_os_stat Inv).
Qed.

Lemma keeps_Inv_shutil_copy src c k :
  keeps Inv (shutil_copy E src (user_icons_dir E ++ c :: k)).
Proof.
  unfold shutil_copy. apply keeps_get. intros t.
  assert (∃ k', (if is_dir t (user_icons_dir E ++ c :: k)
                 then (user_icons_dir E ++ c :: k) // name src
                 else user_icons_dir E ++ c :: k)
                = user_icons_dir E ++ c :: k') as [k' ->].
  { destruct (is_dir t _); [|by eexists]. unfold join.
    destruct (String.eqb (name src) ""); [by eexists|].
    exists (k ++ [name src]). by rewrite <- app_assoc. }
  apply keeps_bind.
  { unfold shutil_copyfile. apply keeps_get. intros t'. apply keeps_if;
      [apply keeps_raise|].
    apply keeps_bind; [apply keeps_read_bytes|]. intros data.
    apply keeps_Inv_write_bytes. }
  intros _. apply keeps_bind; [|intros _; apply keeps_ret].
  unfold shutil_copymode. apply keeps_bind; [apply keeps_os_stat|].
  intros n. apply keeps_Inv_Path_chmod.
Qed.

Lemma keeps_Inv_install_icon target icon :
  keeps Inv (install_icon E target icon).
Proof.
  destruct icon as [icon|]; cbn [install_icon].
  - apply keeps_bind.
    { intros w r w' HI (_ & Hmade & _)%Path_mkdir_parents_outcome.
      by eapply Inv_dirs_made. }
    intros _. rewrite final_icon_path_snoc. apply keeps_bind.
    { change (user_icons_dir E ++ [dest_icon_name target icon])
        with (user_icons_dir E ++ dest_icon_name target icon :: []).
      apply keeps_Inv_shutil_copy. }
    intros _. apply keeps_bind; [apply keeps_print|]. intros _. apply keeps_ret.
  - apply keeps_bind; [apply keeps_print|]. intros _. apply keeps_ret.
Qed.

Lemma keeps_Inv_icon_body target : keeps Inv (icon_body E target).
Proof.
  unfold icon_body. apply keeps_bind; [apply keeps_print|]. intros _.
  apply keeps_bind; [|intros _; apply keeps_get; intros t;
                      apply keeps_Inv_install_icon].
  intros w r w' HI H. unfold subprocess_run_extract in H. munfold.
  repeat case_step H; inversion H; subst; try done.
  all: cbn [fs]; eapply Inv_same_outside; [|exact HI];
    intros p Hp; destruct p as [|c p]; [done|]; simpl;
    by apply write_all_lookup_outside.
Qed.

End IconStageFrame.

Section ExtractIcon.

Context (E : Env).

(** Lines 46-117 from a state where the scratch path is free or a
    directory, in the directory [~/Applications], and the links are in
    the scratch directory: the stage returns, no link is left, the
    scratch directory is gone, and elsewhere only the icon and its
    directories have been written. *)
Lemma extract_icon_total target w :
  links_below (temp_dir E) (fs w) →
  is_dir (fs w) (applications_dir E) = true →
  (entry (fs w) (temp_dir E) = None
   ∨ ∃ m, entry (fs w) (temp_dir E) = Some (Dir m)) →
  ∃ icon w4,
    extract_icon E target w = (Ok icon, w4)
    ∧ (∀ p, ¬ is_link (entry (fs w4) p))
    ∧ grown (icon_stage_writes E) (icon_stage_dirs E) (fs w) (fs w4)
    ∧ (∀ p, temp_dir E `prefix_of` p → fs w4 !! p = None).
Proof.
  intros Hl Happs Htemp. unfold extract_icon. rewrite bind_eq.
  destruct (Path_mkdir_makes E (applications_dir E) ".temp_extraction" w
              Happs Htemp) as (w3 & Hmk & _ & Hfs).
  change (applications_dir E ++ [".temp_extraction"]) with (temp_dir E)
    in Hmk, Hfs.
  rewrite Hmk.
  assert (icon_stage_inv E (fs w) (fs w3)) as HI.
  { destruct Hfs as [(m & _ & ->)|[Hn ->]].
    - split; [done|]. intros p _. by left.
    - split.
      + intros p Hp. rewrite entry_insert in Hp. case_bool_decide; [done|].
        by apply Hl.
      + intros p Hp. rewrite entry_insert. case_bool_decide as Hc; [|by left].
        destruct Hc as [<- _]. destruct Hp. by left. }
  assert (dir_at (temp_dir E) (fs w3)) as Hdir.
  { destruct Hfs as [(m & Hm & ->)|[Hn ->]].
    - exists m. rewrite <- lookup_entry; [done|apply temp_dir_nonroot].
    - eexists. apply lookup_insert_eq. }
  pose proof (icon_stage_dir E target w3 Hdir) as Hstage.
  pose proof (keeps_Inv_icon_body E (fs w) target w3) as Hkeep.
  destruct (icon_body E target w3) as [[icon|e] w1] eqn:Hbody;
    rewrite Hstage; eexists _, _; (split; [reflexivity|]); cbn [fs];
    specialize (Hkeep _ _ HI eq_refl); destruct Hkeep as [Hl1 Hg1].
  all: split; [|split; [|intros p Hp; by apply without_lookup]].
  all: try (intros p Hp; destruct p as [|c p]; [done|]; simpl in Hp;
            destruct (decide (temp_dir E `prefix_of` c :: p)) as [Hpre|Hpre];
            [by rewrite without_lookup in Hp|];
            rewrite without_lookup_outside in Hp by done;
            by apply (Hl1 (c :: p)) in Hp).
  all: intros p Hp;
    assert (entry (without (fs w1) (temp_dir E)) p = entry (fs w1) p) as ->
      by (destruct p as [|c p]; [done|]; simpl;
          apply without_lookup_outside; intros Hpre; apply Hp; by left);
    by apply Hg1.
Qed.

End ExtractIcon.

Section PathShapes.

Context (E : Env).

Lemma join_nonempty (p : path) c : c ≠ "" → p // c = p ++ [c].
Proof. intros H. unfold join. by rewrite (proj2 (String.eqb_neq _ _) H). Qed.

Lemma destination_eq nm :
  nm ≠ "" → applications_dir E // nm = home E ++ ["Applications"; nm].
Proof.
  intros H. rewrite join_nonempty by done. unfold applications_dir.
  by rewrite <- app_assoc.
Qed.

Lemma desktop_file_path_eq target :
  desktop_file_path E target
  = home E ++ [".local"; "share"; "applications"; stem target +:+ ".desktop"].
Proof.
  unfold desktop_file_path. rewrite join_nonempty.
  - unfold user_applications_dir. by rewrite <- app_assoc.
  - intros H. apply (f_equal String.length) in H.
    rewrite length_app_string in H. simpl in H. lia.
Qed.

Lemma launchers_eq :
  user_applications_dir E = home E ++ [".local"; "share"; "applications"].
Proof. reflexivity. Qed.

Lemma icons_eq : user_icons_dir E = home E ++ [".local"; "share"; "icons"].
Proof. reflexivity. Qed.

Lemma applications_eq : applications_dir E = home E ++ ["Applications"].
Proof. reflexivity. Qed.

End PathShapes.

(** Paths under the home directory that differ in a component. *)
Ltac apart :=
  repeat match goal with
         | H : _ ++ _ `prefix_of` _ ++ _ |- _ =>
             apply prefix_app_inv in H; cbn [app] in H
         | H : _ ++ _ = _ ++ _ |- _ =>
             apply app_inv_head in H; cbn [app] in H
         | H : (_ :: _) `prefix_of` (_ :: _) |- _ =>
             let H1 := fresh in
             pose proof (prefix_cons_inv_1 _ _ _ _ H) as H1;
             apply prefix_cons_inv_2 in H;
             try discriminate H1; try congruence
         | H : (_ :: _) `prefix_of` [] |- _ =>
             apply prefix_nil_inv in H; discriminate H
         | H : _ :: _ = _ :: _ |- _ => progress simplify_eq
         | H : _ :: _ = [] |- _ => discriminate H
         | H : [] = _ :: _ |- _ => discriminate H
         end.

Section CleanHome.

Context (E : Env).

(** Lines 33-40 for a file and a destination, in a directory, where a
    file can be written: the file is at the destination, with its bytes
    and permission bits, and nowhere else. *)
Lemma relocate_file_total src dst w m d :
  entry (fs w) src = Some (File m d) →
  writable (fs w) dst → dst ≠ [] → is_dir (fs w) (parent dst) = true →
  ∃ w1 m1,
    relocate E src dst w = (Ok true, w1)
    ∧ S_IMODE m1 = S_IMODE m
    ∧ (∀ p, entry (fs w1) p
            = if bool_decide (p = dst) then Some (File m1 d)
              else if bool_decide (p = src) then None
              else entry (fs w) p).
Proof.
  intros Hsrc Hw Hd0 Hpar. destruct (decide (src = dst)) as [<-|Hne].
  - destruct (relocate_in_place E _ _ _ _ Hsrc) as (w1 & Hrel & Hfs & _).
    exists w1, m. split; [done|]. split; [done|]. intros p. rewrite Hfs.
    case_bool_decide; congruence.
  - destruct (shutil_move_file_total E _ _ _ _ _ Hsrc Hne Hw Hd0 Hpar)
      as (m1 & Hm1 & Hmove).
    eexists _, m1. split.
    { unfold relocate, try_except. rewrite bind_eq, Hmove. reflexivity. }
    split; [done|]. intros p. cbn [fs].
    rewrite entry_insert_at by done.
    by rewrite entry_delete_at by by eapply file_nonroot.
Qed.


End CleanHome.

Lemma no_linksb_spec t : no_linksb t = true → no_links t.
Proof.
  intros H p. destruct p as [|c p]; [simpl; tauto|]. simpl.
  destruct (t !! (c :: p)) as [n|] eqn:Hn; [|simpl; tauto].
  apply elem_of_map_to_list, list_elem_of_In in Hn.
  unfold no_linksb in H. rewrite forallb_forall in H.
  specialize (H _ Hn). simpl in H.
  destruct n; simpl; [tauto|tauto|discriminate H].
Qed.

Lemma makeableb_spec t p : makeableb t p = true → makeable t p.
Proof.
  intros H q [k ->]. unfold makeableb in H. rewrite forallb_forall in H.
  assert (In q (prefixes (q ++ k))) as Hin.
  { unfold prefixes. apply in_map_iff. exists (length q). split.
    - apply take_app_length.
    - apply in_seq. rewrite length_app. lia. }
  specialize (H _ Hin). destruct (entry t q) as [[| |]|]; try discriminate H;
    eauto.
Qed.


(** ** A destination that is a directory, a package that is one *)

Section IntoDirectory.

Context (E : Env).

(** The [try] of [shutil.move] for a file and a path [to] where a file can
    be written, in a directory: [os.rename], or the copy when it is
    refused. *)
Lemma move_file_to src dst to w m d :
  entry (fs w) src = Some (File m d) → src ≠ to →
  writable (fs w) to → to ≠ [] → is_dir (fs w) (parent to) = true →
  ∃ m1, S_IMODE m1 = S_IMODE m
        ∧ try_except (os_rename E src to) is_OSError
            (λ _, move_fallback E src dst to) w
          = (Ok tt, World (<[to := File m1 d]> (delete src (fs w))) (out w)).
Proof.
  intros Hsrc Hne Hw Hd0 Hpar. unfold try_except.
  destruct (rename_refused E src to) eqn:Href.
  - exists (S_IMODE m). split; [apply S_IMODE_idem|].
    unfold os_rename at 1. rewrite bind_eq. cbn [get_fs]. rewrite Href.
    cbn [raise is_OSError]. unfold move_fallback. rewrite bind_eq.
    cbn [get_fs]. rewrite Hsrc.
    assert (is_dir (fs w) src = false) as Hsd
      by (unfold is_dir; by rewrite (stat_file _ _ _ _ Hsrc)).
    rewrite Hsd, bind_eq.
    rewrite (shutil_copy_file_total _ _ _ _ _ _ Hsrc Hne Hw Hd0 Hpar).
    unfold os_unlink. rewrite bind_eq. cbn [get_fs fs out].
    rewrite entry_insert, bool_decide_eq_false_2 by (intros [? _]; done).
    rewrite Hsrc. cbn [put_fs fs out mret M_ret].
    by rewrite delete_insert_ne by done.
  - exists m. split; [done|].
    by rewrite (os_rename_file_total _ _ _ _ _ _ Hsrc Hne Href Hw Hd0 Hpar).
Qed.

(** X20. Lines 33-44 when the destination path is a directory:
    [shutil.move] puts the package into it, under its own name, and the
    directory, not the package, gets the execute bits. *)
Theorem destination_directory_takes_package arg w src dst w0 m d md :
  prepare E arg w = (Ok (Some (src, dst)), w0) →
  entry (fs w0) src = Some (File m d) →
  entry (fs w0) dst = Some (Dir md) →
  dst ≠ [] →
  name src ≠ "" →
  entry (fs w0) (dst // name src) = None →
  ∃ w1 w2 m1,
    relocate E src dst w0 = (Ok true, w1)
    ∧ make_executable dst w1 = (Ok tt, w2)
    ∧ entry (fs w2) dst = Some (Dir (Z.lor (S_IMODE md) 73))
    ∧ entry (fs w2) (dst // name src) = Some (File m1 d)
    ∧ S_IMODE m1 = S_IMODE m
    ∧ (dst // name src ≠ src → entry (fs w2) src = None)
    ∧ out w2 = out w0 ++ [MsgMoved dst; MsgMadeExecutable].
Proof.
  intros Hprep Hsrc Hdst Hd0 Hnm Hfree.
  set (to := dst // name src) in *.
  assert (to = dst ++ [name src]) as Hto by (by apply join_nonempty).
  assert (to ≠ []) as Hto0 by (rewrite Hto; apply snoc_nonroot).
  assert (parent to = dst) as Hpar by (rewrite Hto; apply parent_snoc).
  assert (to ≠ dst) as Htd.
  { rewrite Hto. intros H. apply (f_equal length) in H.
    rewrite length_app in H. simpl in H. lia. }
  assert (src ≠ to) as Hst by congruence.
  assert (src ≠ dst) as Hsd by congruence.
  assert (is_dir (fs w0) dst = true) as Hdir by (by eapply is_dir_entry).
  assert (writable (fs w0) to) as Hw by (by left).
  assert (is_dir (fs w0) (parent to) = true) as Hpd by (by rewrite Hpar).
  destruct (move_file_to src dst to w0 m d Hsrc Hst Hw Hto0 Hpd)
    as (m1 & Hm1 & Hmove).
  assert (shutil_samefile (fs w0) src dst = false) as Hsame.
  { unfold shutil_samefile, same_entry.
    rewrite !realpath_nonlink by (rewrite ?Hsrc, ?Hdst; simpl; tauto).
    rewrite bool_decide_eq_false_2 by done. apply andb_false_r. }
  assert (exists_ (fs w0) to = false) as Hex.
  { unfold exists_. by rewrite (stat_entry_None _ _ Hfree). }
  assert (relocate E src dst w0
          = (Ok true, World (<[to := File m1 d]> (delete src (fs w0)))
                            (out w0 ++ [MsgMoved dst]))) as Hrel.
  { unfold relocate, try_except at 1. rewrite bind_eq.
    unfold shutil_move. rewrite bind_eq. cbn [get_fs].
    rewrite Hdir, Hsame. cbn [andb]. fold to. rewrite Hex.
    rewrite bind_eq, Hmove. reflexivity. }
  set (t1 := <[to := File m1 d]> (delete src (fs w0))) in *.
  assert (∀ p, entry t1 p
               = if bool_decide (p = to) then Some (File m1 d)
                 else if bool_decide (p = src) then None
                 else entry (fs w0) p) as Hent1.
  { intros p. unfold t1. rewrite entry_insert_at by done.
    by rewrite entry_delete_at by by eapply file_nonroot. }
  assert (entry t1 dst = Some (Dir md)) as Hdst1.
  { rewrite Hent1, !bool_decide_eq_false_2 by congruence. done. }
  pose proof (stat_entry_Dir _ _ _ Hdst1) as Hs1.
  assert (make_executable dst
            (World t1 (out w0 ++ [MsgMoved dst]))
          = (Ok tt, World (<[dst := Dir (Z.lor (S_IMODE md) 73)]> t1)
                          ((out w0 ++ [MsgMoved dst])
                           ++ [MsgMadeExecutable]))) as Hexe.
  { unfold make_executable. rewrite bind_eq.
    rewrite (os_stat_found dst (World _ _) _ Hs1).
    rewrite bind_eq, (Path_chmod_spec dst _ (World _ _) _ Hs1).
    cbn [fs out set_mode st_mode].
    rewrite realpath_nonlink by (rewrite Hdst1; simpl; tauto).
    rewrite !S_IMODE_lor. change (S_IMODE S_IFDIR) with 0%Z.
    change (S_IMODE 73) with 73%Z. rewrite Z.lor_0_l. reflexivity. }
  eexists _, _, m1. split; [exact Hrel|]. split; [exact Hexe|]. cbn [fs out].
  split; [by rewrite entry_insert_at, bool_decide_eq_true_2|].
  split.
  { rewrite entry_insert_at, bool_decide_eq_false_2 by done.
    by rewrite Hent1, bool_decide_eq_true_2. }
  split; [done|]. split.
  { intros _. rewrite entry_insert_at, bool_decide_eq_false_2 by done.
    rewrite Hent1, bool_decide_eq_false_2 by done.
    by rewrite bool_decide_eq_true_2. }
  by rewrite <- app_assoc.
Qed.

End IntoDirectory.

Lemma destination_directory_takes_package_witness :
  ∃ w0,
    prepare Sample.working Sample.package Sample.foldered
    = (Ok (Some (Sample.package, Sample.installed)), w0)
    ∧ entry (fs w0) Sample.package = Some (File 420 "ELF")
    ∧ entry (fs w0) Sample.installed = Some (Dir 493)
    ∧ Sample.installed ≠ []
    ∧ name Sample.package ≠ ""
    ∧ entry (fs w0) (Sample.installed // name Sample.package) = None
    ∧ ∃ w1 w2 m1,
        relocate Sample.working Sample.package Sample.installed w0
        = (Ok true, w1)
        ∧ make_executable Sample.installed w1 = (Ok tt, w2)
        ∧ entry (fs w2) Sample.installed
          = Some (Dir (Z.lor (S_IMODE 493) 73))
        ∧ entry (fs w2) (Sample.installed // name Sample.package)
          = Some (File m1 "ELF")
        ∧ S_IMODE m1 = S_IMODE 420
        ∧ (Sample.installed // name Sample.package ≠ Sample.package →
           entry (fs w2) Sample.package = None)
        ∧ out w2 = out w0 ++ [MsgMoved Sample.installed; MsgMadeExecutable].
Proof.
  eexists. split; [apply outcome_eq; vm_compute; reflexivity|].
  split; [vm_compute; reflexivity|]. split; [vm_compute; reflexivity|].
  split; [discriminate|]. split; [vm_compute; discriminate|].
  split; [vm_compute; reflexivity|].
  eapply (destination_directory_takes_package Sample.working Sample.package
            Sample.foldered Sample.package Sample.installed).
  - apply outcome_eq; vm_compute; reflexivity.
  - vm_compute. reflexivity.
  - vm_compute. reflexivity.
  - discriminate.
  - vm_compute. discriminate.
  - vm_compute. reflexivity.
Defined.

Section Grafted.

Lemma rebase_below src dst k : rebase src dst (src ++ k) = dst ++ k.
Proof. unfold rebase. by rewrite drop_app_length. Qed.

(** What [graft] puts below [dst]: the entries of [sub], and where it
    has none, what was there. *)
Lemma graft_lookup_moved t sub src dst k :
  (∀ key, is_Some (sub !! key) → src `prefix_of` key) →
  graft t sub src dst !! (dst ++ k)
  = match sub !! (src ++ k) with
    | Some v => Some v
    | None => t !! (dst ++ k)
    end.
Proof.
  unfold graft.
  apply (map_fold_weak_ind
           (λ r m, (∀ key, is_Some (m !! key) → src `prefix_of` key) →
                   r !! (dst ++ k)
                   = match m !! (src ++ k) with
                     | Some v => Some v
                     | None => t !! (dst ++ k)
                     end)).
  { intros _. by rewrite lookup_empty. }
  intros i x m r Hi IH Hall.
  destruct (Hall i) as [j ->]; [by rewrite lookup_insert_eq|].
  rewrite rebase_below. destruct (decide (j = k)) as [->|Hjk].
  - by rewrite !lookup_insert_eq.
  - rewrite !lookup_insert_ne by (intros ?; simplify_list_eq; done).
    apply IH. intros key Hk. apply Hall.
    rewrite lookup_insert_ne; [done|]. intros <-.
    rewrite Hi in Hk. by destruct Hk.
Qed.

Lemma subtree_lookup t src p :
  subtree t src !! p = if decide (src `prefix_of` p) then t !! p else None.
Proof.
  unfold subtree. apply option_eq. intros n.
  rewrite map_lookup_filter_Some. simpl.
  destruct (decide (src `prefix_of` p)) as [Hp|Hp]; [tauto|].
  split; [tauto|discriminate].
Qed.

Lemma subtree_below t src key :
  is_Some (subtree t src !! key) → src `prefix_of` key.
Proof.
  rewrite subtree_lookup. destruct (decide _); [done|]. by intros [? ?].
Qed.

Lemma subtree_insert_outside t src q v :
  ¬ src `prefix_of` q → subtree (<[q := v]> t) src = subtree t src.
Proof.
  intros H. apply map_eq. intros p. rewrite !subtree_lookup.
  destruct (decide _) as [Hp|]; [|done].
  rewrite lookup_insert_ne; [done|]. by intros <-.
Qed.

End Grafted.

Section DirectoryPackage.

Context (E : Env).

Lemma Path_mkdir_parents_new p c w :
  is_dir (fs w) p = true → entry (fs w) (p ++ [c]) = None →
  Path_mkdir_parents E false (p ++ [c]) w
  = (Ok tt, World (<[p ++ [c] := Dir (new_dir_mode E)]> (fs w)) (out w)).
Proof.
  intros Hp Hn. unfold Path_mkdir_parents. rewrite rev_app_distr.
  cbn [rev app Path_mkdir_parents_rev]. rewrite rev_involutive.
  unfold try_except, os_mkdir. munfold. rewrite Hn, parent_snoc.
  unfold is_dir in Hp. by destruct (stat (fs w) p) as [[| |]|].
Qed.


End DirectoryPackage.

Lemma subtree_empty_free t d :
  subtree t d = ∅ → ∀ k, t !! (d ++ k) = None.
Proof.
  intros H k. pose proof (subtree_lookup t d (d ++ k)) as Hl.
  rewrite H, lookup_empty, decide_True in Hl by by apply prefix_app_r.
  done.
Qed.


Section NotAFile.

Context (E : Env).

Lemma run_not_a_file exe cwd w :
  (∀ m d, stat (fs w) exe ≠ Some (File m d)) →
  ∃ e, subprocess_run_extract E exe cwd w = (Raise e, w)
       ∧ (e = PermissionError ∨ e = FileNotFoundError
          ∨ e = NotADirectoryError).
Proof.
  intros Hn. unfold subprocess_run_extract. rewrite bind_eq. cbn [get_fs].
  destruct (is_dir (fs w) cwd); cbn [negb].
  - destruct (stat (fs w) exe) as [[m d| |]|] eqn:Hs; eauto.
    by destruct (Hn m d).
  - destruct (exists_ (fs w) cwd); eauto.
Qed.

(** X22. Lines 51-117 for a target path that is not a regular file, a
    directory for one: nothing is extracted, the exception of
    [subprocess.run] is caught, and the stage, when it returns, gives the
    fallback icon and has changed nothing but the scratch directory, which
    it removed. *)
Theorem extraction_needs_regular_file target w icon w' :
  (∀ m d, stat (fs w) target ≠ Some (File m d)) →
  icon_stage E target w = (Ok icon, w') →
  icon = fallback_icon
  ∧ (∃ e, out w' = out w ++ [MsgExtracting; MsgErrorExtracting e]
          ∧ (e = PermissionError ∨ e = FileNotFoundError
             ∨ e = NotADirectoryError))
  ∧ (fs w' = fs w ∨ fs w' = without (fs w) (temp_dir E)).
Proof.
  intros Hn. unfold icon_stage, try_finally, try_except, icon_body.
  rewrite bind_eq. cbn [print]. rewrite bind_eq.
  destruct (run_not_a_file target (temp_dir E)
              (World (fs w) (out w ++ [MsgExtracting])) Hn) as (e & -> & He).
  assert (any_Exception e = true) as -> by (by destruct He as [->|[->| ->]]).
  unfold icon_handler. rewrite bind_eq. cbn [print fs out mret M_ret].
  unfold cleanup. rewrite bind_eq. cbn [get_fs fs out].
  destruct (exists_ (fs w) (temp_dir E)).
  - unfold shutil_rmtree. rewrite bind_eq. cbn [get_fs fs out].
    destruct (entry (fs w) (temp_dir E)) as [[| |]|]; intros H;
      inversion H; subst. cbn [fs out].
    split; [done|]. split; [|by right].
    exists e. by rewrite <- app_assoc.
  - intros H. inversion H; subst. cbn [fs out].
    split; [done|]. split; [|by left].
    exists e. by rewrite <- app_assoc.
Qed.

End NotAFile.

Lemma extraction_needs_regular_file_witness :
  (∀ m d, stat (fs Sample.staged) (applications_dir Sample.working)
          ≠ Some (File m d))
  ∧ ∃ w',
      icon_stage Sample.working (applications_dir Sample.working)
        Sample.staged
      = (Ok fallback_icon, w')
      ∧ fallback_icon = fallback_icon
      ∧ (∃ e, out w' = out Sample.staged
                       ++ [MsgExtracting; MsgErrorExtracting e]
              ∧ (e = PermissionError ∨ e = FileNotFoundError
                 ∨ e = NotADirectoryError))
      ∧ (fs w' = fs Sample.staged
         ∨ fs w' = without (fs Sample.staged) (temp_dir Sample.working)).
Proof.
  assert (∀ m d, stat (fs Sample.staged) (applications_dir Sample.working)
                 ≠ Some (File m d)) as Hn
    by (intros m d H; vm_compute in H; discriminate H).
  split; [exact Hn|].
  eexists. split; [apply outcome_eq; vm_compute; reflexivity|].
  apply (extraction_needs_regular_file Sample.working
           (applications_dir Sample.working) Sample.staged _ _ Hn).
  apply outcome_eq; vm_compute; reflexivity.
Defined.
